(** * Ranking extractors: ABS, CORE and SJR

    A shallow embedding of the three update scripts
    [extract_abs.py], [extract_full_core.py] and [extract_sjr.py],
    together with the part of the Python runtime they rely on
    ([str] methods, insertion-ordered [dict], [float], [sorted],
    [csv.DictReader], [json.dump]).

    Conventions.
    - A [str] is a [string]; the character of number [n] stands for the
      code point U+00[n], so the strings of the model are those over the
      Latin-1 block.  The tables for [isspace] and [lower] are the Unicode
      ones restricted to that block.
    - A [dict] is an association list in insertion order with pairwise
      distinct keys; assigning to a key that is present keeps its position.
    - An exception is a value [Raise e] of [result]; a [for] loop stops
      at the first one.
    - What a script prints inside its row loop is recorded as a list of
      [diag] events; the summaries printed after the loop are not recorded.
    - The input of an extractor is what [open] and [csv.reader] give:
      [None] when the file cannot be opened, else the list of rows. *)

From Stdlib Require Import List String Ascii ZArith NArith Bool Arith Lia.
From Stdlib Require Import Permutation Sorted.
Import ListNotations.
Open Scope string_scope.

(** ** The Python runtime *)

Module Py.

(** The two characters that a string literal cannot hold directly. *)
Definition dq : string := String "034"%char EmptyString.
Definition nl : string := String "010"%char EmptyString.

Definition ord (c : ascii) : N := N_of_ascii c.
Definition chr (n : N) : ascii := ascii_of_N n.

(** [str.isspace] on one character: U+0009..000D, U+001C..0020, U+0085,
    U+00A0. *)
Definition isspace (c : ascii) : bool :=
  let n := ord c in
  ((9 <=? n) && (n <=? 13) || (28 <=? n) && (n <=? 32)
   || (n =? 133) || (n =? 160))%N.

(** [str.lower] on one character: A..Z and U+00C0..00DE except U+00D7. *)
Definition lower_char (c : ascii) : ascii :=
  let n := ord c in
  if ((65 <=? n) && (n <=? 90)
      || (192 <=? n) && (n <=? 222) && negb (n =? 215))%N
  then chr (n + 32) else c.

Fixpoint lower (s : string) : string :=
  match s with
  | EmptyString => EmptyString
  | String c s' => String (lower_char c) (lower s')
  end.

Fixpoint lstrip_by (p : ascii -> bool) (s : string) : string :=
  match s with
  | EmptyString => EmptyString
  | String c s' => if p c then lstrip_by p s' else s
  end.

Fixpoint rstrip_by (p : ascii -> bool) (s : string) : string :=
  match s with
  | EmptyString => EmptyString
  | String c s' =>
      match rstrip_by p s' with
      | EmptyString => if p c then EmptyString else String c EmptyString
      | t => String c t
      end
  end.

Definition strip_by (p : ascii -> bool) (s : string) : string :=
  rstrip_by p (lstrip_by p s).

(** [s.strip()] *)
Definition strip (s : string) : string := strip_by isspace s.

Fixpoint char_in (c : ascii) (chars : string) : bool :=
  match chars with
  | EmptyString => false
  | String d chars' => (c =? d)%char || char_in c chars'
  end.

(** [s.strip(chars)] *)
Definition strip_chars (chars s : string) : string :=
  strip_by (fun c => char_in c chars) s.

(** [s.startswith(p)] *)
Definition startswith (s p : string) : bool := prefix p s.

(** [s.replace(old, new)] for a non-empty [old]: occurrences are found
    from the left and do not overlap.  [skip] counts the characters of
    the occurrence just replaced that are still to be dropped. *)
Fixpoint replace_from (old new : string) (skip : nat) (s : string) : string :=
  match s with
  | EmptyString => EmptyString
  | String c s' =>
      match skip with
      | S k => replace_from old new k s'
      | O =>
          if prefix old s
          then new ++ replace_from old new (length old - 1) s'
          else String c (replace_from old new 0 s')
      end
  end.

Fixpoint interleave (new s : string) : string :=
  match s with
  | EmptyString => new
  | String c s' => new ++ String c (interleave new s')
  end.

Definition replace (old new s : string) : string :=
  match old with
  | EmptyString => interleave new s
  | _ => replace_from old new 0 s
  end.

(** Truth value of a string: non-empty. *)
Definition truthy (s : string) : bool := negb (s =? "").

(** [x in [a, b, ...]] *)
Definition in_list (x : string) (l : list string) : bool :=
  existsb (String.eqb x) l.

(** [s.count(c)] for one character [c]. *)
Fixpoint count_char (c : ascii) (s : string) : nat :=
  match s with
  | EmptyString => 0
  | String d s' => (if (d =? c)%char then 1 else 0) + count_char c s'
  end.

(** *** Exceptions *)

Inductive exn : Set :=
| IndexError | KeyError | AttributeError | ValueError
| StopIteration | FileNotFoundError.

Inductive result (A : Type) : Type :=
| Ok (a : A)
| Raise (e : exn).
Arguments Ok {A} a.
Arguments Raise {A} e.

Definition bind {A B} (r : result A) (k : A -> result B) : result B :=
  match r with
  | Ok a => k a
  | Raise e => Raise e
  end.

Notation "x <- m ;; k" := (bind m (fun x => k))
  (at level 61, m at next level, right associativity).

(** [for x in xs: body], threading the state [s]. *)
Fixpoint for_each {R S} (body : R -> S -> result S) (xs : list R) (s : S)
  : result S :=
  match xs with
  | [] => Ok s
  | x :: xs' =>
      match body x s with
      | Ok s' => for_each body xs' s'
      | Raise e => Raise e
      end
  end.

(** [row[i]] on a list. *)
Definition index {A} (row : list A) (i : nat) : result A :=
  match nth_error row i with
  | Some x => Ok x
  | None => Raise IndexError
  end.

(** *** Dictionaries *)

Definition dict (V : Type) : Type := list (string * V).

(** [d[k] = v] *)
Fixpoint dict_set {V} (k : string) (v : V) (d : dict V) : dict V :=
  match d with
  | [] => [(k, v)]
  | (k', v') :: d' =>
      if (k' =? k)%string then (k', v) :: d' else (k', v') :: dict_set k v d'
  end.

(** [d.get(k)] *)
Fixpoint dict_get {V} (k : string) (d : dict V) : option V :=
  match d with
  | [] => None
  | (k', v') :: d' => if (k' =? k)%string then Some v' else dict_get k d'
  end.

Definition keys {V} (d : dict V) : list string := map fst d.

(** [d[k]] *)
Definition getitem {V} (d : dict V) (k : string) : result V :=
  match dict_get k d with
  | Some v => Ok v
  | None => Raise KeyError
  end.

(** [sorted(d.items())].  Items are compared as tuples; the keys of a
    dict are pairwise distinct, so the comparison is decided by the keys
    and the values are never compared. *)
Fixpoint insert_item {V} (x : string * V) (l : list (string * V))
  : list (string * V) :=
  match l with
  | [] => [x]
  | y :: l' =>
      if (fst x <=? fst y)%string then x :: l else y :: insert_item x l'
  end.

Fixpoint sorted {V} (l : list (string * V)) : list (string * V) :=
  match l with
  | [] => []
  | x :: l' => insert_item x (sorted l')
  end.

(** The order of two items by their keys. *)
Definition key_le {V} (x y : string * V) : Prop := (fst x <=? fst y) = true.

(** [enumerate(l)] *)
Fixpoint enumerate_from {A} (i : nat) (l : list A) : list (nat * A) :=
  match l with
  | [] => []
  | x :: l' => (i, x) :: enumerate_from (S i) l'
  end.

Definition enumerate {A} (l : list A) : list (nat * A) := enumerate_from 0 l.

(** *** [float(s)]

    The grammar of the argument, after surrounding whitespace is removed:
<<
      floatvalue  ::= [sign] (floatnumber | "inf" | "infinity" | "nan")
      floatnumber ::= number [("e" | "E") [sign] digitpart]
      number      ::= [digitpart] "." digitpart | digitpart ["."]
      digitpart   ::= digit (["_"] digit)*
>>
    with the three words matched without regard to case.  A finite
    literal is returned as the decimal it denotes, [(-1)^neg * m * 10^e];
    CPython then rounds that decimal to the nearest binary64 value, a
    step that depends on the decimal only and is not part of the model. *)

Inductive pyfloat : Set :=
| FNan
| FInf (neg : bool)
| FDec (neg : bool) (m : N) (e : Z).

Definition is_digit (c : ascii) : bool :=
  let n := ord c in ((48 <=? n) && (n <=? 57))%N.

Definition digit_val (c : ascii) : N := (ord c - 48)%N.

(** The [(["_"] digit)*] part: the value read so far, the number of
    digits read, and what is left. *)
Fixpoint digits_tail (acc : N) (cnt : nat) (s : string) : N * nat * string :=
  match s with
  | EmptyString => (acc, cnt, s)
  | String c s' =>
      if is_digit c then digits_tail (10 * acc + digit_val c) (S cnt) s'
      else if (c =? "_")%char then
        match s' with
        | EmptyString => (acc, cnt, s)
        | String d s'' =>
            if is_digit d
            then digits_tail (10 * acc + digit_val d) (S cnt) s''
            else (acc, cnt, s)
        end
      else (acc, cnt, s)
  end.

Definition digitpart (acc : N) (s : string) : option (N * nat * string) :=
  match s with
  | EmptyString => None
  | String c s' =>
      if is_digit c then Some (digits_tail (10 * acc + digit_val c) 1 s')
      else None
  end.

Definition parse_sign (s : string) : bool * string :=
  match s with
  | String "+" r => (false, r)
  | String "-" r => (true, r)
  | _ => (false, s)
  end.

(** What follows the number: nothing, or an exponent up to the end. *)
Definition parse_exponent (s : string) : option Z :=
  match s with
  | EmptyString => Some 0%Z
  | String c r =>
      if ((c =? "e") || (c =? "E"))%char then
        let (neg, r1) := parse_sign r in
        match digitpart 0 r1 with
        | Some (v, _, EmptyString) =>
            Some (if neg then (- Z.of_N v)%Z else Z.of_N v)
        | _ => None
        end
      else None
  end.

Definition finish_number (m : N) (frac : nat) (rest : string) : option (N * Z) :=
  match parse_exponent rest with
  | Some e => Some (m, (e - Z.of_nat frac)%Z)
  | None => None
  end.

Definition parse_floatnumber (s : string) : option (N * Z) :=
  match digitpart 0 s with
  | Some (i, _, r) =>
      match r with
      | String "." r1 =>
          match digitpart i r1 with
          | Some (m, k, r2) => finish_number m k r2
          | None => finish_number i 0 r1
          end
      | _ => finish_number i 0 r
      end
  | None =>
      match s with
      | String "." r1 =>
          match digitpart 0 r1 with
          | Some (m, k, r2) => finish_number m k r2
          | None => None
          end
      | _ => None
      end
  end.

Definition float (s : string) : result pyfloat :=
  let (neg, r) := parse_sign (strip s) in
  let w := lower r in
  if (w =? "inf") || (w =? "infinity") then Ok (FInf neg)
  else if w =? "nan" then Ok FNan
  else
    match parse_floatnumber r with
    | Some (m, e) => Ok (FDec neg m e)
    | None => Raise ValueError
    end.

(** The same grammar as a predicate on strings, with which the parser
    is compared below. *)

Inductive digits_rest : string -> Prop :=
| rest_nil : digits_rest ""
| rest_digit (c : ascii) (s : string) :
    is_digit c = true -> digits_rest s -> digits_rest (String c s)
| rest_under (c : ascii) (s : string) :
    is_digit c = true -> digits_rest s ->
    digits_rest (String "_" (String c s)).

Inductive digitpart_lit : string -> Prop :=
| digitpart_intro (c : ascii) (s : string) :
    is_digit c = true -> digits_rest s -> digitpart_lit (String c s).

Inductive sign_lit : string -> Prop :=
| sign_none : sign_lit ""
| sign_plus : sign_lit "+"
| sign_minus : sign_lit "-".

Inductive number_lit : string -> Prop :=
| number_point (a b : string) :
    a = "" \/ digitpart_lit a -> digitpart_lit b ->
    number_lit (a ++ "." ++ b)
| number_int (a : string) : digitpart_lit a -> number_lit a
| number_int_point (a : string) : digitpart_lit a -> number_lit (a ++ ".").

Inductive exponent_lit : string -> Prop :=
| exponent_intro (c : ascii) (sg d : string) :
    c = "e"%char \/ c = "E"%char -> sign_lit sg -> digitpart_lit d ->
    exponent_lit (String c (sg ++ d)).

Inductive floatnumber_lit : string -> Prop :=
| floatnumber_intro (n x : string) :
    number_lit n -> x = "" \/ exponent_lit x -> floatnumber_lit (n ++ x).

Inductive float_lit : string -> Prop :=
| float_number (sg n : string) :
    sign_lit sg -> floatnumber_lit n -> float_lit (sg ++ n)
| float_word (sg w : string) :
    sign_lit sg -> In (lower w) ["inf"; "infinity"; "nan"] ->
    float_lit (sg ++ w).

(** *** [json.dump(obj, f, indent=2, ensure_ascii=False)] *)

Definition hex_digit (n : N) : ascii :=
  if (n <? 10)%N then chr (48 + n) else chr (87 + n).

(** One character inside a JSON string: the quote, the backslash and the
    characters below U+0020 are escaped, everything else is copied. *)
Definition json_escape_char (c : ascii) : string :=
  let n := ord c in
  if (n =? 34)%N then "\" ++ dq
  else if (n =? 92)%N then "\\"
  else if (n =? 8)%N then "\b"
  else if (n =? 12)%N then "\f"
  else if (n =? 10)%N then "\n"
  else if (n =? 13)%N then "\r"
  else if (n =? 9)%N then "\t"
  else if (n <? 32)%N
       then "\u00" ++ String (hex_digit (n / 16)) (String (hex_digit (n mod 16)) "")
  else String c "".

Fixpoint json_escape (s : string) : string :=
  match s with
  | EmptyString => EmptyString
  | String c s' => json_escape_char c ++ json_escape s'
  end.

Definition json_string (s : string) : string := dq ++ json_escape s ++ dq.

(** A JSON object whose members are already encoded, at nesting depth
    [depth]: one member per line, indented by two spaces per level. *)
Fixpoint spaces (n : nat) : string :=
  match n with
  | O => EmptyString
  | S n' => String " " (spaces n')
  end.

Definition json_object (depth : nat) (members : list (string * string)) : string :=
  match members with
  | [] => "{}"
  | _ =>
      "{" ++ nl
      ++ concat ("," ++ nl)
           (map (fun kv => spaces (2 * S depth) ++ json_string (fst kv)
                           ++ ": " ++ snd kv) members)
      ++ nl ++ spaces (2 * depth) ++ "}"
  end.

(** *** [csv.DictReader]

    The first row gives the field names; empty rows are not returned; a
    row shorter than the field names is completed with [None].  The
    extra fields of a longer row are stored under the key [None], which
    no lookup by name reaches, and are left out. *)

Definition record : Type := dict (option string).

Fixpoint zip_fields (fieldnames row : list string) (d : record) : record :=
  match fieldnames, row with
  | k :: fieldnames', v :: row' => zip_fields fieldnames' row' (dict_set k (Some v) d)
  | _, _ => d
  end.

Definition fill_restval (fieldnames : list string) (d : record) : record :=
  fold_left (fun d k => dict_set k None d) fieldnames d.

Definition dict_row (fieldnames row : list string) : record :=
  fill_restval (skipn (List.length row) fieldnames) (zip_fields fieldnames row []).

Definition is_blank (row : list string) : bool :=
  match row with [] => true | _ => false end.

Definition DictReader (rows : list (list string)) : list record :=
  match rows with
  | [] => []
  | fieldnames :: rest =>
      map (dict_row fieldnames) (filter (fun r => negb (is_blank r)) rest)
  end.

(** [x.strip] and the like on a value that may be [None]. *)
Definition as_str (v : option string) : result string :=
  match v with
  | Some s => Ok s
  | None => Raise AttributeError
  end.

(** *** Diagnostics printed inside the row loops *)

Inductive diag : Type :=
| IgnoredRow (row : list string)
| ConvertWarning (sjr_value title : string).

End Py.

Import Py.

(** ** extract_abs.py *)

Module Abs.

(** The value [{'abs': rank}]. *)
Record entry : Set := { abs : string }.

(** The body of [for row in reader]. *)
Definition row_body (row : list string) (abs_dict : dict entry)
  : result (dict entry) :=
  c1 <- index row 1 ;;
  let title := lower (strip c1) in
  c2 <- index row 2 ;;
  let rank := strip c2 in
  Ok (dict_set title {| abs := rank |} abs_dict).

(** [extract_abs_rankings(csv_file_path)]: the returned [abs_dict]. *)
Definition extract_abs_rankings (file : option (list (list string)))
  : result (dict entry) :=
  match file with
  | None => Raise FileNotFoundError
  | Some reader =>
      match reader with
      | [] => Raise StopIteration
      | header :: rows => for_each row_body rows []
      end
  end.

(** What [json.dump(abs_dict, f, indent=2, ensure_ascii=False)] writes
    to [abs_rankings.json]. *)
Definition json_dump (abs_dict : dict entry) : string :=
  json_object 0
    (map (fun kv => (fst kv, json_object 1 [("abs", json_string (abs (snd kv)))]))
       abs_dict).

(** One line of [abs_rankings.js]. *)
Definition js_line (title : string) (data : entry) (comma : string) : string :=
  "    " ++ dq ++ title ++ dq ++ ": {abs: " ++ dq ++ abs data ++ dq ++ "}"
  ++ comma ++ nl.

Definition comma_at (i len : nat) : string :=
  if (Z.of_nat i <? Z.of_nat len - 1)%Z then "," else "".

(** [generate_javascript_dict(abs_dict)]: what is written to
    [abs_rankings.js]. *)
Definition generate_javascript_dict (abs_dict : dict entry) : string :=
  "var abs_rankings = {" ++ nl
  ++ concat ""
       (map (fun ix => js_line (fst (snd ix)) (snd (snd ix))
                         (comma_at (fst ix) (List.length abs_dict)))
          (enumerate (sorted abs_dict)))
  ++ "};" ++ nl.

End Abs.

(** ** extract_full_core.py *)

Module Core.

Definition state : Type := dict string * list diag.

(** The body of [for row in reader]. *)
Definition row_body (row : list string) (st : state) : result state :=
  let (core_rankings, out) := st in
  if (List.length row <? 9)%nat then Ok (core_rankings, (out ++ [IgnoredRow row])%list)
  else
    c1 <- index row 1 ;;
    let conference_name := strip c1 in
    c4 <- index row 4 ;;
    let rank_2023 := strip c4 in
    c5 <- index row 5 ;;
    let rank_2021 := strip c5 in
    if negb (truthy conference_name) then Ok st
    else
      let primary_rank := if truthy rank_2023 then rank_2023 else rank_2021 in
      if in_list primary_rank ["A*"; "A"; "B"; "C"] then
        let edition := if truthy rank_2023 then "2023" else "2021" in
        Ok (dict_set conference_name (primary_rank ++ " [" ++ edition ++ "]")
              core_rankings, out)
      else if startswith primary_rank "Australasian" then
        Ok (dict_set conference_name (replace "Australasian" "Au" primary_rank)
              core_rankings, out)
      else if startswith primary_rank "National" then
        Ok (dict_set conference_name (replace "National" "Nat" primary_rank)
              core_rankings, out)
      else if primary_rank =? "TBR" then
        Ok (dict_set conference_name "TBR" core_rankings, out)
      else Ok st.

(** [rank.split()[0]]: the first run of characters that are not
    whitespace. *)
Fixpoint take_word (s : string) : string :=
  match s with
  | EmptyString => EmptyString
  | String c s' => if isspace c then EmptyString else String c (take_word s')
  end.

Definition split_first (s : string) : result string :=
  match lstrip_by isspace s with
  | EmptyString => Raise IndexError
  | w => Ok (take_word w)
  end.

(** The loop that counts the entries per rank. *)
Definition count_body (rank : string) (rank_counts : dict nat)
  : result (dict nat) :=
  base_rank <- split_first rank ;;
  let n := match dict_get base_rank rank_counts with Some n => n | None => 0 end in
  Ok (dict_set base_rank (n + 1) rank_counts).

(** [extract_full_core_rankings()]: the returned [core_rankings] and the
    diagnostics of the row loop. *)
Definition extract_full_core_rankings (file : option (list (list string)))
  : result state :=
  match file with
  | None => Raise FileNotFoundError
  | Some reader =>
      st <- for_each row_body reader ([], []) ;;
      _ <- for_each count_body (map snd (fst st)) [] ;;
      Ok st
  end.

(** What [json.dump(core_rankings, f, indent=2, ensure_ascii=False)]
    writes to [core_rankings.json]. *)
Definition json_dump (core_rankings : dict string) : string :=
  json_object 0 (map (fun kv => (fst kv, json_string (snd kv))) core_rankings).

(** What is written to [core_rankings.js]. *)
Definition javascript (core_rankings : dict string) : string :=
  "var coreRankings = " ++ json_dump core_rankings ++ ";" ++ nl.

(** The counting loop of [extract_full_core_rankings] on its own: the
    value of [rank_counts] behind the loop. *)
Definition rank_counts (core_rankings : dict string) : result (dict nat) :=
  for_each count_body (map snd core_rankings) [].

(** The forms of a rank that the row loop writes. *)
Inductive rank_form : string -> Prop :=
| form_tier (t edition : string) :
    In t ["A*"; "A"; "B"; "C"] -> In edition ["2023"; "2021"] ->
    rank_form (t ++ " [" ++ edition ++ "]")
| form_australasian (rest : string) : rank_form ("Au" ++ rest)
| form_national (rest : string) : rank_form ("Nat" ++ rest)
| form_tbr : rank_form "TBR".

(** The script behind the extraction: the examples shown per category.
    [categories] is the dictionary of empty lists it starts from. *)
Definition categories : dict (list (string * string)) :=
  [("A*", []); ("A", []); ("B", []); ("C", []); ("Au", []); ("Nat", []);
   ("TBR", [])].

(** The body of [for conf, rank in rankings.items()]. *)
Definition example_body (item : string * string)
           (categories : dict (list (string * string)))
  : result (dict (list (string * string))) :=
  let (conf, rank) := item in
  base_rank <- split_first rank ;;
  match dict_get base_rank categories with
  | Some examples =>
      if (List.length examples <? 3)%nat
      then Ok (dict_set base_rank (examples ++ [(conf, rank)])%list categories)
      else Ok categories
  | None => Ok categories
  end.

Definition examples (rankings : dict string)
  : result (dict (list (string * string))) :=
  for_each example_body rankings categories.

End Core.

(** ** extract_sjr.py *)

Module Sjr.

(** The value [{'sjr': sjr_float, 'quartile': quartile}]. *)
Record entry : Set := { sjr : pyfloat; quartile : string }.

Definition state : Type := dict entry * list diag.

(** The body of [for row in reader]. *)
Definition row_body (row : record) (st : state) : result state :=
  let (sjr_dict, out) := st in
  f1 <- getitem row "Title" ;;
  s1 <- as_str f1 ;;
  let title := lower (strip (strip_chars dq s1)) in
  f2 <- getitem row "SJR" ;;
  s2 <- as_str f2 ;;
  let sjr_value := strip s2 in
  f3 <- getitem row "SJR Best Quartile" ;;
  s3 <- as_str f3 ;;
  let quartile := strip s3 in
  match float (replace "," "." sjr_value) with
  | Ok sjr_float =>
      Ok (dict_set title
            {| sjr := sjr_float;
               quartile := if truthy quartile then quartile else "-" |}
            sjr_dict, out)
  | Raise ValueError => Ok (sjr_dict, (out ++ [ConvertWarning sjr_value title])%list)
  | Raise e => Raise e
  end.

(** [extract_sjr_rankings(csv_file_path)]: the returned [sjr_dict] and
    the diagnostics of the row loop. *)
Definition extract_sjr_rankings (file : option (list (list string)))
  : result state :=
  match file with
  | None => Raise FileNotFoundError
  | Some rows => for_each row_body (DictReader rows) ([], [])
  end.

Section Serializers.

(** How a float is written, which the Python runtime decides:
    [float_str] by [str()] in a formatted string literal, [float_json]
    by [json.dump]. *)
Variable float_str : pyfloat -> string.
Variable float_json : pyfloat -> string.

(** What [json.dump(sjr_dict, f, indent=2, ensure_ascii=False)] writes
    to [sjr_rankings.json]. *)
Definition json_dump (sjr_dict : dict entry) : string :=
  json_object 0
    (map (fun kv =>
            (fst kv,
             json_object 1 [("sjr", float_json (sjr (snd kv)));
                            ("quartile", json_string (quartile (snd kv)))]))
       sjr_dict).

(** One line of [sjr_rankings.js]. *)
Definition js_line (title : string) (data : entry) (comma : string) : string :=
  "    " ++ dq ++ title ++ dq ++ ": {sjr: " ++ float_str (sjr data)
  ++ ", quartile: " ++ dq ++ quartile data ++ dq ++ "}" ++ comma ++ nl.

Definition comma_at (i len : nat) : string :=
  if (Z.of_nat i <? Z.of_nat len - 1)%Z then "," else "".

(** [generate_javascript_dict(sjr_dict)]: what is written to
    [sjr_rankings.js]. *)
Definition generate_javascript_dict (sjr_dict : dict entry) : string :=
  "var sjr_rankings = {" ++ nl
  ++ concat ""
       (map (fun ix => js_line (fst (snd ix)) (snd (snd ix))
                         (comma_at (fst ix) (List.length sjr_dict)))
          (enumerate (sorted sjr_dict)))
  ++ "};" ++ nl.

End Serializers.

End Sjr.

(** * Properties *)

(** ** Strings and their order *)

Section StringOrder.

Lemma ascii_compare_refl (a : ascii) : Ascii.compare a a = Eq.
Proof. unfold Ascii.compare. apply N.compare_refl. Qed.

Lemma ascii_compare_lt_trans (a b c : ascii) :
  Ascii.compare a b = Lt -> Ascii.compare b c = Lt -> Ascii.compare a c = Lt.
Proof.
  unfold Ascii.compare. rewrite !N.compare_lt_iff. apply N.lt_trans.
Qed.

Lemma string_compare_lt_trans (s1 : string) :
  forall s2 s3,
    String.compare s1 s2 = Lt -> String.compare s2 s3 = Lt ->
    String.compare s1 s3 = Lt.
Proof.
  induction s1 as [|a s1 IH]; intros [|b s2] [|c s3]; simpl; try congruence.
  destruct (Ascii.compare a b) eqn:Hab; try discriminate.
  - apply Ascii.compare_eq_iff in Hab. subst b.
    destruct (Ascii.compare a c); try congruence. apply IH.
  - intros _. destruct (Ascii.compare b c) eqn:Hbc; try discriminate.
    + apply Ascii.compare_eq_iff in Hbc. subst c. now rewrite Hab.
    + intros _. now rewrite (ascii_compare_lt_trans a b c Hab Hbc).
Qed.

Lemma string_leb_lt (s1 s2 : string) :
  (s1 <=? s2) = true <-> s1 = s2 \/ String.compare s1 s2 = Lt.
Proof.
  unfold String.leb. split.
  - destruct (String.compare s1 s2) eqn:H; try discriminate; intros _.
    + left. now apply String.compare_eq_iff.
    + now right.
  - intros [-> | ->]; [|reflexivity].
    assert (H : String.compare s2 s2 = Eq).
    { induction s2 as [|a s IH]; simpl; [reflexivity|].
      now rewrite ascii_compare_refl. }
    now rewrite H.
Qed.

Lemma string_leb_trans (s1 s2 s3 : string) :
  (s1 <=? s2) = true -> (s2 <=? s3) = true -> (s1 <=? s3) = true.
Proof.
  rewrite !string_leb_lt.
  intros [-> | H12] [-> | H23]; auto.
  right. eapply string_compare_lt_trans; eauto.
Qed.

Lemma string_leb_false (s1 s2 : string) :
  (s1 <=? s2) = false -> (s2 <=? s1) = true.
Proof.
  intros H. destruct (String.leb_total s1 s2) as [H' | H']; congruence.
Qed.

Lemma append_nil_r (s : string) : s ++ "" = s.
Proof. induction s; simpl; congruence. Qed.

Lemma append_assoc (a b c : string) : (a ++ b) ++ c = a ++ (b ++ c).
Proof. induction a; simpl; congruence. Qed.

Lemma prefix_nil (s : string) : prefix "" s = true.
Proof. now destruct s. Qed.

Lemma prefix_split (p : string) :
  forall s, prefix p s = true -> exists rest, s = p ++ rest.
Proof.
  induction p as [|a p IH]; intros s H.
  - now exists s.
  - destruct s as [|b s]; simpl in H; [discriminate|].
    destruct (ascii_dec a b) as [->|]; [|discriminate].
    destruct (IH _ H) as [rest ->]. now exists rest.
Qed.

Lemma concat_cons (x : string) (xs : list string) :
  concat "" (x :: xs) = x ++ concat "" xs.
Proof. destruct xs; simpl; [now rewrite append_nil_r | reflexivity]. Qed.

Lemma concat_app (xs ys : list string) :
  concat "" (xs ++ ys) = concat "" xs ++ concat "" ys.
Proof.
  induction xs as [|x xs IH]; [reflexivity|].
  rewrite <- app_comm_cons, !concat_cons, IH. now rewrite append_assoc.
Qed.

End StringOrder.

(** ** [sorted] *)

Section Sorted.

Context {V : Type}.

Lemma insert_item_perm (x : string * V) (l : list (string * V)) :
  Permutation (x :: l) (insert_item x l).
Proof.
  induction l as [|y l IH]; simpl; [reflexivity|].
  destruct (fst x <=? fst y); [reflexivity|].
  rewrite perm_swap. now constructor.
Qed.

Lemma sorted_perm (l : list (string * V)) : Permutation l (sorted l).
Proof.
  induction l as [|x l IH]; simpl; [constructor|].
  rewrite <- insert_item_perm. now constructor.
Qed.

Lemma insert_item_sorted (x : string * V) (l : list (string * V)) :
  StronglySorted key_le l -> StronglySorted key_le (insert_item x l).
Proof.
  induction l as [|y l IH]; simpl; intros Hs.
  - repeat constructor.
  - inversion_clear Hs as [|? ? Hl Hy].
    destruct (fst x <=? fst y) eqn:Hxy.
    + constructor; [now constructor|].
      constructor; [exact Hxy|].
      eapply Forall_impl; [|exact Hy].
      intros z Hz. unfold key_le in *. eapply string_leb_trans; eauto.
    + constructor; [auto|].
      eapply Permutation_Forall; [apply insert_item_perm|].
      constructor; [|exact Hy].
      now apply string_leb_false.
Qed.

Lemma sorted_sorted (l : list (string * V)) : StronglySorted key_le (sorted l).
Proof.
  induction l as [|x l IH]; simpl; [constructor|].
  now apply insert_item_sorted.
Qed.

Lemma sorted_length (l : list (string * V)) :
  List.length (sorted l) = List.length l.
Proof. symmetry. apply Permutation_length, sorted_perm. Qed.

Lemma insert_item_comm (x y : string * V) (l : list (string * V)) :
  fst x <> fst y ->
  insert_item x (insert_item y l) = insert_item y (insert_item x l).
Proof.
  intros Hne. induction l as [|z l IH]; simpl.
  - destruct (fst x <=? fst y) eqn:Hxy, (fst y <=? fst x) eqn:Hyx;
      try reflexivity.
    + exfalso. apply Hne. now apply String.leb_antisym.
    + apply string_leb_false in Hxy. congruence.
  - destruct (fst y <=? fst z) eqn:Hyz, (fst x <=? fst z) eqn:Hxz; simpl;
      rewrite ?Hyz, ?Hxz.
    + destruct (fst x <=? fst y) eqn:Hxy, (fst y <=? fst x) eqn:Hyx;
        try reflexivity.
      * exfalso. apply Hne. now apply String.leb_antisym.
      * apply string_leb_false in Hxy. congruence.
    + destruct (fst x <=? fst y) eqn:Hxy; [|reflexivity].
      rewrite (string_leb_trans _ _ _ Hxy Hyz) in Hxz. discriminate.
    + destruct (fst y <=? fst x) eqn:Hyx; [|reflexivity].
      rewrite (string_leb_trans _ _ _ Hyx Hxz) in Hyz. discriminate.
    + now rewrite IH.
Qed.

Lemma sorted_order_independent (l l' : list (string * V)) :
  Permutation l l' -> NoDup (keys l) -> sorted l = sorted l'.
Proof.
  unfold keys. induction 1 as [|x l l' HP IH|x y l|l l' l'' HP1 IH1 HP2 IH2];
    intros Hnd; simpl in *.
  - reflexivity.
  - inversion_clear Hnd. now rewrite IH.
  - apply insert_item_comm.
    inversion_clear Hnd as [|? ? Hin _]. intros E. apply Hin. now left.
  - rewrite IH1 by assumption. apply IH2.
    eapply Permutation_NoDup; [|exact Hnd]. now apply Permutation_map.
Qed.

End Sorted.

(** ** The script files *)

Section Lines.

Context {A : Type}.
Variable line : A -> string -> string.
Variable comma : nat -> string.

(** The lines of a hand-written object literal: every entry but the
    last is followed by a comma. *)
Lemma lines_last (es : list A) (e : A) :
  forall i,
    (forall j, j < i + List.length es -> comma j = ",") ->
    comma (i + List.length es) = "" ->
    concat "" (map (fun ix => line (snd ix) (comma (fst ix)))
                 (enumerate_from i (es ++ [e])))
    = concat "" (map (fun x => line x ",") es) ++ line e "".
Proof.
  induction es as [|x es IH]; intros i Hlt Hlast;
    cbn [app enumerate_from map fst snd List.length] in *.
  - rewrite Nat.add_0_r in Hlast. now rewrite Hlast.
  - rewrite !concat_cons, append_assoc.
    rewrite Hlt by lia. f_equal.
    apply IH.
    + intros j Hj. apply Hlt. lia.
    + rewrite <- Hlast. f_equal. lia.
Qed.

End Lines.

Lemma comma_at_spec (cm : nat -> nat -> string) (n : nat) :
  (forall i len, cm i len = if (Z.of_nat i <? Z.of_nat len - 1)%Z then "," else "") ->
  (forall j, j < 0 + n -> cm j (n + 1) = ",") /\ cm (0 + n) (n + 1) = "".
Proof.
  intros H. split.
  - intros j Hj. rewrite H.
    destruct (Z.ltb_spec (Z.of_nat j) (Z.of_nat (n + 1) - 1)); [reflexivity|lia].
  - rewrite H.
    destruct (Z.ltb_spec (Z.of_nat (0 + n)) (Z.of_nat (n + 1) - 1)); [lia|reflexivity].
Qed.

Lemma abs_js_last (d : dict Abs.entry) (es : list (string * Abs.entry))
      (e : string * Abs.entry) :
  sorted d = (es ++ [e])%list ->
  Abs.generate_javascript_dict d
  = "var abs_rankings = {" ++ nl
    ++ (concat "" (map (fun x => Abs.js_line (fst x) (snd x) ",") es)
        ++ Abs.js_line (fst e) (snd e) "")
    ++ "};" ++ nl.
Proof.
  intros Hs. unfold Abs.generate_javascript_dict, enumerate.
  assert (Hlen : List.length d = List.length es + 1).
  { rewrite <- sorted_length, Hs, length_app. reflexivity. }
  rewrite Hs, Hlen.
  destruct (comma_at_spec Abs.comma_at (List.length es)) as [H1 H2];
    [reflexivity|].
  rewrite (lines_last (fun x c => Abs.js_line (fst x) (snd x) c)
             (fun i => Abs.comma_at i (List.length es + 1)) es e 0 H1 H2).
  reflexivity.
Qed.

Lemma sjr_js_last (fs : pyfloat -> string) (d : dict Sjr.entry)
      (es : list (string * Sjr.entry)) (e : string * Sjr.entry) :
  sorted d = (es ++ [e])%list ->
  Sjr.generate_javascript_dict fs d
  = "var sjr_rankings = {" ++ nl
    ++ (concat "" (map (fun x => Sjr.js_line fs (fst x) (snd x) ",") es)
        ++ Sjr.js_line fs (fst e) (snd e) "")
    ++ "};" ++ nl.
Proof.
  intros Hs. unfold Sjr.generate_javascript_dict, enumerate.
  assert (Hlen : List.length d = List.length es + 1).
  { rewrite <- sorted_length, Hs, length_app. reflexivity. }
  rewrite Hs, Hlen.
  destruct (comma_at_spec Sjr.comma_at (List.length es)) as [H1 H2];
    [reflexivity|].
  rewrite (lines_last (fun x c => Sjr.js_line fs (fst x) (snd x) c)
             (fun i => Sjr.comma_at i (List.length es + 1)) es e 0 H1 H2).
  reflexivity.
Qed.

Lemma concat_sep_last {A} (f : A -> string) (sep : string) (es : list A) (e : A) :
  concat sep (map f (es ++ [e]))
  = concat "" (map (fun x => f x ++ sep) es) ++ f e.
Proof.
  induction es as [|x es IH]; [reflexivity|].
  cbn [map app]. rewrite concat_cons, append_assoc, <- IH.
  destruct es; cbn [map app concat]; now rewrite ?append_assoc.
Qed.

Lemma json_object_last (depth : nat) (es : list (string * string))
      (e : string * string) :
  let member := fun kv => spaces (2 * S depth) ++ json_string (fst kv)
                          ++ ": " ++ snd kv in
  json_object depth (es ++ [e])
  = "{" ++ nl
    ++ (concat "" (map (fun x => member x ++ "," ++ nl) es) ++ member e)
    ++ nl ++ spaces (2 * depth) ++ "}".
Proof.
  intros member. unfold json_object.
  rewrite (concat_sep_last member).
  destruct es; reflexivity.
Qed.

(** ** Key order and trailing comma of the script files *)

Ltac nodup_strings :=
  repeat (constructor; [simpl; intuition discriminate|]); constructor.

(** C4, as amended.  The script files written by the ABS and the SJR
    serializer list the entries of a table by increasing key, whatever
    the insertion order of the table, and only the last entry has no
    comma after it.  The script file written by the CORE extractor lists
    the entries in the insertion order of the table, again with no comma
    after the last one. *)
Theorem script_entry_order :
  (forall d : dict Abs.entry,
      NoDup (keys d) ->
      StronglySorted key_le (sorted d) /\ Permutation d (sorted d)
      /\ (forall d', Permutation d d' ->
                     Abs.generate_javascript_dict d'
                     = Abs.generate_javascript_dict d)
      /\ (forall es e,
             sorted d = (es ++ [e])%list ->
             Abs.generate_javascript_dict d
             = "var abs_rankings = {" ++ nl
               ++ (concat "" (map (fun x => Abs.js_line (fst x) (snd x) ",") es)
                   ++ Abs.js_line (fst e) (snd e) "")
               ++ "};" ++ nl))
  /\ (forall (float_str : pyfloat -> string) (d : dict Sjr.entry),
         NoDup (keys d) ->
         StronglySorted key_le (sorted d) /\ Permutation d (sorted d)
         /\ (forall d', Permutation d d' ->
                        Sjr.generate_javascript_dict float_str d'
                        = Sjr.generate_javascript_dict float_str d)
         /\ (forall es e,
                sorted d = (es ++ [e])%list ->
                Sjr.generate_javascript_dict float_str d
                = "var sjr_rankings = {" ++ nl
                  ++ (concat ""
                        (map (fun x => Sjr.js_line float_str (fst x) (snd x) ",") es)
                      ++ Sjr.js_line float_str (fst e) (snd e) "")
                  ++ "};" ++ nl))
  /\ (forall (es : dict string) (e : string * string),
         let member := fun kv : string * string =>
                         "  " ++ json_string (fst kv) ++ ": "
                         ++ json_string (snd kv) in
         Core.javascript (es ++ [e])%list
         = "var coreRankings = " ++
           ("{" ++ nl
            ++ (concat "" (map (fun x => member x ++ "," ++ nl) es) ++ member e)
            ++ nl ++ "}") ++ ";" ++ nl).
Proof.
  split; [|split].
  - intros d Hnd. split; [apply sorted_sorted|].
    split; [apply sorted_perm|]. split.
    + intros d' HP. unfold Abs.generate_javascript_dict.
      now rewrite (sorted_order_independent d d' HP Hnd),
        (Permutation_length HP).
    + intros es e. apply abs_js_last.
  - intros fs d Hnd. split; [apply sorted_sorted|].
    split; [apply sorted_perm|]. split.
    + intros d' HP. unfold Sjr.generate_javascript_dict.
      now rewrite (sorted_order_independent d d' HP Hnd),
        (Permutation_length HP).
    + intros es e. apply sjr_js_last.
  - intros es e member. unfold Core.javascript, Core.json_dump.
    rewrite map_app. cbn [map].
    rewrite json_object_last. cbn [fst snd spaces Nat.mul Nat.add].
    rewrite map_map. reflexivity.
Qed.

(** The ABS part at a table of two entries inserted in decreasing key
    order: its script file is that of the table inserted in increasing
    order. *)
Lemma script_entry_order_witness :
  let d := [("zeta", {| Abs.abs := "3" |}); ("alpha", {| Abs.abs := "4*" |})] in
  NoDup (keys d)
  /\ Abs.generate_javascript_dict
       [("alpha", {| Abs.abs := "4*" |}); ("zeta", {| Abs.abs := "3" |})]
     = Abs.generate_javascript_dict d.
Proof.
  intros d.
  assert (Hnd : NoDup (keys d)) by (unfold d, keys; simpl; nodup_strings).
  split; [exact Hnd|].
  apply (proj1 (proj2 (proj2 (proj1 script_entry_order d Hnd)))).
  unfold d. apply perm_swap.
Defined.

(** C4, refuted as stated: a table that the CORE extractor builds from
    two rows, whose script file lists the key [Zeta] before the key
    [Alpha], as they were inserted, and so differs from the file that
    lists the same entries by increasing key. *)
Lemma core_script_keeps_insertion_order :
  let rows := [["1"; "Zeta"; "ZC"; "s"; "A"; ""; "x"; "y"; "z"];
               ["2"; "Alpha"; "AC"; "s"; "B"; ""; "x"; "y"; "z"]] in
  let d := [("Zeta", "A [2023]"); ("Alpha", "B [2023]")] in
  Core.extract_full_core_rankings (Some rows) = Ok (d, [])
  /\ Core.javascript d
     = "var coreRankings = {" ++ nl
       ++ "  " ++ dq ++ "Zeta" ++ dq ++ ": " ++ dq ++ "A [2023]" ++ dq ++ "," ++ nl
       ++ "  " ++ dq ++ "Alpha" ++ dq ++ ": " ++ dq ++ "B [2023]" ++ dq ++ nl
       ++ "};" ++ nl
  /\ sorted d = [("Alpha", "B [2023]"); ("Zeta", "A [2023]")]
  /\ Core.javascript d <> Core.javascript (sorted d).
Proof.
  repeat split; try reflexivity.
  apply String.eqb_neq. reflexivity.
Qed.

(** ** The two serialized views *)

(** C8, at inputs where the code departs from it.  The ABS script file
    copies titles and ranks between quotes without escaping them, while
    the JSON file escapes them.  First, a title holding a quote: the
    JSON file holds the escaped title, the script file a string that
    ends at that quote.  Second, two different tables (one entry, two
    entries) with the same script file, character for character, and
    different JSON files: no decoder of the script file can give back
    both. *)
Theorem abs_script_not_escaped :
  (let t := [("a" ++ dq ++ "b", {| Abs.abs := "1" |})] in
   Abs.extract_abs_rankings
     (Some [["id"; "Title"; "Rank"]; ["1"; "a" ++ dq ++ "b"; "1"]]) = Ok t
   /\ Abs.json_dump t
      = "{" ++ nl ++ "  " ++ dq ++ "a\" ++ dq ++ "b" ++ dq ++ ": {" ++ nl
        ++ "    " ++ dq ++ "abs" ++ dq ++ ": " ++ dq ++ "1" ++ dq ++ nl
        ++ "  }" ++ nl ++ "}"
   /\ Abs.generate_javascript_dict t
      = "var abs_rankings = {" ++ nl
        ++ "    " ++ dq ++ "a" ++ dq ++ "b" ++ dq ++ ": {abs: " ++ dq ++ "1" ++ dq
        ++ "}" ++ nl ++ "};" ++ nl)
  /\ (let rank := "1" ++ dq ++ "}," ++ nl ++ "    " ++ dq ++ "b" ++ dq
                  ++ ": {abs: " ++ dq ++ "2" in
      let t1 := [("a", {| Abs.abs := rank |})] in
      let t2 := [("a", {| Abs.abs := "1" |}); ("b", {| Abs.abs := "2" |})] in
      Abs.extract_abs_rankings
        (Some [["id"; "Title"; "Rank"]; ["1"; "a"; rank]]) = Ok t1
      /\ Abs.extract_abs_rankings
           (Some [["id"; "Title"; "Rank"]; ["1"; "a"; "1"]; ["2"; "b"; "2"]])
         = Ok t2
      /\ Abs.generate_javascript_dict t1 = Abs.generate_javascript_dict t2
      /\ Abs.json_dump t1 <> Abs.json_dump t2
      /\ keys t1 <> keys t2).
Proof.
  repeat split; try reflexivity.
  - apply String.eqb_neq. reflexivity.
  - discriminate.
Qed.

(** The CORE script file holds the JSON file word for word: its object
    literal is the JSON text. *)
Lemma core_script_is_json (d : dict string) :
  Core.javascript d = "var coreRankings = " ++ Core.json_dump d ++ ";" ++ nl.
Proof. reflexivity. Qed.

(** ** Dictionaries and loops *)

Section Dict.

Context {V : Type}.

Lemma dict_get_set_same (k : string) (v : V) (d : dict V) :
  dict_get k (dict_set k v d) = Some v.
Proof.
  induction d as [|[k' v'] d IH]; simpl.
  - now rewrite String.eqb_refl.
  - destruct (k' =? k) eqn:E; simpl; now rewrite E.
Qed.

Lemma dict_get_set_other (k k' : string) (v : V) (d : dict V) :
  k' <> k -> dict_get k' (dict_set k v d) = dict_get k' d.
Proof.
  intros Hne. induction d as [|[k0 v0] d IH]; simpl.
  - apply String.eqb_neq in Hne. rewrite String.eqb_sym. now rewrite Hne.
  - destruct (k0 =? k) eqn:E; simpl.
    + apply String.eqb_eq in E. subst k0.
      apply String.eqb_neq in Hne. rewrite String.eqb_sym. now rewrite Hne.
    + now rewrite IH.
Qed.

Lemma keys_dict_set (k : string) (v : V) (d : dict V) (k' : string) :
  In k' (keys (dict_set k v d)) <-> k' = k \/ In k' (keys d).
Proof.
  unfold keys. induction d as [|[k0 v0] d IH]; simpl.
  - intuition.
  - destruct (k0 =? k) eqn:E; simpl.
    + apply String.eqb_eq in E. subst k0. intuition.
    + rewrite IH. intuition.
Qed.

Lemma values_dict_set (k : string) (v : V) (d : dict V) (x : V) :
  In x (map snd (dict_set k v d)) -> x = v \/ In x (map snd d).
Proof.
  induction d as [|[k0 v0] d IH]; simpl.
  - intuition.
  - destruct (k0 =? k) eqn:E; simpl; intuition.
Qed.

Lemma dict_set_nodup (k : string) (v : V) (d : dict V) :
  NoDup (keys d) -> NoDup (keys (dict_set k v d)).
Proof.
  unfold keys. induction d as [|[k0 v0] d IH]; simpl; intros Hnd.
  - constructor; [intros []|constructor].
  - inversion_clear Hnd as [|? ? Hin Hd].
    destruct (k0 =? k) eqn:E; simpl.
    + now constructor.
    + constructor; [|auto].
      intros Hin'. apply (keys_dict_set k v d k0) in Hin'.
      destruct Hin' as [->|Hin']; [|contradiction].
      now rewrite String.eqb_refl in E.
Qed.

End Dict.

Section Loops.

Context {R S : Type}.
Variable body : R -> S -> result S.

Lemma for_each_app (xs ys : list R) :
  forall s s',
    for_each body (xs ++ ys) s = Ok s' ->
    exists s1, for_each body xs s = Ok s1 /\ for_each body ys s1 = Ok s'.
Proof.
  induction xs as [|x xs IH]; intros s s' H; simpl in *.
  - now exists s.
  - destruct (body x s) as [s1|e]; [|discriminate]. now apply IH.
Qed.

(** An invariant that every step that returns keeps holds of the state
    the loop returns. *)
Lemma for_each_invariant (P : S -> Prop) (xs : list R) :
  (forall x s s', In x xs -> P s -> body x s = Ok s' -> P s') ->
  forall s s', P s -> for_each body xs s = Ok s' -> P s'.
Proof.
  induction xs as [|x xs IH]; intros Hstep s s' Hs H; simpl in *.
  - now inversion H; subst.
  - destruct (body x s) as [s1|e] eqn:E; [|discriminate].
    apply (IH (fun y t t' Hy => Hstep y t t' (or_intror Hy)) s1 s'); auto.
    apply (Hstep x s s1); auto.
Qed.

(** A loop whose steps all return under an invariant returns. *)
Lemma for_each_total (P : S -> Prop) (xs : list R) :
  (forall x s, In x xs -> P s -> exists s', body x s = Ok s' /\ P s') ->
  forall s, P s -> exists s', for_each body xs s = Ok s' /\ P s'.
Proof.
  induction xs as [|x xs IH]; intros Hstep s Hs; simpl.
  - now exists s.
  - destruct (Hstep x s (or_introl eq_refl) Hs) as [s1 [-> Hs1]].
    apply IH; auto. intros y t Hy. apply Hstep. now right.
Qed.

End Loops.

(** The last row that writes a key decides its value. *)
Lemma last_store_wins {R S V : Type} (body : R -> S -> result S)
      (tbl : S -> dict V) (k : string) (v : V) (r : R) (post : list R) :
  (forall s s', body r s = Ok s' -> tbl s' = dict_set k v (tbl s)) ->
  (forall x s s', In x post -> body x s = Ok s' ->
                  dict_get k (tbl s') = dict_get k (tbl s)) ->
  forall pre s s',
    for_each body (pre ++ r :: post) s = Ok s' ->
    dict_get k (tbl s') = Some v.
Proof.
  intros Hr Hpost pre s s' H.
  apply for_each_app in H. destruct H as [s1 [_ H]]. simpl in H.
  destruct (body r s1) as [s2|e] eqn:E; [|discriminate].
  apply Hr in E.
  apply (for_each_invariant body (fun t => dict_get k (tbl t) = Some v) post)
    with (s := s2); auto.
  - intros x t t' Hx Ht Hb. now rewrite (Hpost x t t' Hx Hb).
  - rewrite E. apply dict_get_set_same.
Qed.

(** ** [replace] *)

Lemma prefix_app_self (p rest : string) : prefix p (p ++ rest) = true.
Proof.
  induction p as [|a p IH]; simpl; [apply prefix_nil|].
  destruct (ascii_dec a a); [exact IH|congruence].
Qed.

Lemma replace_from_skip (old new x rest : string) :
  replace_from old new (length x) (x ++ rest) = replace_from old new 0 rest.
Proof. induction x as [|c x IH]; simpl; auto. Qed.

(** An occurrence at the front is rewritten, and the search goes on
    behind it. *)
Lemma replace_prefix (a : ascii) (old' new rest : string) :
  replace (String a old') new (String a old' ++ rest)
  = new ++ replace (String a old') new rest.
Proof.
  unfold replace. cbn [append replace_from].
  change (String a (old' ++ rest)) with (String a old' ++ rest).
  rewrite prefix_app_self. f_equal.
  replace (length (String a old') - 1) with (length old')
    by (cbn [length]; lia).
  apply replace_from_skip.
Qed.

(** Without an occurrence nothing changes. *)
Lemma replace_absent (a : ascii) (old' new s : string) :
  (forall x y, s <> x ++ String a old' ++ y) ->
  replace (String a old') new s = s.
Proof.
  unfold replace. induction s as [|c s IH]; intros Hno; [reflexivity|].
  cbn [replace_from].
  destruct (prefix (String a old') (String c s)) eqn:E.
  - apply prefix_split in E. destruct E as [y E].
    exfalso. apply (Hno "" y). exact E.
  - f_equal. apply IH. intros x y E'. apply (Hno (String c x) y).
    simpl. now rewrite E'.
Qed.

(** Replacing one character by another is a character-wise map. *)
Lemma replace_char (a b : ascii) (s : string) :
  replace (String a "") (String b "") s
  = string_of_list_ascii
      (map (fun c => if (c =? a)%char then b else c) (list_ascii_of_string s)).
Proof.
  unfold replace. induction s as [|c s IH]; [reflexivity|].
  cbn [replace_from list_ascii_of_string map string_of_list_ascii prefix].
  destruct (ascii_dec a c) as [->|Hne].
  - rewrite prefix_nil, Ascii.eqb_refl. cbn. now rewrite IH.
  - destruct (Ascii.eqb_spec c a) as [->|_]; [congruence|]. now rewrite IH.
Qed.

(** ** The row bodies, case by case *)

Lemma truthy_false (s : string) : truthy s = false <-> s = "".
Proof.
  unfold truthy. destruct (String.eqb_spec s ""); simpl; intuition congruence.
Qed.

Lemma truthy_true (s : string) : truthy s = true <-> s <> "".
Proof.
  unfold truthy. destruct (String.eqb_spec s ""); simpl; intuition congruence.
Qed.

Lemma in_list_tiers (p : string) :
  in_list p ["A*"; "A"; "B"; "C"] = true <-> In p ["A*"; "A"; "B"; "C"].
Proof.
  unfold in_list. rewrite existsb_exists. split.
  - intros [x [Hx E]]. apply String.eqb_eq in E. now subst.
  - intros H. exists p. split; [exact H|apply String.eqb_refl].
Qed.

Lemma abs_row_cases (row : list string) :
  (forall d, Abs.row_body row d = Raise IndexError)
  \/ (exists title rank,
         nth_error row 1 = Some title /\ nth_error row 2 = Some rank
         /\ forall d, Abs.row_body row d
                      = Ok (dict_set (lower (strip title))
                              {| Abs.abs := strip rank |} d)).
Proof.
  unfold Abs.row_body, index, bind.
  destruct (nth_error row 1) as [t|]; [|now left].
  destruct (nth_error row 2) as [r|]; [|now left].
  right. now exists t, r.
Qed.

Lemma core_row_short (row : list string) (d : dict string) (out : list diag) :
  List.length row < 9 ->
  Core.row_body row (d, out) = Ok (d, (out ++ [IgnoredRow row])%list).
Proof.
  intros H. unfold Core.row_body.
  destruct (Nat.ltb_spec (List.length row) 9); [reflexivity|lia].
Qed.

Lemma core_row_columns (row : list string) :
  9 <= List.length row ->
  exists c1 c4 c5,
    nth_error row 1 = Some c1 /\ nth_error row 4 = Some c4
    /\ nth_error row 5 = Some c5.
Proof.
  intros H.
  destruct (nth_error row 1) as [c1|] eqn:E1;
    [|apply nth_error_None in E1; lia].
  destruct (nth_error row 4) as [c4|] eqn:E4;
    [|apply nth_error_None in E4; lia].
  destruct (nth_error row 5) as [c5|] eqn:E5;
    [|apply nth_error_None in E5; lia].
  now exists c1, c4, c5.
Qed.

(** The body on a row of nine columns or more, with its three fields
    read. *)
Lemma core_row_resolved (row : list string) (c1 c4 c5 : string)
      (d : dict string) (out : list diag) :
  9 <= List.length row ->
  nth_error row 1 = Some c1 -> nth_error row 4 = Some c4 ->
  nth_error row 5 = Some c5 ->
  Core.row_body row (d, out)
  = if negb (truthy (strip c1)) then Ok (d, out)
    else
      let p := if truthy (strip c4) then strip c4 else strip c5 in
      if in_list p ["A*"; "A"; "B"; "C"] then
        Ok (dict_set (strip c1)
              (p ++ " [" ++ (if truthy (strip c4) then "2023" else "2021") ++ "]")
              d, out)
      else if startswith p "Australasian" then
        Ok (dict_set (strip c1) (replace "Australasian" "Au" p) d, out)
      else if startswith p "National" then
        Ok (dict_set (strip c1) (replace "National" "Nat" p) d, out)
      else if p =? "TBR" then Ok (dict_set (strip c1) "TBR" d, out)
      else Ok (d, out).
Proof.
  intros H H1 H4 H5. unfold Core.row_body, index, bind.
  destruct (Nat.ltb_spec (List.length row) 9); [lia|].
  now rewrite H1, H4, H5.
Qed.

(** What a CORE row does to the state: it is reported and ignored, or
    dropped without a word, or stored under its trimmed, non-empty title
    with a value that begins with a visible character. *)
Lemma core_row_cases (row : list string) :
  (List.length row < 9
   /\ forall d out, Core.row_body row (d, out)
                    = Ok (d, (out ++ [IgnoredRow row])%list))
  \/ (forall d out, Core.row_body row (d, out) = Ok (d, out))
  \/ (exists title v c r,
         nth_error row 1 = Some title /\ strip title <> ""
         /\ v = String c r /\ isspace c = false
         /\ forall d out, Core.row_body row (d, out)
                          = Ok (dict_set (strip title) v d, out)).
Proof.
  destruct (Nat.lt_ge_cases (List.length row) 9) as [Hlt|Hge].
  { left. split; [exact Hlt|]. intros. now apply core_row_short. }
  right.
  destruct (core_row_columns row Hge) as [c1 [c4 [c5 [H1 [H4 H5]]]]].
  pose proof (fun d out => core_row_resolved row c1 c4 c5 d out Hge H1 H4 H5)
    as Heq.
  destruct (truthy (strip c1)) eqn:Hname; cbn [negb] in Heq; [|now left].
  apply truthy_true in Hname.
  cbv zeta in Heq.
  set (p := if truthy (strip c4) then strip c4 else strip c5) in *.
  destruct (in_list p ["A*"; "A"; "B"; "C"]) eqn:Htier.
  { right. apply in_list_tiers in Htier.
    assert (Hp : exists c r, p = String c r /\ isspace c = false).
    { simpl in Htier.
      destruct Htier as [<-|[<-|[<-|[<-|[]]]]]; eexists; eexists;
        (split; [reflexivity|reflexivity]). }
    destruct Hp as [c [r [Hp Hc]]].
    exists c1, (p ++ " [" ++ (if truthy (strip c4) then "2023" else "2021") ++ "]").
    exists c. eexists. repeat split; eauto.
    rewrite Hp. reflexivity. }
  destruct (startswith p "Australasian") eqn:Hau.
  { right. apply prefix_split in Hau. destruct Hau as [rest Hau].
    exists c1, (replace "Australasian" "Au" p). do 2 eexists.
    split; [exact H1|]. split; [exact Hname|].
    split; [rewrite Hau, replace_prefix; reflexivity|].
    split; [reflexivity|exact Heq]. }
  destruct (startswith p "National") eqn:Hnat.
  { right. apply prefix_split in Hnat. destruct Hnat as [rest Hnat].
    exists c1, (replace "National" "Nat" p). do 2 eexists.
    split; [exact H1|]. split; [exact Hname|].
    split; [rewrite Hnat, replace_prefix; reflexivity|].
    split; [reflexivity|exact Heq]. }
  destruct (p =? "TBR") eqn:Htbr.
  { right. exists c1, "TBR". do 2 eexists. repeat split; eauto. }
  now left.
Qed.

(** ** Failures local to a row *)

(** The CORE extractor returns on every file it can open, whatever the
    rows: short rows are reported and skipped, and the counting loop
    finds a first word in every stored rank.  No key of its table is
    empty. *)
Lemma core_extract_returns (rows : list (list string)) :
  exists st,
    Core.extract_full_core_rankings (Some rows) = Ok st
    /\ forall k, In k (keys (fst st)) -> k <> "".
Proof.
  unfold Core.extract_full_core_rankings.
  pose (P := fun st : Core.state =>
               (forall v, In v (map snd (fst st)) ->
                          exists c r, v = String c r /\ isspace c = false)
               /\ (forall k, In k (keys (fst st)) -> k <> "")).
  destruct (for_each_total Core.row_body P rows) with (s := (@nil (string * string), @nil diag))
    as [st [Hst [Hvis Hkeys]]].
  - intros row [d out] _ [Hv Hk].
    destruct (core_row_cases row) as [[_ H]|[H|H]].
    + rewrite H. eexists. split; [reflexivity|]. now split.
    + rewrite H. eexists. split; [reflexivity|]. now split.
    + destruct H as [title [v [c [r [_ [Hne [Hvc [Hc H]]]]]]]].
      rewrite H. eexists. split; [reflexivity|]. split; cbn [fst].
      * intros x Hx. apply values_dict_set in Hx.
        destruct Hx as [->|Hx]; [now exists c, r|now apply Hv].
      * intros k Hin. apply keys_dict_set in Hin.
        destruct Hin as [->|Hin]; [exact Hne|now apply Hk].
  - split; intros ? [].
  - rewrite Hst. cbn [bind].
    destruct (for_each_total Core.count_body (fun _ => True) (map snd (fst st)))
      with (s := @nil (string * nat)) as [cnt [Hcnt _]].
    + intros v cnts Hin _. destruct (Hvis v Hin) as [c [r [-> Hc]]].
      unfold Core.count_body, Core.split_first. cbn [lstrip_by].
      rewrite Hc. cbn [bind]. eexists. now split.
    + exact I.
    + rewrite Hcnt. exists st. now split.
Qed.

(** C1, at inputs where the code departs from it.  In the ABS extractor
    an empty row, which [csv.reader] yields for a blank line, and a row
    of two fields raise [IndexError] out of the extraction; in the SJR
    extractor a row that ends before the SJR column raises
    [AttributeError]: the fields that [csv.DictReader] fills with [None]
    are stripped outside the [try] block.  The rows behind the failing
    one are not processed. *)
Theorem row_failure_escapes :
  Abs.extract_abs_rankings
    (Some [["id"; "Title"; "Rank"]; ["1"; "Journal A"; "4*"]; [];
           ["2"; "Journal B"; "3"]])
  = Raise IndexError
  /\ Abs.extract_abs_rankings
       (Some [["id"; "Title"; "Rank"]; ["1"; "Journal A"];
              ["2"; "Journal B"; "3"]])
     = Raise IndexError
  /\ Sjr.extract_sjr_rankings
       (Some [["Rank"; "Title"; "SJR"; "SJR Best Quartile"];
              ["1"; "Journal A"]; ["2"; "Journal B"; "0,5"; "Q1"]])
     = Raise AttributeError.
Proof. repeat split. Qed.

(** The hard abort of the three extractors when the file cannot be
    opened. *)
Lemma missing_file_aborts :
  Abs.extract_abs_rankings None = Raise FileNotFoundError
  /\ Core.extract_full_core_rankings None = Raise FileNotFoundError
  /\ Sjr.extract_sjr_rankings None = Raise FileNotFoundError.
Proof. repeat split. Qed.

(** ** Empty titles *)

(** C3, at inputs where the code departs from it.  The ABS and the SJR
    extractor store a row whose title is empty, or blank, under the
    empty key.  (The CORE extractor does drop such rows, see
    [core_extract_returns].) *)
Theorem empty_title_is_stored :
  Abs.extract_abs_rankings
    (Some [["id"; "Title"; "Rank"]; ["7"; "  "; "3"]])
  = Ok [("", {| Abs.abs := "3" |})]
  /\ Sjr.extract_sjr_rankings
       (Some [["Rank"; "Title"; "SJR"; "SJR Best Quartile"];
              ["7"; ""; "0,5"; "Q1"]])
     = Ok ([("", {| Sjr.sjr := FDec false 5 (-1); Sjr.quartile := "Q1" |})], []).
Proof. split; reflexivity. Qed.

(** ** [float]: a literal holds one dot at most *)

Ltac each_char c := destruct c as [[] [] [] [] [] [] [] []].

Lemma lower_char_dot (c : ascii) :
  (lower_char c =? ".")%char = (c =? ".")%char.
Proof. each_char c; reflexivity. Qed.

Lemma digit_not_dot (c : ascii) :
  is_digit c = true -> (c =? ".")%char = false.
Proof. each_char c; intros H; try reflexivity; discriminate H. Qed.

Lemma space_not_dot (c : ascii) :
  isspace c = true -> (c =? ".")%char = false.
Proof. each_char c; intros H; try reflexivity; discriminate H. Qed.

Lemma count_lower_dot (s : string) :
  count_char "." (lower s) = count_char "." s.
Proof.
  induction s as [|c s IH]; simpl; [reflexivity|].
  now rewrite lower_char_dot, IH.
Qed.

Section Strip.

Variable p : ascii -> bool.
Variable x : ascii.
Hypothesis p_not_x : forall c, p c = true -> (c =? x)%char = false.

Lemma count_lstrip_by (s : string) :
  count_char x (lstrip_by p s) = count_char x s.
Proof.
  induction s as [|c s IH]; simpl; [reflexivity|].
  destruct (p c) eqn:E; [|reflexivity].
  now rewrite IH, (p_not_x c E).
Qed.

Lemma count_rstrip_by (s : string) :
  count_char x (rstrip_by p s) = count_char x s.
Proof.
  induction s as [|c s IH]; simpl; [reflexivity|].
  destruct (rstrip_by p s) as [|c' t] eqn:E.
  - rewrite <- IH. destruct (p c) eqn:Ec; simpl.
    + now rewrite (p_not_x c Ec).
    + lia.
  - rewrite <- IH. reflexivity.
Qed.

Lemma count_strip_by (s : string) :
  count_char x (strip_by p s) = count_char x s.
Proof. unfold strip_by. now rewrite count_rstrip_by, count_lstrip_by. Qed.

End Strip.

Lemma parse_sign_dots (s : string) :
  count_char "." (snd (parse_sign s)) = count_char "." s.
Proof.
  destruct s as [|c r]; [reflexivity|].
  unfold parse_sign.
  each_char c; reflexivity.
Qed.

Lemma digits_tail_dots (n : nat) :
  forall s, length s <= n ->
  forall acc cnt,
    count_char "." (snd (digits_tail acc cnt s)) = count_char "." s.
Proof.
  induction n as [|n IH]; intros s Hn acc cnt.
  - destruct s; [reflexivity|simpl in Hn; lia].
  - destruct s as [|c s]; [reflexivity|]. simpl in Hn.
    cbn [digits_tail].
    destruct (is_digit c) eqn:Ec.
    + rewrite IH by lia. cbn [count_char]. now rewrite (digit_not_dot c Ec).
    + destruct (c =? "_")%char eqn:Eu; [|reflexivity].
      destruct s as [|d s]; [reflexivity|]. simpl in Hn.
      destruct (is_digit d) eqn:Ed; [|reflexivity].
      rewrite IH by lia. cbn [count_char].
      rewrite (digit_not_dot d Ed).
      apply Ascii.eqb_eq in Eu. subst c. reflexivity.
Qed.

Lemma digitpart_dots (acc : N) (s : string) (v : N) (k : nat) (r : string) :
  digitpart acc s = Some (v, k, r) -> count_char "." r = count_char "." s.
Proof.
  unfold digitpart. destruct s as [|c s]; [discriminate|].
  destruct (is_digit c) eqn:Ec; [|discriminate].
  generalize (10 * acc + digit_val c)%N. intros a0 H. injection H as H.
  pose proof (digits_tail_dots (length s) s (le_n _) a0 1) as Hd.
  rewrite H in Hd. cbn [snd] in Hd. rewrite Hd.
  cbn [count_char]. now rewrite (digit_not_dot c Ec).
Qed.

Lemma parse_exponent_dots (s : string) (e : Z) :
  parse_exponent s = Some e -> count_char "." s = 0.
Proof.
  unfold parse_exponent. destruct s as [|c r]; [reflexivity|].
  destruct ((c =? "e") || (c =? "E"))%char eqn:Ec; [|discriminate].
  pose proof (parse_sign_dots r) as Hs.
  destruct (parse_sign r) as [neg r1]. cbn [snd] in Hs.
  destruct (digitpart 0 r1) as [[[v k] r2]|] eqn:Ed; [|discriminate].
  destruct r2; [|discriminate]. intros _.
  apply digitpart_dots in Ed. cbn [count_char] in *.
  rewrite <- Hs, <- Ed.
  destruct (Ascii.eqb_spec c "."); [subst c; discriminate Ec|reflexivity].
Qed.

Lemma finish_number_dots (m : N) (k : nat) (rest : string) (r : N * Z) :
  finish_number m k rest = Some r -> count_char "." rest = 0.
Proof.
  unfold finish_number.
  destruct (parse_exponent rest) eqn:E; [|discriminate].
  intros _. eapply parse_exponent_dots; eauto.
Qed.

Lemma parse_floatnumber_dots (s : string) (r : N * Z) :
  parse_floatnumber s = Some r -> count_char "." s <= 1.
Proof.
  unfold parse_floatnumber.
  destruct (digitpart 0 s) as [[[i k] r1]|] eqn:E1.
  - apply digitpart_dots in E1. rewrite <- E1.
    destruct r1 as [|c r1].
    + intros _. simpl. lia.
    + destruct (Ascii.eqb_spec c ".") as [->|Hc].
      * destruct (digitpart i r1) as [[[m k2] r2]|] eqn:E2.
        -- apply digitpart_dots in E2. intros H.
           apply finish_number_dots in H. cbn [count_char].
           rewrite <- E2, H. simpl. lia.
        -- intros H. apply finish_number_dots in H. cbn [count_char].
           rewrite H. simpl. lia.
      * intros H.
        assert (H' : finish_number i 0 (String c r1) = Some r).
        { revert H. each_char c; try exact (fun h => h). congruence. }
        apply finish_number_dots in H'. lia.
  - destruct s as [|c s]; [discriminate|].
    destruct (Ascii.eqb_spec c ".") as [->|Hc].
    + destruct (digitpart 0 s) as [[[m k2] r2]|] eqn:E2; [|discriminate].
      apply digitpart_dots in E2. intros H.
      apply finish_number_dots in H. cbn [count_char].
      rewrite <- E2, H. simpl. lia.
    + each_char c; try discriminate. congruence.
Qed.

(** [float] raises nothing but [ValueError]. *)
Lemma float_raises_value_error (s : string) (e : exn) :
  float s = Raise e -> e = ValueError.
Proof.
  unfold float. destruct (parse_sign (strip s)) as [neg r].
  destruct ((lower r =? "inf") || (lower r =? "infinity")); [discriminate|].
  destruct (lower r =? "nan"); [discriminate|].
  destruct (parse_floatnumber r) as [[m x]|]; [discriminate|].
  congruence.
Qed.

(** A string that [float] accepts holds at most one dot. *)
Lemma float_dots (s : string) (f : pyfloat) :
  float s = Ok f -> count_char "." s <= 1.
Proof.
  unfold float.
  rewrite <- (count_strip_by isspace "." space_not_dot s).
  fold (strip s).
  rewrite <- (parse_sign_dots (strip s)).
  destruct (parse_sign (strip s)) as [neg r]. cbn [snd].
  destruct ((lower r =? "inf") || (lower r =? "infinity")) eqn:Einf.
  - intros _. rewrite <- count_lower_dot.
    apply orb_true_iff in Einf.
    destruct Einf as [E|E]; apply String.eqb_eq in E; rewrite E; simpl; lia.
  - destruct (lower r =? "nan") eqn:Enan.
    + intros _. rewrite <- count_lower_dot.
      apply String.eqb_eq in Enan. rewrite Enan. simpl. lia.
    + destruct (parse_floatnumber r) as [[m x]|] eqn:E; [|discriminate].
      intros _. eapply parse_floatnumber_dots; eauto.
Qed.

(** Replacing commas by dots, character by character. *)
Lemma replace_comma_cons (c : ascii) (s : string) :
  replace "," "." (String c s)
  = String (if (c =? ",")%char then "."%char else c) (replace "," "." s).
Proof. rewrite !replace_char. reflexivity. Qed.

Lemma replace_comma_counts (s : string) :
  count_char "," (replace "," "." s) = 0
  /\ count_char "." (replace "," "." s) = count_char "," s + count_char "." s.
Proof.
  induction s as [|c s [IH1 IH2]]; [split; reflexivity|].
  rewrite replace_comma_cons. cbn [count_char]. rewrite IH1, IH2.
  destruct (Ascii.eqb_spec c ",") as [->|Hc]; [split; reflexivity|].
  destruct (Ascii.eqb_spec c ".") as [->|Hd]; [split; simpl; lia|].
  apply Ascii.eqb_neq in Hc. rewrite Hc. split; simpl; lia.
Qed.

(** ** [float] against its grammar *)

Lemma digit_not_underscore (c : ascii) :
  is_digit c = true -> (c =? "_")%char = false.
Proof. each_char c; intros H; try reflexivity; discriminate H. Qed.

Lemma digit_not_sign (c : ascii) :
  is_digit c = true -> c <> "+"%char /\ c <> "-"%char.
Proof. each_char c; intros H; try discriminate H; split; discriminate. Qed.

Lemma digits_tail_sound (n : nat) :
  forall s, length s <= n ->
  forall acc cnt,
  exists a, s = a ++ snd (digits_tail acc cnt s) /\ digits_rest a.
Proof.
  induction n as [|n IH]; intros s Hn acc cnt.
  - destruct s; [|simpl in Hn; lia]. exists "". split; constructor.
  - destruct s as [|c s]; [exists ""; split; constructor|]. simpl in Hn.
    cbn [digits_tail].
    destruct (is_digit c) eqn:Ec.
    + destruct (IH s ltac:(lia) (10 * acc + digit_val c)%N (S cnt))
        as [a [Ha Hr]].
      exists (String c a).
      split; [cbn [append]; f_equal; exact Ha|now constructor].
    + destruct (c =? "_")%char eqn:Eu;
        [|exists ""; split; constructor].
      destruct s as [|d s]; [exists ""; split; constructor|]. simpl in Hn.
      destruct (is_digit d) eqn:Ed; [|exists ""; split; constructor].
      destruct (IH s ltac:(lia) (10 * acc + digit_val d)%N (S cnt))
        as [a [Ha Hr]].
      apply Ascii.eqb_eq in Eu. subst c.
      exists (String "_" (String d a)).
      split; [cbn [append]; do 2 f_equal; exact Ha|now constructor].
Qed.

Lemma digitpart_sound (acc : N) (s : string) (v : N) (k : nat) (r : string) :
  digitpart acc s = Some (v, k, r) ->
  exists a, s = a ++ r /\ digitpart_lit a.
Proof.
  unfold digitpart. destruct s as [|c s]; [discriminate|].
  destruct (is_digit c) eqn:Ec; [|discriminate].
  generalize (10 * acc + digit_val c)%N. intros a0 H. injection H as H.
  destruct (digits_tail_sound (length s) s (le_n _) a0 1) as [a [Ha Hr]].
  rewrite H in Ha. cbn [snd] in Ha.
  exists (String c a).
  split; [cbn [append]; f_equal; exact Ha|now constructor].
Qed.

Lemma digits_tail_complete (a : string) :
  digits_rest a ->
  forall r acc cnt,
    (forall c r', r = String c r' -> is_digit c = false /\ c <> "_"%char) ->
    exists v k, digits_tail acc cnt (a ++ r) = (v, k, r).
Proof.
  induction 1 as [|c s Hc _ IH|c s Hc _ IH]; intros r acc cnt Hr.
  - cbn [append]. destruct r as [|c r']; [now exists acc, cnt|].
    destruct (Hr c r' eq_refl) as [Hd Hu]. cbn [digits_tail].
    rewrite Hd. apply Ascii.eqb_neq in Hu. rewrite Hu. now exists acc, cnt.
  - cbn [append digits_tail]. rewrite Hc. now apply IH.
  - cbn [append digits_tail].
    replace (is_digit "_") with false by reflexivity.
    rewrite Ascii.eqb_refl, Hc. now apply IH.
Qed.

Lemma digitpart_complete (a r : string) (acc : N) :
  digitpart_lit a ->
  (forall c r', r = String c r' -> is_digit c = false /\ c <> "_"%char) ->
  exists v k, digitpart acc (a ++ r) = Some (v, k, r).
Proof.
  intros [c s Hc Hs] Hr. cbn [append digitpart]. rewrite Hc.
  destruct (digits_tail_complete s Hs r (10 * acc + digit_val c)%N 1 Hr)
    as [v [k E]].
  rewrite E. now exists v, k.
Qed.

Lemma parse_sign_sound (s : string) :
  exists sg, sign_lit sg /\ s = sg ++ snd (parse_sign s).
Proof.
  destruct s as [|c r]; [exists ""; split; constructor|].
  each_char c;
    first [ exists ""; split; [constructor|reflexivity]
          | exists "+"; split; [constructor|reflexivity]
          | exists "-"; split; [constructor|reflexivity] ].
Qed.

Lemma parse_sign_complete (sg body : string) :
  sign_lit sg ->
  (forall c r', body = String c r' -> c <> "+"%char /\ c <> "-"%char) ->
  snd (parse_sign (sg ++ body)) = body.
Proof.
  intros [| |] Hb; try reflexivity.
  cbn [append]. destruct body as [|c r']; [reflexivity|].
  destruct (Hb c r' eq_refl) as [Hp Hm].
  revert Hp Hm. each_char c; intros Hp Hm; try reflexivity; congruence.
Qed.

Lemma digitpart_lit_head (d : string) :
  digitpart_lit d ->
  forall c r', d = String c r' -> c <> "+"%char /\ c <> "-"%char.
Proof.
  intros [c s Hc _] c' r' E. injection E as <- _. now apply digit_not_sign.
Qed.

Lemma parse_exponent_sound (x : string) (e : Z) :
  parse_exponent x = Some e -> x = "" \/ exponent_lit x.
Proof.
  unfold parse_exponent. destruct x as [|c r]; [now left|].
  destruct ((c =? "e") || (c =? "E"))%char eqn:Ec; [|discriminate].
  destruct (parse_sign_sound r) as [sg [Hsg Hr]].
  destruct (parse_sign r) as [neg r1]. cbn [snd] in Hr.
  destruct (digitpart 0 r1) as [[[v k] r2]|] eqn:Ed; [|discriminate].
  destruct r2; [|discriminate]. intros _. right.
  apply digitpart_sound in Ed. destruct Ed as [a [Ha Hl]].
  rewrite append_nil_r in Ha. subst a. rewrite Hr.
  constructor; auto.
  apply orb_true_iff in Ec.
  destruct Ec as [E|E]; apply Ascii.eqb_eq in E; auto.
Qed.

Lemma parse_exponent_complete (x : string) :
  x = "" \/ exponent_lit x -> exists e, parse_exponent x = Some e.
Proof.
  intros [->|[c sg d Hc Hsg Hd]]; [now exists 0%Z|].
  unfold parse_exponent.
  assert (Ec : ((c =? "e") || (c =? "E"))%char = true)
    by (destruct Hc as [->| ->]; reflexivity).
  rewrite Ec.
  pose proof (parse_sign_complete sg d Hsg (digitpart_lit_head d Hd)) as Hs.
  destruct (parse_sign (sg ++ d)) as [neg r1]. cbn [snd] in Hs. subst r1.
  destruct (digitpart_complete d "" 0 Hd) as [v [k E]]; [discriminate|].
  rewrite append_nil_r in E. rewrite E. eauto.
Qed.

Lemma finish_number_sound (m : N) (k : nat) (x : string) (r : N * Z) :
  finish_number m k x = Some r -> x = "" \/ exponent_lit x.
Proof.
  unfold finish_number. destruct (parse_exponent x) eqn:E; [|discriminate].
  intros _. eapply parse_exponent_sound; eauto.
Qed.

Lemma finish_number_complete (m : N) (k : nat) (x : string) :
  x = "" \/ exponent_lit x -> exists r, finish_number m k x = Some r.
Proof.
  intros H. unfold finish_number.
  destruct (parse_exponent_complete x H) as [e ->]. eauto.
Qed.

(** What follows a number is the end or an exponent: neither a digit,
    nor an underscore, nor a dot. *)
Lemma after_number (x : string) :
  x = "" \/ exponent_lit x ->
  forall c r', x = String c r' ->
               is_digit c = false /\ c <> "_"%char /\ c <> "."%char.
Proof.
  intros [->|[c sg d Hc _ _]] c' r' E; [discriminate|].
  injection E as <- _.
  destruct Hc as [->| ->]; repeat split; discriminate.
Qed.

Lemma parse_floatnumber_sound (s : string) (r : N * Z) :
  parse_floatnumber s = Some r -> floatnumber_lit s.
Proof.
  unfold parse_floatnumber.
  destruct (digitpart 0 s) as [[[i k] r1]|] eqn:E1.
  - apply digitpart_sound in E1. destruct E1 as [a [-> Ha]].
    destruct r1 as [|c r1].
    + intros _. constructor; [now apply number_int|now left].
    + destruct (Ascii.eqb_spec c ".") as [->|Hc].
      * destruct (digitpart i r1) as [[[m k2] r2]|] eqn:E2.
        -- apply digitpart_sound in E2. destruct E2 as [b [-> Hb]].
           intros H. apply finish_number_sound in H.
           replace (a ++ String "." (b ++ r2)) with ((a ++ "." ++ b) ++ r2)
             by (rewrite !append_assoc; reflexivity).
           constructor; [|exact H]. apply number_point; auto.
        -- intros H. apply finish_number_sound in H.
           replace (a ++ String "." r1) with ((a ++ ".") ++ r1)
             by (rewrite !append_assoc; reflexivity).
           constructor; [|exact H]. now apply number_int_point.
      * intros H.
        assert (H' : finish_number i 0 (String c r1) = Some r).
        { revert H. each_char c; try exact (fun h => h). congruence. }
        apply finish_number_sound in H'.
        constructor; [now apply number_int|exact H'].
  - destruct s as [|c s]; [discriminate|].
    destruct (Ascii.eqb_spec c ".") as [->|Hc].
    + destruct (digitpart 0 s) as [[[m k2] r2]|] eqn:E2; [|discriminate].
      apply digitpart_sound in E2. destruct E2 as [b [-> Hb]].
      intros H. apply finish_number_sound in H.
      change (String "." (b ++ r2)) with (("" ++ "." ++ b) ++ r2).
      constructor; [|exact H]. apply number_point; auto.
    + each_char c; try discriminate. congruence.
Qed.

Lemma digitpart_none (acc : N) (x : string) :
  (forall c r', x = String c r' -> is_digit c = false) ->
  digitpart acc x = None.
Proof.
  intros H. destruct x as [|c r']; [reflexivity|].
  cbn [digitpart]. now rewrite (H c r' eq_refl).
Qed.

Lemma parse_floatnumber_complete (s : string) :
  floatnumber_lit s -> exists r, parse_floatnumber s = Some r.
Proof.
  intros [n x Hn Hx].
  pose proof (after_number x Hx) as Hafter.
  assert (Hfollow : forall c r', x = String c r' ->
                                 is_digit c = false /\ c <> "_"%char).
  { intros c r' E. destruct (Hafter c r' E) as [H1 [H2 _]]. now split. }
  assert (Hdot : forall c r', String "." r' = String c r' ->
                              is_digit c = false /\ c <> "_"%char).
  { intros c r' E. injection E as <-. split; [reflexivity|discriminate]. }
  unfold parse_floatnumber.
  destruct Hn as [a b [->|Ha] Hb|a Ha|a Ha].
  - cbn [append]. replace (digitpart 0 (String "." (b ++ x))) with
      (@None (N * nat * string)) by reflexivity.
    destruct (digitpart_complete b x 0 Hb Hfollow) as [m [k ->]].
    now apply finish_number_complete.
  - replace ((a ++ "." ++ b) ++ x) with (a ++ String "." (b ++ x))
      by (rewrite !append_assoc; reflexivity).
    destruct (digitpart_complete a (String "." (b ++ x)) 0 Ha) as [i [k ->]].
    { intros c r' E. injection E as <- _. split; [reflexivity|discriminate]. }
    destruct (digitpart_complete b x i Hb Hfollow) as [m [k2 ->]].
    now apply finish_number_complete.
  - destruct (digitpart_complete a x 0 Ha Hfollow) as [i [k ->]].
    destruct x as [|c r'].
    + now apply finish_number_complete.
    + destruct (Hafter c r' eq_refl) as [_ [_ Hc]].
      assert (E : forall (A : Type) (u v : string -> A),
                 match String c r' with
                 | String "." r1 => u r1
                 | _ => v (String c r')
                 end = v (String c r')).
      { intros A u v. revert Hc. each_char c; intros Hc; try reflexivity.
        congruence. }
      rewrite (E _ (fun r1 => match digitpart i r1 with
                              | Some (m, k0, r2) => finish_number m k0 r2
                              | None => finish_number i 0 r1
                              end)
                 (fun r => finish_number i 0 r)).
      now apply finish_number_complete.
  - replace ((a ++ ".") ++ x) with (a ++ String "." x)
      by (rewrite !append_assoc; reflexivity).
    destruct (digitpart_complete a (String "." x) 0 Ha) as [i [k ->]].
    { intros c r' E. injection E as <- _. split; [reflexivity|discriminate]. }
    rewrite (digitpart_none i x).
    + now apply finish_number_complete.
    + intros c r' E. now destruct (Hafter c r' E).
Qed.

Lemma number_lit_head (n : string) :
  number_lit n ->
  exists c r', n = String c r' /\ c <> "+"%char /\ c <> "-"%char.
Proof.
  assert (Hd : forall a, digitpart_lit a ->
                         exists c r', a = String c r'
                                      /\ c <> "+"%char /\ c <> "-"%char).
  { intros a [c s Hc _]. exists c, s. split; [reflexivity|].
    now apply digit_not_sign. }
  intros [a b [->|Ha] Hb|a Ha|a Ha].
  - exists "."%char, b. repeat split; discriminate.
  - destruct (Hd a Ha) as [c [r' [-> H]]]. now exists c, (r' ++ "." ++ b).
  - now apply Hd.
  - destruct (Hd a Ha) as [c [r' [-> H]]]. now exists c, (r' ++ ".").
Qed.

Lemma word_head (w : string) :
  In (lower w) ["inf"; "infinity"; "nan"] ->
  forall c r', w = String c r' -> c <> "+"%char /\ c <> "-"%char.
Proof.
  intros H c r' ->. cbn [lower] in H.
  assert (Hc : lower_char c = "i"%char \/ lower_char c = "n"%char).
  { simpl in H. destruct H as [H|[H|[H|[]]]]; injection H; auto. }
  revert Hc. each_char c; intros [Hc|Hc]; try discriminate Hc;
    split; discriminate.
Qed.

(** [float] accepts a string exactly when the string, trimmed, is
    derived by the grammar. *)
Lemma float_accepts_iff (s : string) :
  (exists f, float s = Ok f) <-> float_lit (strip s).
Proof.
  unfold float. split.
  - intros [f H].
    destruct (parse_sign_sound (strip s)) as [sg [Hsg Hs]].
    destruct (parse_sign (strip s)) as [neg r]. cbn [snd] in Hs. rewrite Hs.
    destruct ((lower r =? "inf") || (lower r =? "infinity")) eqn:Einf.
    { apply float_word; [exact Hsg|].
      apply orb_true_iff in Einf.
      destruct Einf as [E|E]; apply String.eqb_eq in E; rewrite E;
        simpl; auto. }
    destruct (lower r =? "nan") eqn:Enan.
    { apply float_word; [exact Hsg|].
      apply String.eqb_eq in Enan. rewrite Enan. simpl. auto. }
    destruct (parse_floatnumber r) as [[m e]|] eqn:E; [|discriminate].
    apply float_number; [exact Hsg|].
    eapply parse_floatnumber_sound; eauto.
  - intros H.
    assert (Hr : exists sg r,
               strip s = sg ++ r /\ sign_lit sg
               /\ (forall c r', r = String c r' -> c <> "+"%char /\ c <> "-"%char)
               /\ (floatnumber_lit r
                   \/ In (lower r) ["inf"; "infinity"; "nan"])).
    { inversion H as [sg n Hsg Hn E|sg w Hsg Hw E].
      - exists sg, n. split; [reflexivity|]. split; [exact Hsg|].
        split; [|now left].
        destruct Hn as [n0 x Hn0 _].
        destruct (number_lit_head n0 Hn0) as [c0 [r0 [-> Hc0]]].
        intros c r' E'. injection E' as <- _. exact Hc0.
      - exists sg, w. split; [reflexivity|]. split; [exact Hsg|].
        split; [now apply word_head|now right]. }
    destruct Hr as [sg [r [E [Hsg [Hhead Hbody]]]]]. rewrite E.
    pose proof (parse_sign_complete sg r Hsg Hhead) as Hs.
    destruct (parse_sign (sg ++ r)) as [neg r1]. cbn [snd] in Hs. subst r1.
    destruct ((lower r =? "inf") || (lower r =? "infinity")) eqn:Einf;
      [eauto|].
    destruct (lower r =? "nan") eqn:Enan; [eauto|].
    destruct Hbody as [Hn|Hw].
    + destruct (parse_floatnumber_complete r Hn) as [[m e] ->]. eauto.
    + exfalso. apply orb_false_iff in Einf. destruct Einf as [E1 E2].
      apply String.eqb_neq in E1, E2, Enan.
      simpl in Hw. intuition congruence.
Qed.

(** ** The SJR row body, case by case *)

(** The body on a record that holds its three fields. *)
Lemma sjr_row_resolved (rec : record) (t s q : string)
      (d : dict Sjr.entry) (out : list diag) :
  dict_get "Title" rec = Some (Some t) ->
  dict_get "SJR" rec = Some (Some s) ->
  dict_get "SJR Best Quartile" rec = Some (Some q) ->
  Sjr.row_body rec (d, out)
  = match float (replace "," "." (strip s)) with
    | Ok f =>
        Ok (dict_set (lower (strip (strip_chars dq t)))
              {| Sjr.sjr := f;
                 Sjr.quartile := if truthy (strip q) then strip q else "-" |}
              d, out)
    | Raise _ =>
        Ok (d, (out ++ [ConvertWarning (strip s)
                          (lower (strip (strip_chars dq t)))])%list)
    end.
Proof.
  intros H1 H2 H3. unfold Sjr.row_body, getitem, as_str, bind.
  rewrite H1, H2, H3.
  destruct (float (replace "," "." (strip s))) as [f|e] eqn:E; [reflexivity|].
  apply float_raises_value_error in E. now subst e.
Qed.

Lemma sjr_row_cases (rec : record) :
  (exists e, forall st, Sjr.row_body rec st = Raise e)
  \/ (exists w, forall d out,
         Sjr.row_body rec (d, out) = Ok (d, (out ++ [w])%list))
  \/ (exists t v,
         dict_get "Title" rec = Some (Some t)
         /\ forall d out,
             Sjr.row_body rec (d, out)
             = Ok (dict_set (lower (strip (strip_chars dq t))) v d, out)).
Proof.
  destruct (dict_get "Title" rec) as [[t|]|] eqn:H1.
  2,3: left; eexists; intros [d out];
       unfold Sjr.row_body, getitem, as_str, bind; rewrite H1; reflexivity.
  destruct (dict_get "SJR" rec) as [[s|]|] eqn:H2.
  2,3: left; eexists; intros [d out];
       unfold Sjr.row_body, getitem, as_str, bind; rewrite H1, H2; reflexivity.
  destruct (dict_get "SJR Best Quartile" rec) as [[q|]|] eqn:H3.
  2,3: left; eexists; intros [d out];
       unfold Sjr.row_body, getitem, as_str, bind; rewrite H1, H2, H3;
       reflexivity.
  right.
  pose proof (fun d out => sjr_row_resolved rec t s q d out H1 H2 H3) as Heq.
  destruct (float (replace "," "." (strip s))) as [f|e].
  - right. exists t. eexists. split; [reflexivity|exact Heq].
  - left. eexists. exact Heq.
Qed.

(** ** Keys *)

(** C2, as amended.  A row that changes the table is stored under a key
    computed from its title field: trimmed and lowercased by the ABS
    extractor; stripped of the quote characters at its ends, then
    trimmed and lowercased, by the SJR extractor; trimmed, letter case
    kept, by the CORE extractor. *)
Theorem stored_key_of_title :
  (forall row d d',
      Abs.row_body row d = Ok d' ->
      exists title rank,
        nth_error row 1 = Some title /\ nth_error row 2 = Some rank
        /\ d' = dict_set (lower (strip title)) {| Abs.abs := strip rank |} d)
  /\ (forall rec d out d' out',
         Sjr.row_body rec (d, out) = Ok (d', out') ->
         d' = d
         \/ exists title v,
             dict_get "Title" rec = Some (Some title)
             /\ d' = dict_set (lower (strip (strip_chars dq title))) v d)
  /\ (forall row d out d' out',
         Core.row_body row (d, out) = Ok (d', out') ->
         d' = d
         \/ exists title v,
             nth_error row 1 = Some title /\ d' = dict_set (strip title) v d).
Proof.
  split; [|split].
  - intros row d d' H.
    destruct (abs_row_cases row) as [Hr|[t [r [H1 [H2 Hs]]]]].
    + rewrite Hr in H. discriminate.
    + rewrite Hs in H. injection H as <-. now exists t, r.
  - intros rec d out d' out' H.
    destruct (sjr_row_cases rec) as [[e Hr]|[[w Hw]|[t [v [H1 Hs]]]]].
    + rewrite Hr in H. discriminate.
    + rewrite Hw in H. injection H as <- _. now left.
    + rewrite Hs in H. injection H as <- _. right. now exists t, v.
  - intros row d out d' out' H.
    destruct (core_row_cases row) as [[_ Hi]|[Hd|Hs]].
    + rewrite Hi in H. injection H as <- _. now left.
    + rewrite Hd in H. injection H as <- _. now left.
    + destruct Hs as [t [v [c [r [H1 [_ [_ [_ Hs]]]]]]]].
      rewrite Hs in H. injection H as <- _. right. now exists t, v.
Qed.

(** The ABS part at a row with a padded, capitalized title. *)
Lemma stored_key_of_title_witness :
  exists title rank,
    nth_error ["1"; " Journal A "; " 4* "] 1 = Some title
    /\ nth_error ["1"; " Journal A "; " 4* "] 2 = Some rank
    /\ [("journal a", {| Abs.abs := "4*" |})]
       = dict_set (lower (strip title)) {| Abs.abs := strip rank |} [].
Proof.
  apply (proj1 stored_key_of_title ["1"; " Journal A "; " 4* "] []).
  reflexivity.
Defined.

(** C2, refuted as stated.  The CORE extractor stores a conference
    under its title with the letter case kept, not under the lowercased
    title; the SJR extractor removes quote characters at the ends of the
    title before it trims and lowercases it. *)
Lemma core_key_keeps_case :
  (Core.row_body ["1"; " ICSE "; "x"; "s"; "A*"; ""; "x"; "y"; "z"] ([], [])
   = Ok ([("ICSE", "A* [2023]")], [])
   /\ lower (strip " ICSE ") = "icse"
   /\ "ICSE" <> lower (strip " ICSE "))
  /\ (let title := dq ++ "Nature" ++ dq in
      let rec := [("Title", Some title); ("SJR", Some "1,5");
                  ("SJR Best Quartile", Some "Q1")] in
      Sjr.row_body rec ([], [])
      = Ok ([("nature", {| Sjr.sjr := FDec false 15 (-1);
                           Sjr.quartile := "Q1" |})], [])
      /\ lower (strip title) = dq ++ "nature" ++ dq
      /\ "nature" <> lower (strip title)).
Proof. repeat split; try reflexivity; discriminate. Qed.

(** Over a whole run: every key of the table that an extractor returns
    is computed in that way from the title of one of the rows. *)
Lemma table_keys_of_titles :
  (forall header rows d k,
      Abs.extract_abs_rankings (Some (header :: rows)) = Ok d ->
      In k (keys d) ->
      exists row title,
        In row rows /\ nth_error row 1 = Some title
        /\ k = lower (strip title))
  /\ (forall rows st k,
         Sjr.extract_sjr_rankings (Some rows) = Ok st ->
         In k (keys (fst st)) ->
         exists rec title,
           In rec (DictReader rows) /\ dict_get "Title" rec = Some (Some title)
           /\ k = lower (strip (strip_chars dq title)))
  /\ (forall rows st k,
         Core.extract_full_core_rankings (Some rows) = Ok st ->
         In k (keys (fst st)) ->
         exists row title,
           In row rows /\ nth_error row 1 = Some title /\ k = strip title).
Proof.
  split; [|split].
  - intros header rows d k H. cbn in H. revert k.
    apply (for_each_invariant Abs.row_body
             (fun d => forall k, In k (keys d) -> _) rows) with (s := []);
      [|intros k []|exact H].
    intros row s s' Hin IH Hb k Hk.
    destruct (abs_row_cases row) as [Hr|[t [r [H1 [_ Hs]]]]];
      [rewrite Hr in Hb; discriminate|].
    rewrite Hs in Hb. injection Hb as <-.
    apply keys_dict_set in Hk. destruct Hk as [->|Hk]; [|now apply IH].
    now exists row, t.
  - intros rows st k H. cbn in H. revert k.
    apply (for_each_invariant Sjr.row_body
             (fun st => forall k, In k (keys (fst st)) -> _) (DictReader rows))
      with (s := ([], [])); [|intros k []|exact H].
    intros rec [d out] [d' out'] Hin IH Hb k Hk. cbn [fst] in *.
    destruct (sjr_row_cases rec) as [[e Hr]|[[w Hw]|[t [v [H1 Hs]]]]].
    + rewrite Hr in Hb. discriminate.
    + rewrite Hw in Hb. injection Hb as <- _. now apply IH.
    + rewrite Hs in Hb. injection Hb as <- _.
      apply keys_dict_set in Hk. destruct Hk as [->|Hk]; [|now apply IH].
      now exists rec, t.
  - intros rows st k H. unfold Core.extract_full_core_rankings in H.
    destruct (for_each Core.row_body rows ([], [])) as [st1|] eqn:E;
      [|discriminate].
    cbn [bind] in H.
    destruct (for_each Core.count_body (map snd (fst st1)) []);
      [|discriminate].
    cbn [bind] in H. injection H as <-. revert k.
    apply (for_each_invariant Core.row_body
             (fun st => forall k, In k (keys (fst st)) -> _) rows)
      with (s := ([], [])); [|intros k []|exact E].
    intros row [d out] [d' out'] Hin IH Hb k Hk. cbn [fst] in *.
    destruct (core_row_cases row) as [[_ Hi]|[Hd|Hs]].
    + rewrite Hi in Hb. injection Hb as <- _. now apply IH.
    + rewrite Hd in Hb. injection Hb as <- _. now apply IH.
    + destruct Hs as [t [v [c [r [H1 [_ [_ [_ Hs]]]]]]]].
      rewrite Hs in Hb. injection Hb as <- _.
      apply keys_dict_set in Hk. destruct Hk as [->|Hk]; [|now apply IH].
      now exists row, t.
Qed.

(** The keys of a table that an extractor returns are pairwise
    distinct. *)
Lemma extracted_keys_distinct :
  (forall file d,
      Abs.extract_abs_rankings file = Ok d -> NoDup (keys d))
  /\ (forall file st,
         Sjr.extract_sjr_rankings file = Ok st -> NoDup (keys (fst st)))
  /\ (forall file st,
         Core.extract_full_core_rankings file = Ok st -> NoDup (keys (fst st))).
Proof.
  split; [|split].
  - intros [[|header rows]|] d H; try discriminate. cbn in H.
    apply (for_each_invariant Abs.row_body (fun d => NoDup (keys d)) rows)
      with (s := []); [|constructor|exact H].
    intros row s s' _ IH Hb.
    destruct (abs_row_cases row) as [Hr|[t [r [_ [_ Hs]]]]];
      [rewrite Hr in Hb; discriminate|].
    rewrite Hs in Hb. injection Hb as <-. now apply dict_set_nodup.
  - intros [rows|] st H; try discriminate. cbn in H.
    apply (for_each_invariant Sjr.row_body
             (fun st => NoDup (keys (fst st))) (DictReader rows))
      with (s := ([], [])); [|constructor|exact H].
    intros rec [d out] [d' out'] _ IH Hb. cbn [fst] in *.
    destruct (sjr_row_cases rec) as [[e Hr]|[[w Hw]|[t [v [_ Hs]]]]].
    + rewrite Hr in Hb. discriminate.
    + rewrite Hw in Hb. now injection Hb as <- _.
    + rewrite Hs in Hb. injection Hb as <- _. now apply dict_set_nodup.
  - intros [rows|] st H; try discriminate.
    unfold Core.extract_full_core_rankings in H.
    destruct (for_each Core.row_body rows ([], [])) as [st1|] eqn:E;
      [|discriminate].
    cbn [bind] in H.
    destruct (for_each Core.count_body (map snd (fst st1)) []);
      [|discriminate].
    cbn [bind] in H. injection H as <-.
    apply (for_each_invariant Core.row_body
             (fun st => NoDup (keys (fst st))) rows)
      with (s := ([], [])); [|constructor|exact E].
    intros row [d out] [d' out'] _ IH Hb. cbn [fst] in *.
    destruct (core_row_cases row) as [[_ Hi]|[Hd|Hs]].
    + rewrite Hi in Hb. now injection Hb as <- _.
    + rewrite Hd in Hb. now injection Hb as <- _.
    + destruct Hs as [t [v [c [r [_ [_ [_ [_ Hs]]]]]]]].
      rewrite Hs in Hb. injection Hb as <- _. now apply dict_set_nodup.
Qed.

(** ** CORE: the primary rank *)

(** C5.  On a CORE row of nine columns or more whose trimmed title is
    not empty, the rank that is classified is the trimmed column 4 when
    that is not empty, and the trimmed column 5 otherwise: a main tier
    in column 4 is stored with the edition 2023, a main tier in column 5
    beside an empty column 4 with the edition 2021, and with a non-empty
    column 4 the result does not depend on column 5.  So column 4
    [A*] gives [A* [2023]] whatever column 5 holds, and an empty column
    4 with column 5 [B] gives [B [2021]]. *)
Theorem core_primary_rank :
  forall (row : list string) (c1 c4 c5 : string) (d : dict string)
         (out : list diag),
    9 <= List.length row ->
    nth_error row 1 = Some c1 -> nth_error row 4 = Some c4 ->
    nth_error row 5 = Some c5 ->
    strip c1 <> "" ->
    (forall t, In t ["A*"; "A"; "B"; "C"] -> strip c4 = t ->
               Core.row_body row (d, out)
               = Ok (dict_set (strip c1) (t ++ " [2023]") d, out))
    /\ (forall t, In t ["A*"; "A"; "B"; "C"] -> strip c4 = "" -> strip c5 = t ->
                  Core.row_body row (d, out)
                  = Ok (dict_set (strip c1) (t ++ " [2021]") d, out))
    /\ (strip c4 <> "" ->
        forall row' c5',
          9 <= List.length row' ->
          nth_error row' 1 = Some c1 -> nth_error row' 4 = Some c4 ->
          nth_error row' 5 = Some c5' ->
          Core.row_body row' (d, out) = Core.row_body row (d, out))
    /\ (strip c4 = "A*" ->
        Core.row_body row (d, out)
        = Ok (dict_set (strip c1) "A* [2023]" d, out))
    /\ (strip c4 = "" -> strip c5 = "B" ->
        Core.row_body row (d, out)
        = Ok (dict_set (strip c1) "B [2021]" d, out)).
Proof.
  intros row c1 c4 c5 d out Hlen H1 H4 H5 Hname.
  pose proof (core_row_resolved row c1 c4 c5 d out Hlen H1 H4 H5) as Heq.
  apply truthy_true in Hname. rewrite Hname in Heq. cbn [negb] in Heq.
  assert (H23 : forall t, In t ["A*"; "A"; "B"; "C"] -> strip c4 = t ->
                          Core.row_body row (d, out)
                          = Ok (dict_set (strip c1) (t ++ " [2023]") d, out)).
  { intros t Ht E. rewrite Heq, E.
    simpl in Ht. destruct Ht as [<-|[<-|[<-|[<-|[]]]]]; reflexivity. }
  assert (H21 : forall t, In t ["A*"; "A"; "B"; "C"] -> strip c4 = "" ->
                          strip c5 = t ->
                          Core.row_body row (d, out)
                          = Ok (dict_set (strip c1) (t ++ " [2021]") d, out)).
  { intros t Ht E4 E5. rewrite Heq, E4, E5.
    simpl in Ht. destruct Ht as [<-|[<-|[<-|[<-|[]]]]]; reflexivity. }
  split; [exact H23|]. split; [exact H21|]. split; [|split].
  - intros Hne row' c5' Hlen' H1' H4' H5'.
    rewrite (core_row_resolved row' c1 c4 c5' d out Hlen' H1' H4' H5'), Heq.
    rewrite Hname. cbn [negb].
    apply truthy_true in Hne. now rewrite Hne.
  - intros E. apply (H23 "A*"); [now left|exact E].
  - intros E4 E5. apply (H21 "B"); [right; right; now left|exact E4|exact E5].
Qed.

(** A row whose column 4 is a padded [A*] and whose column 5 is [B]. *)
Lemma core_primary_rank_witness :
  let row := ["1"; "ICSE"; "x"; "s"; " A* "; "B"; "x"; "y"; "z"] in
  (9 <= List.length row /\ strip "ICSE" <> "" /\ strip " A* " = "A*")
  /\ Core.row_body row ([], []) = Ok ([("ICSE", "A* [2023]")], []).
Proof.
  intros row.
  assert (Hlen : 9 <= List.length row) by (simpl; lia).
  assert (Hname : strip "ICSE" <> "") by discriminate.
  split; [repeat split; assumption|].
  apply (proj1 (proj2 (proj2 (proj2
           (core_primary_rank row "ICSE" " A* " "B" [] []
              Hlen eq_refl eq_refl eq_refl Hname))))).
  reflexivity.
Defined.

(** ** CORE: ranks outside the main tiers *)

(** C6, as amended.  On a CORE row of nine columns or more whose trimmed
    title is not empty and whose primary rank is none of [A*], [A], [B],
    [C]: a rank that begins with [Australasian] is stored with that word
    rewritten to [Au] at the front and wherever else it occurs, so as
    [Au] followed by the remainder when the remainder does not hold the
    word again; likewise with [National] and [Nat]; the rank [TBR] is
    stored as it is; with any other rank the table and the diagnostics
    are left as they were and nothing is raised. *)
Theorem core_other_ranks :
  forall (row : list string) (c1 c4 c5 : string) (d : dict string)
         (out : list diag),
    9 <= List.length row ->
    nth_error row 1 = Some c1 -> nth_error row 4 = Some c4 ->
    nth_error row 5 = Some c5 ->
    strip c1 <> "" ->
    let p := if truthy (strip c4) then strip c4 else strip c5 in
    in_list p ["A*"; "A"; "B"; "C"] = false ->
    (forall rest,
        p = "Australasian" ++ rest ->
        Core.row_body row (d, out)
        = Ok (dict_set (strip c1) ("Au" ++ replace "Australasian" "Au" rest) d,
              out)
        /\ ((forall x y, rest <> x ++ "Australasian" ++ y) ->
            Core.row_body row (d, out)
            = Ok (dict_set (strip c1) ("Au" ++ rest) d, out)))
    /\ (forall rest,
           p = "National" ++ rest ->
           Core.row_body row (d, out)
           = Ok (dict_set (strip c1) ("Nat" ++ replace "National" "Nat" rest) d,
                 out)
           /\ ((forall x y, rest <> x ++ "National" ++ y) ->
               Core.row_body row (d, out)
               = Ok (dict_set (strip c1) ("Nat" ++ rest) d, out)))
    /\ (p = "TBR" ->
        Core.row_body row (d, out) = Ok (dict_set (strip c1) "TBR" d, out))
    /\ (startswith p "Australasian" = false ->
        startswith p "National" = false -> p <> "TBR" ->
        Core.row_body row (d, out) = Ok (d, out)).
Proof.
  intros row c1 c4 c5 d out Hlen H1 H4 H5 Hname p Htier.
  pose proof (core_row_resolved row c1 c4 c5 d out Hlen H1 H4 H5) as Heq.
  apply truthy_true in Hname. rewrite Hname in Heq. cbn [negb] in Heq.
  cbv zeta in Heq. fold p in Heq. rewrite Htier in Heq.
  split; [|split; [|split]].
  - intros rest Hp.
    assert (E : Core.row_body row (d, out)
                = Ok (dict_set (strip c1)
                        ("Au" ++ replace "Australasian" "Au" rest) d, out)).
    { rewrite Heq, Hp. unfold startswith. rewrite prefix_app_self.
      now rewrite replace_prefix. }
    split; [exact E|].
    intros Hno. rewrite E. now rewrite (replace_absent _ _ _ _ Hno).
  - intros rest Hp.
    assert (E : Core.row_body row (d, out)
                = Ok (dict_set (strip c1)
                        ("Nat" ++ replace "National" "Nat" rest) d, out)).
    { rewrite Heq, Hp. unfold startswith. rewrite prefix_app_self.
      replace (prefix "Australasian" ("National" ++ rest)) with false
        by reflexivity.
      now rewrite replace_prefix. }
    split; [exact E|].
    intros Hno. rewrite E. now rewrite (replace_absent _ _ _ _ Hno).
  - intros Hp. rewrite Heq, Hp. reflexivity.
  - intros Hau Hnat Htbr. rewrite Heq, Hau, Hnat.
    apply String.eqb_neq in Htbr. now rewrite Htbr.
Qed.

(** A row with an empty column 4 and [Australasian B] in column 5. *)
Lemma core_other_ranks_witness :
  let row := ["1"; "ACSW"; "x"; "s"; ""; "Australasian B"; "x"; "y"; "z"] in
  (9 <= List.length row /\ strip "ACSW" <> ""
   /\ in_list "Australasian B" ["A*"; "A"; "B"; "C"] = false)
  /\ Core.row_body row ([], []) = Ok ([("ACSW", "Au B")], []).
Proof.
  intros row.
  assert (Hlen : 9 <= List.length row) by (simpl; lia).
  assert (Hname : strip "ACSW" <> "") by discriminate.
  split; [repeat split; assumption|].
  apply (proj1 (proj1 (core_other_ranks row "ACSW" "" "Australasian B" [] []
                         Hlen eq_refl eq_refl eq_refl Hname eq_refl)
                  " B" eq_refl)).
Defined.

(** C6, refuted as stated.  A rank that begins with [Australasian] and
    holds the word a second time is stored with both occurrences
    rewritten: the stored value is not the rank with its prefix alone
    rewritten. *)
Lemma core_rewrites_every_occurrence :
  let row := ["1"; "ACSW"; "x"; "s"; "Australasian Australasian B"; "";
              "x"; "y"; "z"] in
  Core.row_body row ([], []) = Ok ([("ACSW", "Au Au B")], [])
  /\ startswith "Australasian Australasian B" "Australasian" = true
  /\ "Au Au B" <> "Au" ++ " Australasian B".
Proof. repeat split; try reflexivity; discriminate. Qed.

(** ** SJR: the numeric field *)

(** C7.  On an SJR record that holds its three fields, the trimmed SJR
    field is given to [float] with its commas replaced by dots.  When
    the parse succeeds the row is stored with the parsed value, and with
    the quartile [-] when the trimmed quartile is empty.  When it fails
    the table is left as it was, a warning is recorded, nothing is
    raised and the loop goes on with the next record.  The field
    [1,234] parses as the literal [1.234] does, to 1234 * 10^-3. *)
Theorem sjr_float_field :
  forall (rec : record) (t s q : string) (d : dict Sjr.entry)
         (out : list diag),
    dict_get "Title" rec = Some (Some t) ->
    dict_get "SJR" rec = Some (Some s) ->
    dict_get "SJR Best Quartile" rec = Some (Some q) ->
    let title := lower (strip (strip_chars dq t)) in
    let text := replace "," "." (strip s) in
    (forall f,
        float text = Ok f ->
        Sjr.row_body rec (d, out)
        = Ok (dict_set title
                {| Sjr.sjr := f;
                   Sjr.quartile := if truthy (strip q) then strip q else "-" |}
                d, out))
    /\ (forall f,
           float text = Ok f -> strip q = "" ->
           Sjr.row_body rec (d, out)
           = Ok (dict_set title {| Sjr.sjr := f; Sjr.quartile := "-" |} d, out))
    /\ (forall e,
           float text = Raise e ->
           let warned := (out ++ [ConvertWarning (strip s) title])%list in
           Sjr.row_body rec (d, out) = Ok (d, warned)
           /\ forall rest,
               for_each Sjr.row_body (rec :: rest) (d, out)
               = for_each Sjr.row_body rest (d, warned))
    /\ text = string_of_list_ascii
                (map (fun c => if (c =? ",")%char then "."%char else c)
                   (list_ascii_of_string (strip s)))
    /\ float (replace "," "." "1,234") = float "1.234"
    /\ float "1.234" = Ok (FDec false 1234 (-3)).
Proof.
  intros rec t s q d out H1 H2 H3 title text.
  pose proof (sjr_row_resolved rec t s q d out H1 H2 H3) as Heq.
  fold title text in Heq.
  split; [|split; [|split; [|split; [|split]]]].
  - intros f Hf. now rewrite Heq, Hf.
  - intros f Hf Hq. rewrite Heq, Hf, Hq. reflexivity.
  - intros e He warned.
    assert (E : Sjr.row_body rec (d, out) = Ok (d, warned))
      by now rewrite Heq, He.
    split; [exact E|]. intros rest. cbn [for_each]. now rewrite E.
  - apply replace_char.
  - reflexivity.
  - reflexivity.
Qed.

(** A record with the SJR field [1,234] and a blank quartile. *)
Lemma sjr_float_field_witness :
  let rec := [("Title", Some "Nature"); ("SJR", Some " 1,234 ");
              ("SJR Best Quartile", Some " ")] in
  float (replace "," "." (strip " 1,234 ")) = Ok (FDec false 1234 (-3))
  /\ Sjr.row_body rec ([], [])
     = Ok ([("nature", {| Sjr.sjr := FDec false 1234 (-3);
                          Sjr.quartile := "-" |})], []).
Proof.
  intros rec. split; [reflexivity|].
  apply (proj1 (proj2 (sjr_float_field rec "Nature" " 1,234 " " " [] []
                         eq_refl eq_refl eq_refl))
           (FDec false 1234 (-3)) eq_refl eq_refl).
Defined.

(** C10.  On an SJR record that holds its three fields, every comma of
    the trimmed SJR field is replaced by a dot: the text given to
    [float] holds no comma, and as many dots as the field holds commas
    and dots.  A field with two commas or more therefore fails to
    parse, and the row is rejected with a warning.  The row is stored if
    and only if the text with all its commas replaced is accepted by
    [float], that is, if and only if that text, trimmed, is a float
    literal of the grammar. *)
Theorem sjr_every_comma_replaced :
  forall (rec : record) (t s q : string) (d : dict Sjr.entry)
         (out : list diag),
    dict_get "Title" rec = Some (Some t) ->
    dict_get "SJR" rec = Some (Some s) ->
    dict_get "SJR Best Quartile" rec = Some (Some q) ->
    let title := lower (strip (strip_chars dq t)) in
    let text := replace "," "." (strip s) in
    (count_char "," text = 0
     /\ count_char "." text
        = count_char "," (strip s) + count_char "." (strip s))
    /\ (2 <= count_char "," (strip s) ->
        float text = Raise ValueError
        /\ Sjr.row_body rec (d, out)
           = Ok (d, (out ++ [ConvertWarning (strip s) title])%list))
    /\ ((exists e, Sjr.row_body rec (d, out) = Ok (dict_set title e d, out))
        <-> (exists f, float text = Ok f))
    /\ ((exists e, Sjr.row_body rec (d, out) = Ok (dict_set title e d, out))
        <-> float_lit (strip text))
    /\ float (replace "," "." "1,234,5") = Raise ValueError.
Proof.
  intros rec t s q d out H1 H2 H3 title text.
  pose proof (sjr_row_resolved rec t s q d out H1 H2 H3) as Heq.
  fold title text in Heq.
  destruct (replace_comma_counts (strip s)) as [Hc Hd]. fold text in Hc, Hd.
  assert (Hiff : (exists e, Sjr.row_body rec (d, out)
                            = Ok (dict_set title e d, out))
                 <-> (exists f, float text = Ok f)).
  { split.
    - intros [e He]. rewrite Heq in He.
      destruct (float text) as [f|x]; [now exists f|].
      injection He as _ Hout.
      apply (f_equal (@List.length diag)) in Hout.
      rewrite length_app in Hout. simpl in Hout. lia.
    - intros [f Hf]. rewrite Heq, Hf. eexists. reflexivity. }
  split; [now split|]. split; [|split; [exact Hiff|split]].
  - intros Htwo.
    assert (E : float text = Raise ValueError).
    { destruct (float text) as [f|e] eqn:E.
      - apply float_dots in E. lia.
      - now rewrite (float_raises_value_error _ _ E). }
    split; [exact E|]. now rewrite Heq, E.
  - rewrite Hiff. apply float_accepts_iff.
  - reflexivity.
Qed.

(** A record with the SJR field [1,234,5]. *)
Lemma sjr_every_comma_replaced_witness :
  let rec := [("Title", Some "Nature"); ("SJR", Some "1,234,5");
              ("SJR Best Quartile", Some "Q1")] in
  2 <= count_char "," (strip "1,234,5")
  /\ Sjr.row_body rec ([], [])
     = Ok ([], [ConvertWarning "1,234,5" "nature"]).
Proof.
  intros rec.
  assert (Htwo : 2 <= count_char "," (strip "1,234,5")) by (simpl; lia).
  split; [exact Htwo|].
  apply (proj2 (proj1 (proj2 (sjr_every_comma_replaced
                                rec "Nature" "1,234,5" "Q1" [] []
                                eq_refl eq_refl eq_refl)) Htwo)).
Defined.

(** ** Duplicate titles *)

(** A row that, processed on its own, stores one entry stores that entry
    in every table; a row that on its own stores nothing under a key
    leaves that key alone in every table. *)
Lemma abs_row_frame (row : list string) (k : string) :
  (forall v, Abs.row_body row [] = Ok [(k, v)] ->
             forall d, Abs.row_body row d = Ok (dict_set k v d))
  /\ ((forall v, Abs.row_body row [] <> Ok [(k, v)]) ->
      forall d d', Abs.row_body row d = Ok d' -> dict_get k d' = dict_get k d).
Proof.
  destruct (abs_row_cases row) as [Hr|[t [r [_ [_ Hs]]]]]; split.
  - intros v H. rewrite Hr in H. discriminate.
  - intros _ d d' H. rewrite Hr in H. discriminate.
  - intros v H d. rewrite Hs in H. injection H as <- <-. apply Hs.
  - intros Hno d d' H. rewrite Hs in H. injection H as <-.
    apply dict_get_set_other. intros ->. exact (Hno _ (Hs [])).
Qed.

Lemma core_row_frame (row : list string) (k : string) :
  (forall v, Core.row_body row ([], []) = Ok ([(k, v)], []) ->
             forall d out, Core.row_body row (d, out) = Ok (dict_set k v d, out))
  /\ ((forall v, Core.row_body row ([], []) <> Ok ([(k, v)], [])) ->
      forall st st', Core.row_body row st = Ok st' ->
                     dict_get k (fst st') = dict_get k (fst st)).
Proof.
  destruct (core_row_cases row) as [[_ Hi]|[Hd|Hs]]; split.
  - intros v H. rewrite Hi in H. discriminate.
  - intros _ [d out] st' H. rewrite Hi in H. now injection H as <-.
  - intros v H. rewrite Hd in H. discriminate.
  - intros _ [d out] st' H. rewrite Hd in H. now injection H as <-.
  - destruct Hs as [t [v0 [c [r [_ [_ [_ [_ Hs]]]]]]]].
    intros v H d out. rewrite Hs in H. injection H as <- <-. apply Hs.
  - destruct Hs as [t [v0 [c [r [_ [_ [_ [_ Hs]]]]]]]].
    intros Hno [d out] st' H. rewrite Hs in H. injection H as <-.
    cbn [fst]. apply dict_get_set_other. intros ->.
    exact (Hno _ (Hs [] [])).
Qed.

Lemma sjr_row_frame (rec : record) (k : string) :
  (forall v, Sjr.row_body rec ([], []) = Ok ([(k, v)], []) ->
             forall d out, Sjr.row_body rec (d, out) = Ok (dict_set k v d, out))
  /\ ((forall v, Sjr.row_body rec ([], []) <> Ok ([(k, v)], [])) ->
      forall st st', Sjr.row_body rec st = Ok st' ->
                     dict_get k (fst st') = dict_get k (fst st)).
Proof.
  destruct (sjr_row_cases rec) as [[e Hr]|[[w Hw]|[t [v0 [_ Hs]]]]]; split.
  - intros v H. rewrite Hr in H. discriminate.
  - intros _ st st' H. rewrite Hr in H. discriminate.
  - intros v H. rewrite Hw in H. discriminate.
  - intros _ [d out] st' H. rewrite Hw in H. now injection H as <-.
  - intros v H d out. rewrite Hs in H. injection H as <- <-. apply Hs.
  - intros Hno [d out] st' H. rewrite Hs in H. injection H as <-.
    cbn [fst]. apply dict_get_set_other. intros ->.
    exact (Hno _ (Hs [] [])).
Qed.

(** A row of three fields or more, processed on its own, is stored under
    its trimmed, lowercased title. *)
Lemma abs_row_alone (row : list string) :
  3 <= List.length row ->
  Abs.row_body row []
  = Ok [(lower (strip (nth 1 row "")), {| Abs.abs := strip (nth 2 row "") |})].
Proof.
  intros Hlen. unfold Abs.row_body, index, bind.
  destruct (nth_error row 1) as [t|] eqn:E1;
    [|apply nth_error_None in E1; lia].
  destruct (nth_error row 2) as [r|] eqn:E2;
    [|apply nth_error_None in E2; lia].
  now rewrite (nth_error_nth _ _ "" E1), (nth_error_nth _ _ "" E2).
Qed.

(** The key under which a row is stored is computed from its title. *)
Lemma abs_row_stored_key (row : list string) (k : string) (v : Abs.entry) :
  Abs.row_body row [] = Ok [(k, v)] -> lower (strip (nth 1 row "")) = k.
Proof.
  intros H. destruct (abs_row_cases row) as [Hr|[t [r [H1 [_ Hs]]]]].
  - rewrite Hr in H. discriminate.
  - rewrite Hs in H. injection H as <- _. now rewrite (nth_error_nth _ _ "" H1).
Qed.

Lemma core_row_stored_key (row : list string) (k v : string) :
  Core.row_body row ([], []) = Ok ([(k, v)], []) ->
  9 <= List.length row /\ strip (nth 1 row "") = k.
Proof.
  intros H. destruct (core_row_cases row) as [[_ Hi]|[Hd|Hs]].
  - rewrite Hi in H. discriminate.
  - rewrite Hd in H. discriminate.
  - destruct Hs as [t [x [c [r [H1 [_ [_ [_ Hs]]]]]]]]. split.
    + destruct (Nat.lt_ge_cases (List.length row) 9) as [Hlt|Hge]; [|exact Hge].
      pose proof (eq_trans (eq_sym H) (core_row_short row [] [] Hlt)) as E.
      discriminate E.
    + rewrite Hs in H. injection H as <- _.
      now rewrite (nth_error_nth _ _ "" H1).
Qed.

Lemma sjr_row_stored_key (rec : record) (k : string) (v : Sjr.entry) :
  Sjr.row_body rec ([], []) = Ok ([(k, v)], []) ->
  exists t, dict_get "Title" rec = Some (Some t)
            /\ lower (strip (strip_chars dq t)) = k.
Proof.
  intros H. destruct (sjr_row_cases rec) as [[e Hr]|[[w Hw]|[t [x [H1 Hs]]]]].
  - rewrite Hr in H. discriminate.
  - rewrite Hw in H. discriminate.
  - rewrite Hs in H. injection H as <- _. now exists t.
Qed.

(** A CORE row of nine columns or more with a title and a 2023 rank
    among [A*], [A], [B] and [C], processed on its own, is stored under
    its trimmed title. *)
Lemma core_row_alone (row : list string) :
  9 <= List.length row ->
  strip (nth 1 row "") <> "" ->
  in_list (strip (nth 4 row "")) ["A*"; "A"; "B"; "C"] = true ->
  Core.row_body row ([], [])
  = Ok ([(strip (nth 1 row ""), strip (nth 4 row "") ++ " [2023]")], []).
Proof.
  intros H9 Ht Hin.
  destruct (core_row_columns row H9) as [c1 [c4 [c5 [H1 [H4 H5]]]]].
  rewrite (nth_error_nth _ _ "" H1) in *.
  rewrite (nth_error_nth _ _ "" H4) in *.
  etransitivity; [apply (core_row_resolved row c1 c4 c5 [] [] H9 H1 H4 H5)|].
  destruct (strip c1) eqn:E1; [congruence|].
  destruct (strip c4) eqn:E4; [discriminate|].
  change (truthy (String a s)) with true.
  change (truthy (String a0 s0)) with true.
  cbn [negb]. now rewrite Hin.
Qed.

(** An SJR record that holds its three fields and whose SJR value
    parses, processed on its own, is stored under its normalized
    title. *)
Lemma sjr_row_alone (rec : record) (t s q : string) (f : pyfloat) :
  dict_get "Title" rec = Some (Some t) ->
  dict_get "SJR" rec = Some (Some s) ->
  dict_get "SJR Best Quartile" rec = Some (Some q) ->
  float (replace "," "." (strip s)) = Ok f ->
  Sjr.row_body rec ([], [])
  = Ok ([(lower (strip (strip_chars dq t)),
          {| Sjr.sjr := f;
             Sjr.quartile := if truthy (strip q) then strip q else "-" |})],
        []).
Proof.
  intros H1 H2 H3 Hf.
  etransitivity; [apply (sjr_row_resolved rec t s q [] [] H1 H2 H3)|].
  now rewrite Hf.
Qed.

(** C9, as amended.  In each of the three extractors the last row that
    is stored under a key decides its value: when two rows are both
    stored under the same key and no row behind the later one is, the
    later row replaces the entry in whatever table it meets, with no
    diagnostic and no exception, and the table that the run returns
    maps the key to the value of the later row alone.  In the ABS
    extractor every row of three fields or more is stored, so that of
    two such rows with the same trimmed, lowercased title the later
    always overwrites.  In the CORE and the SJR extractor a row is
    stored under its normalized title or not at all: a later row of the
    same title overwrites when it is stored (in a CORE file for one with
    nine columns, a title and a 2023 rank among A*, A, B and C; in an
    SJR file whenever its SJR value parses), and a later row that is
    rejected leaves the value of the earlier row. *)
Theorem later_duplicate_overwrites :
  ((forall header pre r1 mid r2 post d,
       3 <= List.length r1 -> 3 <= List.length r2 ->
       lower (strip (nth 1 r1 "")) = lower (strip (nth 1 r2 "")) ->
       (forall r, In r post ->
                  lower (strip (nth 1 r "")) <> lower (strip (nth 1 r2 ""))) ->
       Abs.extract_abs_rankings
         (Some (header :: pre ++ r1 :: mid ++ r2 :: post)%list) = Ok d ->
       dict_get (lower (strip (nth 1 r2 ""))) d
       = Some {| Abs.abs := strip (nth 2 r2 "") |})
   /\ (forall header pre r1 mid r2 post k v1 v2,
          Abs.row_body r1 [] = Ok [(k, v1)] ->
          Abs.row_body r2 [] = Ok [(k, v2)] ->
          (forall r v, In r post -> Abs.row_body r [] <> Ok [(k, v)]) ->
          (forall d, Abs.row_body r2 d = Ok (dict_set k v2 d))
          /\ forall d,
              Abs.extract_abs_rankings
                (Some (header :: pre ++ r1 :: mid ++ r2 :: post)%list) = Ok d ->
              dict_get k d = Some v2))
  /\ ((forall pre r1 mid r2 post st,
          9 <= List.length r1 -> 9 <= List.length r2 ->
          strip (nth 1 r1 "") = strip (nth 1 r2 "") ->
          strip (nth 1 r2 "") <> "" ->
          in_list (strip (nth 4 r2 "")) ["A*"; "A"; "B"; "C"] = true ->
          (forall r, In r post -> strip (nth 1 r "") <> strip (nth 1 r2 "")) ->
          Core.extract_full_core_rankings
            (Some (pre ++ r1 :: mid ++ r2 :: post)%list) = Ok st ->
          dict_get (strip (nth 1 r2 "")) (fst st)
          = Some (strip (nth 4 r2 "") ++ " [2023]"))
      /\ (forall pre r1 mid r2 post k v1 v2,
             Core.row_body r1 ([], []) = Ok ([(k, v1)], []) ->
             Core.row_body r2 ([], []) = Ok ([(k, v2)], []) ->
             (forall r v, In r post ->
                          Core.row_body r ([], []) <> Ok ([(k, v)], [])) ->
             (forall d out,
                 Core.row_body r2 (d, out) = Ok (dict_set k v2 d, out))
             /\ forall st,
                 Core.extract_full_core_rankings
                   (Some (pre ++ r1 :: mid ++ r2 :: post)%list) = Ok st ->
                 dict_get k (fst st) = Some v2)
      /\ (forall r k v,
             Core.row_body r ([], []) = Ok ([(k, v)], []) ->
             9 <= List.length r /\ strip (nth 1 r "") = k)
      /\ (forall pre r1 rest k v1 st,
             Core.row_body r1 ([], []) = Ok ([(k, v1)], []) ->
             (forall r v, In r rest ->
                          Core.row_body r ([], []) <> Ok ([(k, v)], [])) ->
             Core.extract_full_core_rankings (Some (pre ++ r1 :: rest)%list)
             = Ok st ->
             dict_get k (fst st) = Some v1))
  /\ ((forall rows pre r1 mid r2 post t1 t s q f st,
          DictReader rows = (pre ++ r1 :: mid ++ r2 :: post)%list ->
          dict_get "Title" r1 = Some (Some t1) ->
          lower (strip (strip_chars dq t1)) = lower (strip (strip_chars dq t)) ->
          dict_get "Title" r2 = Some (Some t) ->
          dict_get "SJR" r2 = Some (Some s) ->
          dict_get "SJR Best Quartile" r2 = Some (Some q) ->
          float (replace "," "." (strip s)) = Ok f ->
          (forall r t', In r post -> dict_get "Title" r = Some (Some t') ->
                        lower (strip (strip_chars dq t'))
                        <> lower (strip (strip_chars dq t))) ->
          Sjr.extract_sjr_rankings (Some rows) = Ok st ->
          dict_get (lower (strip (strip_chars dq t))) (fst st)
          = Some {| Sjr.sjr := f;
                    Sjr.quartile := if truthy (strip q) then strip q else "-" |})
      /\ (forall rows pre r1 mid r2 post k v1 v2,
             DictReader rows = (pre ++ r1 :: mid ++ r2 :: post)%list ->
             Sjr.row_body r1 ([], []) = Ok ([(k, v1)], []) ->
             Sjr.row_body r2 ([], []) = Ok ([(k, v2)], []) ->
             (forall r v, In r post ->
                          Sjr.row_body r ([], []) <> Ok ([(k, v)], [])) ->
             (forall d out,
                 Sjr.row_body r2 (d, out) = Ok (dict_set k v2 d, out))
             /\ forall st,
                 Sjr.extract_sjr_rankings (Some rows) = Ok st ->
                 dict_get k (fst st) = Some v2)
      /\ (forall rec k v,
             Sjr.row_body rec ([], []) = Ok ([(k, v)], []) ->
             exists t, dict_get "Title" rec = Some (Some t)
                       /\ lower (strip (strip_chars dq t)) = k)
      /\ (forall rows pre r1 rest k v1 st,
             DictReader rows = (pre ++ r1 :: rest)%list ->
             Sjr.row_body r1 ([], []) = Ok ([(k, v1)], []) ->
             (forall r v, In r rest ->
                          Sjr.row_body r ([], []) <> Ok ([(k, v)], [])) ->
             Sjr.extract_sjr_rankings (Some rows) = Ok st ->
             dict_get k (fst st) = Some v1)).
Proof.
  assert (Habs : forall header pre r post k v,
             Abs.row_body r [] = Ok [(k, v)] ->
             (forall x y, In x post -> Abs.row_body x [] <> Ok [(k, y)]) ->
             (forall d, Abs.row_body r d = Ok (dict_set k v d))
             /\ forall d,
                 Abs.extract_abs_rankings (Some (header :: pre ++ r :: post)%list)
                 = Ok d ->
                 dict_get k d = Some v).
  { intros header pre r post k v Hr Hpost.
    pose proof (proj1 (abs_row_frame r k) v Hr) as Hst.
    split; [exact Hst|]. intros d H. cbn in H.
    apply (last_store_wins Abs.row_body (fun d => d) k v r post)
      with (pre := pre) (s := []); auto.
    - intros s s' Hb. rewrite Hst in Hb. now injection Hb as <-.
    - intros x s s' Hx. apply (proj2 (abs_row_frame x k)).
      intros y. now apply Hpost. }
  assert (Hcore : forall pre r post k v,
             Core.row_body r ([], []) = Ok ([(k, v)], []) ->
             (forall x y, In x post ->
                          Core.row_body x ([], []) <> Ok ([(k, y)], [])) ->
             (forall d out, Core.row_body r (d, out) = Ok (dict_set k v d, out))
             /\ forall st,
                 Core.extract_full_core_rankings (Some (pre ++ r :: post)%list)
                 = Ok st ->
                 dict_get k (fst st) = Some v).
  { intros pre r post k v Hr Hpost.
    pose proof (proj1 (core_row_frame r k) v Hr) as Hst.
    split; [exact Hst|]. intros st H.
    unfold Core.extract_full_core_rankings in H.
    destruct (for_each Core.row_body _ ([], [])) as [st1|] eqn:E;
      [|discriminate].
    cbn [bind] in H.
    destruct (for_each Core.count_body (map snd (fst st1)) []);
      [|discriminate].
    cbn [bind] in H. injection H as <-.
    apply (last_store_wins Core.row_body fst k v r post)
      with (pre := pre) (s := ([], [])); auto.
    - intros [d out] s' Hb. rewrite Hst in Hb. now injection Hb as <-.
    - intros x s s' Hx. apply (proj2 (core_row_frame x k)).
      intros y. now apply Hpost. }
  assert (Hsjr : forall rows pre r post k v,
             DictReader rows = (pre ++ r :: post)%list ->
             Sjr.row_body r ([], []) = Ok ([(k, v)], []) ->
             (forall x y, In x post ->
                          Sjr.row_body x ([], []) <> Ok ([(k, y)], [])) ->
             (forall d out, Sjr.row_body r (d, out) = Ok (dict_set k v d, out))
             /\ forall st,
                 Sjr.extract_sjr_rankings (Some rows) = Ok st ->
                 dict_get k (fst st) = Some v).
  { intros rows pre r post k v Hrows Hr Hpost.
    pose proof (proj1 (sjr_row_frame r k) v Hr) as Hst.
    split; [exact Hst|]. intros st H. cbn in H. rewrite Hrows in H.
    apply (last_store_wins Sjr.row_body fst k v r post)
      with (pre := pre) (s := ([], [])); auto.
    - intros [d out] s' Hb. rewrite Hst in Hb. now injection Hb as <-.
    - intros x s s' Hx. apply (proj2 (sjr_row_frame x k)).
      intros y. now apply Hpost. }
  split; [split|split; [split; [|split; [|split]]|split; [|split; [|split]]]].
  - intros header pre r1 mid r2 post d _ H2 _ Hpost H.
    apply (proj2 (Habs header (pre ++ r1 :: mid)%list r2 post _ _
                    (abs_row_alone r2 H2)
                    (fun x y Hx E => Hpost x Hx (abs_row_stored_key x _ y E)))
             d).
    now rewrite <- app_assoc, <- app_comm_cons.
  - intros header pre r1 mid r2 post k v1 v2 _ H2 Hpost.
    destruct (Habs header (pre ++ r1 :: mid)%list r2 post k v2 H2 Hpost)
      as [Hst Hd].
    split; [exact Hst|]. intros d H. apply Hd.
    now rewrite <- app_assoc, <- app_comm_cons.
  - intros pre r1 mid r2 post st _ H9 _ Ht Hin Hpost H.
    apply (proj2 (Hcore (pre ++ r1 :: mid)%list r2 post _ _
                    (core_row_alone r2 H9 Ht Hin)
                    (fun x y Hx E =>
                       Hpost x Hx (proj2 (core_row_stored_key x _ y E))))
             st).
    now rewrite <- app_assoc, <- app_comm_cons.
  - intros pre r1 mid r2 post k v1 v2 _ H2 Hpost.
    destruct (Hcore (pre ++ r1 :: mid)%list r2 post k v2 H2 Hpost) as [Hst Hd].
    split; [exact Hst|]. intros st H. apply Hd.
    now rewrite <- app_assoc, <- app_comm_cons.
  - intros r k v. apply core_row_stored_key.
  - intros pre r1 rest k v1 st H1 Hrest.
    apply (proj2 (Hcore pre r1 rest k v1 H1 Hrest)).
  - intros rows pre r1 mid r2 post t1 t s q f st Hrows _ _ Ht Hs Hq Hf Hpost.
    apply (Hsjr rows (pre ++ r1 :: mid)%list r2 post _ _).
    + now rewrite <- app_assoc, <- app_comm_cons.
    + exact (sjr_row_alone r2 t s q f Ht Hs Hq Hf).
    + intros x y Hx E.
      destruct (sjr_row_stored_key x _ y E) as [t' [Ht' Hk]].
      exact (Hpost x t' Hx Ht' Hk).
  - intros rows pre r1 mid r2 post k v1 v2 Hrows _ H2 Hpost.
    apply (Hsjr rows (pre ++ r1 :: mid)%list r2 post k v2); auto.
    now rewrite <- app_assoc, <- app_comm_cons.
  - intros rec k v. apply sjr_row_stored_key.
  - intros rows pre r1 rest k v1 st Hrows H1 Hrest.
    apply (proj2 (Hsjr rows pre r1 rest k v1 Hrows H1 Hrest)).
Qed.

(** The three extractors, each on a file with one title in more than
    one row: an ABS file with the title in two spellings and a third
    row behind them; a CORE file with a short row between the two rows
    and another title behind them, and one whose last row of the title
    has a rank in no class; an SJR file with a comma in the earlier
    value and another title behind the two rows, and one whose last row
    of the title has a value that does not parse. *)
Lemma later_duplicate_overwrites_witness :
  (let header := ["id"; "Title"; "Rank"] in
   let r1 := ["1"; "Alpha"; "3"] in
   let r2 := ["2"; " ALPHA "; "4*"] in
   let other := ["3"; "Beta"; "2"] in
   Abs.extract_abs_rankings (Some [header; r1; r2; other])
   = Ok [("alpha", {| Abs.abs := "4*" |}); ("beta", {| Abs.abs := "2" |})]
   /\ dict_get "alpha"
        [("alpha", {| Abs.abs := "4*" |}); ("beta", {| Abs.abs := "2" |})]
      = Some {| Abs.abs := "4*" |})
  /\ (let r1 := ["1"; "ICSE"; "x"; "s"; "A"; ""; "x"; "y"; "z"] in
      let r2 := ["2"; " ICSE "; "x"; "s"; " B"; "A*"; "x"; "y"; "z"] in
      let r3 := ["3"; "FSE"; "x"; "s"; ""; "National: USA"; "x"; "y"; "z"] in
      let r4 := ["4"; "ICSE"; "x"; "s"; "Unranked"; ""; "x"; "y"; "z"] in
      Core.extract_full_core_rankings (Some [r1; ["short"]; r2; r3])
      = Ok ([("ICSE", "B [2023]"); ("FSE", "Nat: USA")], [IgnoredRow ["short"]])
      /\ dict_get "ICSE" [("ICSE", "B [2023]"); ("FSE", "Nat: USA")]
         = Some "B [2023]"
      /\ Core.extract_full_core_rankings (Some [r3; r1; r4])
         = Ok ([("FSE", "Nat: USA"); ("ICSE", "A [2023]")], [])
      /\ dict_get "ICSE" [("FSE", "Nat: USA"); ("ICSE", "A [2023]")]
         = Some "A [2023]")
  /\ (let header := ["Title"; "SJR"; "SJR Best Quartile"] in
      let r1 := ["Nature"; "1,5"; "Q1"] in
      let r2 := [" NATURE "; "2.25"; ""] in
      let r3 := ["Science"; "3"; "Q2"] in
      let r4 := ["nature"; "n/a"; "Q3"] in
      let e1 := {| Sjr.sjr := FDec false 15 (-1); Sjr.quartile := "Q1" |} in
      let e2 := {| Sjr.sjr := FDec false 225 (-2); Sjr.quartile := "-" |} in
      let e3 := {| Sjr.sjr := FDec false 3 0; Sjr.quartile := "Q2" |} in
      Sjr.extract_sjr_rankings (Some [header; r1; r2; r3])
      = Ok ([("nature", e2); ("science", e3)], [])
      /\ dict_get "nature" [("nature", e2); ("science", e3)] = Some e2
      /\ Sjr.extract_sjr_rankings (Some [header; r3; r1; r4])
         = Ok ([("science", e3); ("nature", e1)],
               [ConvertWarning "n/a" "nature"])
      /\ dict_get "nature" [("science", e3); ("nature", e1)] = Some e1).
Proof.
  split; [|split].
  - intros header r1 r2 other. split; [reflexivity|].
    refine (proj1 (proj1 later_duplicate_overwrites) header [] r1 [] r2 [other]
              _ _ _ eq_refl _ eq_refl); [simpl; lia|simpl; lia|].
    intros r [<-|[]]. discriminate.
  - intros r1 r2 r3 r4. split; [reflexivity|]. split; [|split; [reflexivity|]].
    + refine (proj1 (proj1 (proj2 later_duplicate_overwrites))
                [] r1 [["short"]] r2 [r3]
                ([("ICSE", "B [2023]"); ("FSE", "Nat: USA")],
                 [IgnoredRow ["short"]])
                _ _ eq_refl _ eq_refl _ eq_refl);
        [simpl; lia|simpl; lia|discriminate|].
      intros r [<-|[]]. discriminate.
    + refine (proj2 (proj2 (proj2 (proj1 (proj2 later_duplicate_overwrites))))
                [r3] r1 [r4] "ICSE" "A [2023]"
                ([("FSE", "Nat: USA"); ("ICSE", "A [2023]")], [])
                eq_refl _ eq_refl).
      intros r v [<-|[]]. discriminate.
  - intros header r1 r2 r3 r4 e1 e2 e3.
    split; [reflexivity|]. split; [|split; [reflexivity|]].
    + refine (proj1 (proj2 (proj2 later_duplicate_overwrites))
                [header; r1; r2; r3] [] _ [] _ [_]
                "Nature" " NATURE " "2.25" "" (FDec false 225 (-2))
                ([("nature", e2); ("science", e3)], [])
                eq_refl eq_refl eq_refl eq_refl eq_refl eq_refl eq_refl
                _ eq_refl).
      intros r t' [<-|[]] E. injection E as <-. discriminate.
    + refine (proj2 (proj2 (proj2 (proj2 (proj2 later_duplicate_overwrites))))
                [header; r3; r1; r4] [_] _ [_] "nature" e1
                ([("science", e3); ("nature", e1)],
                 [ConvertWarning "n/a" "nature"])
                eq_refl eq_refl _ eq_refl).
      intros r v [<-|[]]. discriminate.
Defined.

(** C9, refuted as stated.  Two rows with the same title key of which
    the later is rejected: in a CORE file the rank [Unranked] of the
    later row is in no class, in an SJR file the value [n/a] of the
    later row does not parse.  The later row overwrites nothing, and the
    table maps the key to the value of the earlier row. *)
Lemma later_rejected_row_keeps_earlier :
  (let r1 := ["1"; "ICSE"; "x"; "s"; "A"; ""; "x"; "y"; "z"] in
   let r2 := ["2"; "ICSE"; "x"; "s"; "Unranked"; ""; "x"; "y"; "z"] in
   strip (nth 1 r1 "") = strip (nth 1 r2 "")
   /\ Core.row_body r1 ([], []) = Ok ([("ICSE", "A [2023]")], [])
   /\ Core.row_body r2 ([], []) = Ok ([], [])
   /\ Core.extract_full_core_rankings (Some [r1; r2])
      = Ok ([("ICSE", "A [2023]")], []))
  /\ (let rows := [["Title"; "SJR"; "SJR Best Quartile"];
                   ["Nature"; "1,5"; "Q1"]; ["Nature"; "n/a"; "Q2"]] in
      Sjr.extract_sjr_rankings (Some rows)
      = Ok ([("nature", {| Sjr.sjr := FDec false 15 (-1);
                           Sjr.quartile := "Q1" |})],
            [ConvertWarning "n/a" "nature"])).
Proof. repeat split. Qed.

(** * Further properties *)

(** ** CORE: short rows *)

Lemma core_extract_inv (rows : list (list string)) (st : Core.state) :
  Core.extract_full_core_rankings (Some rows) = Ok st <->
  for_each Core.row_body rows ([], []) = Ok st
  /\ exists cnt, Core.rank_counts (fst st) = Ok cnt.
Proof.
  unfold Core.extract_full_core_rankings, Core.rank_counts. split.
  - destruct (for_each Core.row_body rows ([], [])) as [st1|]; [|discriminate].
    cbn [bind].
    destruct (for_each Core.count_body (map snd (fst st1)) []) as [cnt|] eqn:E;
      [|discriminate].
    cbn [bind]. intros H. injection H as <-. split; [reflexivity|].
    now exists cnt.
  - intros [-> [cnt Hc]]. cbn [bind]. now rewrite Hc.
Qed.

Lemma core_row_long (row : list string) :
  9 <= List.length row ->
  (forall d out, Core.row_body row (d, out) = Ok (d, out))
  \/ (exists k v, forall d out,
         Core.row_body row (d, out) = Ok (dict_set k v d, out)).
Proof.
  intros Hlen. destruct (core_row_cases row) as [[Hlt _]|[H|H]]; [lia|now left|].
  right. destruct H as [t [v [c [r [_ [_ [_ [_ H]]]]]]]]. now exists (strip t), v.
Qed.

Lemma core_loop_short_rows (rows : list (list string)) :
  forall d out d' out',
    for_each Core.row_body rows (d, out) = Ok (d', out') ->
    out' = (out ++ map IgnoredRow
                     (filter (fun r => (List.length r <? 9)%nat) rows))%list
    /\ forall o,
        for_each Core.row_body
          (filter (fun r => (9 <=? List.length r)%nat) rows) (d, o)
        = Ok (d', o).
Proof.
  induction rows as [|row rows IH]; intros d out d' out' H.
  - cbn in *. injection H as <- <-. now rewrite app_nil_r.
  - cbn [for_each filter] in *.
    destruct (Nat.ltb_spec (List.length row) 9) as [Hlt|Hge].
    + rewrite (core_row_short row d out Hlt) in H.
      destruct (Nat.leb_spec 9 (List.length row)); [lia|].
      destruct (IH _ _ _ _ H) as [-> H2]. split; [|exact H2].
      cbn [map]. now rewrite <- app_assoc.
    + destruct (Nat.leb_spec 9 (List.length row)); [|lia].
      cbn [for_each].
      destruct (core_row_long row Hge) as [Hx|[k [v Hx]]]; rewrite Hx in H;
        destruct (IH _ _ _ _ H) as [-> H2]; (split; [reflexivity|]);
        intros o; rewrite Hx; apply H2.
Qed.

(** X1.  The CORE extractor reports exactly the rows of fewer than nine
    columns, in their order, and the table it returns is the one it
    returns for the file without those rows. *)
Theorem core_short_rows_reported (rows : list (list string)) :
  exists d,
    Core.extract_full_core_rankings (Some rows)
    = Ok (d, map IgnoredRow (filter (fun r => (List.length r <? 9)%nat) rows))
    /\ Core.extract_full_core_rankings
         (Some (filter (fun r => (9 <=? List.length r)%nat) rows))
       = Ok (d, []).
Proof.
  destruct (core_extract_returns rows) as [[d out] [H _]].
  pose proof H as H'. apply core_extract_inv in H'.
  destruct H' as [Hloop Hcnt].
  destruct (core_loop_short_rows rows _ _ _ _ Hloop) as [Hout Hlong].
  cbn [app] in Hout. subst out. exists d. split; [exact H|].
  apply core_extract_inv. split; [apply Hlong|exact Hcnt].
Qed.

(** ** CORE: the stored ranks *)

Lemma core_row_forms (row : list string) :
  (forall d out, exists out', Core.row_body row (d, out) = Ok (d, out'))
  \/ (exists k v,
         Core.rank_form v
         /\ forall d out, Core.row_body row (d, out) = Ok (dict_set k v d, out)).
Proof.
  destruct (Nat.lt_ge_cases (List.length row) 9) as [Hlt|Hge].
  { left. intros d out. eexists. now apply core_row_short. }
  destruct (core_row_columns row Hge) as [c1 [c4 [c5 [H1 [H4 H5]]]]].
  pose proof (fun d out => core_row_resolved row c1 c4 c5 d out Hge H1 H4 H5)
    as Heq.
  destruct (truthy (strip c1)); cbn [negb] in Heq;
    [|left; intros d out; eexists; apply Heq].
  cbv zeta in Heq.
  set (p := if truthy (strip c4) then strip c4 else strip c5) in *.
  destruct (in_list p ["A*"; "A"; "B"; "C"]) eqn:Htier.
  { right. apply in_list_tiers in Htier. do 2 eexists. split; [|exact Heq].
    constructor; [exact Htier|].
    destruct (truthy (strip c4)); simpl; auto. }
  destruct (startswith p "Australasian") eqn:Hau.
  { right. apply prefix_split in Hau. destruct Hau as [rest Hau].
    do 2 eexists. split; [|exact Heq].
    rewrite Hau, replace_prefix. constructor. }
  destruct (startswith p "National") eqn:Hnat.
  { right. apply prefix_split in Hnat. destruct Hnat as [rest Hnat].
    do 2 eexists. split; [|exact Heq].
    rewrite Hnat, replace_prefix. constructor. }
  destruct (p =? "TBR") eqn:Htbr.
  { right. do 2 eexists. split; [|exact Heq]. constructor. }
  left. intros d out. eexists. apply Heq.
Qed.

(** X2.  Every rank in a table that the CORE extractor returns is a main
    tier followed by its edition in brackets, or begins with [Au], or
    begins with [Nat], or is [TBR]. *)
Theorem core_ranks_have_form :
  forall rows st v,
    Core.extract_full_core_rankings (Some rows) = Ok st ->
    In v (map snd (fst st)) -> Core.rank_form v.
Proof.
  intros rows st v H. apply core_extract_inv in H. destruct H as [H _].
  revert v.
  apply (for_each_invariant Core.row_body
           (fun st => forall v, In v (map snd (fst st)) -> Core.rank_form v)
           rows) with (s := ([], [])); [|intros v []|exact H].
  intros row [d out] st' _ IH Hb v Hv. cbn [fst] in IH.
  destruct (core_row_forms row) as [Hs|[k [x [Hx Hs]]]].
  - destruct (Hs d out) as [out' E]. rewrite E in Hb. injection Hb as <-.
    now apply IH.
  - rewrite Hs in Hb. injection Hb as <-. cbn [fst] in Hv.
    apply values_dict_set in Hv. destruct Hv as [->|Hv]; [exact Hx|now apply IH].
Qed.

(** A file of two rows, the second with an Australasian rank. *)
Lemma core_ranks_have_form_witness :
  Core.extract_full_core_rankings
    (Some [["1"; "ICSE"; "x"; "s"; "A*"; ""; "x"; "y"; "z"];
           ["2"; "ACSW"; "x"; "s"; ""; "Australasian B"; "x"; "y"; "z"]])
  = Ok ([("ICSE", "A* [2023]"); ("ACSW", "Au B")], [])
  /\ Core.rank_form "Au B".
Proof.
  split; [reflexivity|].
  apply (core_ranks_have_form
           [["1"; "ICSE"; "x"; "s"; "A*"; ""; "x"; "y"; "z"];
            ["2"; "ACSW"; "x"; "s"; ""; "Australasian B"; "x"; "y"; "z"]]
           ([("ICSE", "A* [2023]"); ("ACSW", "Au B")], [])
           "Au B" eq_refl).
  simpl. auto.
Defined.

(** ** CORE: the counting loop and the examples *)

Lemma count_step_sum (b : string) (cnt : dict nat) :
  list_sum (map snd
              (dict_set b
                 (match dict_get b cnt with Some n => n | None => 0 end + 1)
                 cnt))
  = list_sum (map snd cnt) + 1.
Proof.
  induction cnt as [|[k n] cnt IH]; [reflexivity|].
  cbn [dict_get dict_set]. destruct (k =? b) eqn:E;
    cbn [map snd list_sum fold_right].
  - lia.
  - fold (list_sum (map snd
                      (dict_set b
                         (match dict_get b cnt with Some n => n | None => 0 end
                          + 1) cnt))).
    rewrite IH. unfold list_sum. lia.
Qed.

Lemma count_loop (d : dict string) (l : list string) :
  forall cnt cnt',
    for_each Core.count_body l cnt = Ok cnt' ->
    list_sum (map snd cnt') = list_sum (map snd cnt) + List.length l
    /\ forall b, In b (keys cnt') ->
                 In b (keys cnt)
                 \/ exists v, In v l /\ Core.split_first v = Ok b.
Proof.
  induction l as [|v l IH]; intros cnt cnt' H; cbn [for_each] in H.
  - injection H as <-. split; [cbn; lia|auto].
  - unfold Core.count_body at 1 in H.
    destruct (Core.split_first v) as [b|] eqn:Eb; [|discriminate].
    cbn [bind] in H. apply IH in H. destruct H as [Hsum Hkeys]. split.
    + rewrite Hsum, count_step_sum. cbn [List.length]. lia.
    + intros b' Hb'. destruct (Hkeys b' Hb') as [Hin|[x [Hx Hs]]].
      * apply keys_dict_set in Hin. destruct Hin as [->|Hin]; [|now left].
        right. exists v. split; [now left|exact Eb].
      * right. exists x. split; [now right|exact Hs].
Qed.

(** X3.  When the counting loop of the CORE extractor returns, the counts
    add up to the number of entries of the table, and every rank counted
    is the first word of a rank of the table; on the table of a run that
    returned, the loop returns. *)
Theorem rank_counts_total :
  (forall d cnt,
      Core.rank_counts d = Ok cnt ->
      list_sum (map snd cnt) = List.length d
      /\ forall b, In b (keys cnt) ->
                   exists k v, In (k, v) d /\ Core.split_first v = Ok b)
  /\ (forall rows st,
         Core.extract_full_core_rankings (Some rows) = Ok st ->
         exists cnt, Core.rank_counts (fst st) = Ok cnt).
Proof.
  split.
  - intros d cnt H. unfold Core.rank_counts in H.
    destruct (count_loop d _ _ _ H) as [Hsum Hkeys]. split.
    + rewrite Hsum, length_map. reflexivity.
    + intros b Hb. destruct (Hkeys b Hb) as [[]|[v [Hv Hs]]].
      apply in_map_iff in Hv. destruct Hv as [[k v'] [E Hin]].
      cbn in E. subst v'. now exists k, v.
  - intros rows st H. now apply core_extract_inv in H.
Qed.

(** A table of three entries, two of them in the tier [A*]. *)
Lemma rank_counts_total_witness :
  let d := [("a", "A* [2023]"); ("b", "Au B"); ("c", "A* [2021]")] in
  Core.rank_counts d = Ok [("A*", 2); ("Au", 1)]
  /\ list_sum (map snd [("A*", 2); ("Au", 1)]) = List.length d.
Proof.
  intros d. split; [reflexivity|].
  apply (proj1 rank_counts_total d [("A*", 2); ("Au", 1)] eq_refl).
Defined.

Lemma dict_get_in {V} (k : string) (v : V) (d : dict V) :
  dict_get k d = Some v -> In (k, v) d.
Proof.
  induction d as [|[k' v'] d IH]; [discriminate|]. cbn [dict_get].
  destruct (String.eqb_spec k' k) as [->|_].
  - intros H. injection H as ->. now left.
  - intros H. right. auto.
Qed.

Lemma in_dict_set {V} (k : string) (v : V) (d : dict V) (x : string * V) :
  In x (dict_set k v d) -> x = (k, v) \/ In x d.
Proof.
  induction d as [|[k' v'] d IH]; cbn [dict_set].
  - intros [<-|[]]. now left.
  - destruct (String.eqb_spec k' k) as [->|_]; cbn [In].
    + intros [<-|H]; [now left|right; now right].
    + intros [<-|H]; [right; now left|].
      destruct (IH H) as [E|E]; [now left|right; now right].
Qed.

Lemma keys_dict_set_present {V} (k : string) (v v' : V) (d : dict V) :
  dict_get k d = Some v' -> keys (dict_set k v d) = keys d.
Proof.
  unfold keys. induction d as [|[k0 v0] d IH]; [discriminate|].
  cbn [dict_get dict_set]. destruct (k0 =? k); [reflexivity|].
  intros H. cbn [map fst]. now rewrite IH.
Qed.

Lemma core_values_visible (rows : list (list string)) (st : Core.state) :
  Core.extract_full_core_rankings (Some rows) = Ok st ->
  forall v, In v (map snd (fst st)) ->
            exists c r, v = String c r /\ isspace c = false.
Proof.
  intros H. apply core_extract_inv in H. destruct H as [H _].
  apply (for_each_invariant Core.row_body
           (fun st => forall v, In v (map snd (fst st)) ->
                                exists c r, v = String c r /\ isspace c = false)
           rows) with (s := ([], [])); [|intros v []|exact H].
  intros row [d out] st' _ IH Hb v Hv. cbn [fst] in IH.
  destruct (core_row_cases row) as [[_ Hs]|[Hs|Hs]].
  - rewrite Hs in Hb. injection Hb as <-. now apply IH.
  - rewrite Hs in Hb. injection Hb as <-. now apply IH.
  - destruct Hs as [t [x [c [r [_ [_ [Hx [Hc Hs]]]]]]]].
    rewrite Hs in Hb. injection Hb as <-. cbn [fst] in Hv.
    apply values_dict_set in Hv.
    destruct Hv as [->|Hv]; [now exists c, r|now apply IH].
Qed.

(** X4.  When the loop that collects the examples returns, the
    categories are the seven it started from, in their order; each
    holds three examples at most; and every example is an entry of the
    table whose rank has the category as its first word.  On the table
    of a run that returned, the loop returns. *)
Theorem examples_per_category :
  (forall rankings cats,
      Core.examples rankings = Ok cats ->
      keys cats = ["A*"; "A"; "B"; "C"; "Au"; "Nat"; "TBR"]
      /\ forall c l,
          In (c, l) cats ->
          List.length l <= 3
          /\ forall conf rank,
              In (conf, rank) l ->
              In (conf, rank) rankings /\ Core.split_first rank = Ok c)
  /\ (forall rows st,
         Core.extract_full_core_rankings (Some rows) = Ok st ->
         exists cats, Core.examples (fst st) = Ok cats).
Proof.
  split.
  2:{ intros rows st H.
      pose proof (core_values_visible rows st H) as Hvis.
      destruct (for_each_total Core.example_body (fun _ => True) (fst st))
        with (s := Core.categories) as [cats [Hc _]];
        [|exact I|now exists cats].
      intros [conf rank] cats Hin _.
      assert (Hr : In rank (map snd (fst st)))
        by (apply in_map_iff; now exists (conf, rank)).
      destruct (Hvis rank Hr) as [c [r [-> Hc]]].
      unfold Core.example_body, Core.split_first. cbn [lstrip_by].
      rewrite Hc. cbn [bind].
      destruct (dict_get _ cats); [|eexists; now split].
      destruct (_ <? 3)%nat; eexists; now split. }
  intros rankings cats H. unfold Core.examples in H.
  apply (for_each_invariant Core.example_body
           (fun cats =>
              keys cats = ["A*"; "A"; "B"; "C"; "Au"; "Nat"; "TBR"]
              /\ forall c l,
                  In (c, l) cats ->
                  List.length l <= 3
                  /\ forall conf rank,
                      In (conf, rank) l ->
                      In (conf, rank) rankings
                      /\ Core.split_first rank = Ok c)
           rankings) with (s := Core.categories); [| |exact H].
  - intros [conf rank] s s' Hin [Hk Hl] Hb. unfold Core.example_body in Hb.
    destruct (Core.split_first rank) as [b|] eqn:Eb; [|discriminate].
    cbn [bind] in Hb.
    destruct (dict_get b s) as [ex|] eqn:Eg;
      [|injection Hb as <-; now split].
    destruct (Nat.ltb_spec (List.length ex) 3) as [Hlt|Hge];
      [|injection Hb as <-; now split].
    injection Hb as <-. split.
    + now rewrite (keys_dict_set_present _ _ _ _ Eg).
    + intros c l Hc. apply in_dict_set in Hc.
      destruct Hc as [E|Hc]; [|now apply Hl].
      injection E as -> ->.
      destruct (Hl b ex (dict_get_in _ _ _ Eg)) as [_ Hex]. split.
      * rewrite length_app. cbn. lia.
      * intros conf' rank' Hin'. apply in_app_iff in Hin'.
        destruct Hin' as [Hin'|[E|[]]]; [now apply Hex|].
        injection E as <- <-. now split.
  - split; [reflexivity|].
    intros c l Hc. cbn in Hc.
    repeat (destruct Hc as [Hc|Hc]; [injection Hc as <- <-; split;
                                     [cbn; lia|intros ? ? []]|]).
    destruct Hc.
Qed.

(** A table with four conferences of the tier [A*]: three are shown. *)
Lemma examples_per_category_witness :
  let rankings := [("a", "A* [2023]"); ("b", "A* [2021]"); ("c", "A* [2023]");
                   ("d", "A* [2023]"); ("e", "Nat: USA")] in
  let shown := [("a", "A* [2023]"); ("b", "A* [2021]"); ("c", "A* [2023]")] in
  Core.examples rankings
  = Ok [("A*", shown); ("A", []); ("B", []); ("C", []); ("Au", []);
        ("Nat", []); ("TBR", [])]
  /\ List.length shown <= 3.
Proof.
  intros rankings shown. split; [reflexivity|].
  refine (proj1 (proj2 (proj1 examples_per_category rankings _ eq_refl)
                   "A*" shown _)).
  now left.
Defined.

(** ** Keys in normal form *)

Section StripTwice.

Variable p : ascii -> bool.

Lemma lstrip_by_head (s : string) :
  match lstrip_by p s with
  | EmptyString => True
  | String c _ => p c = false
  end.
Proof.
  induction s as [|c s IH]; cbn [lstrip_by]; [exact I|].
  destruct (p c) eqn:E; [exact IH|exact E].
Qed.

Lemma lstrip_by_fixed (s : string) :
  match s with EmptyString => True | String c _ => p c = false end ->
  lstrip_by p s = s.
Proof. destruct s as [|c s]; [reflexivity|]. cbn. now intros ->. Qed.

Lemma rstrip_by_head (s : string) :
  match s with EmptyString => True | String c _ => p c = false end ->
  match rstrip_by p s with
  | EmptyString => True
  | String c _ => p c = false
  end.
Proof.
  destruct s as [|c s]; [exact (fun h => h)|]. cbn [rstrip_by]. intros Hc.
  destruct (rstrip_by p s); [now rewrite Hc|exact Hc].
Qed.

Lemma rstrip_by_twice (s : string) :
  rstrip_by p (rstrip_by p s) = rstrip_by p s.
Proof.
  induction s as [|c s IH]; [reflexivity|]. cbn [rstrip_by].
  destruct (rstrip_by p s) as [|c' t] eqn:E.
  - destruct (p c) eqn:Ec; [reflexivity|]. cbn. now rewrite Ec.
  - cbn [rstrip_by]. cbn [rstrip_by] in IH. now rewrite IH.
Qed.

Lemma strip_by_twice (s : string) :
  strip_by p (strip_by p s) = strip_by p s.
Proof.
  unfold strip_by.
  rewrite (lstrip_by_fixed (rstrip_by p (lstrip_by p s))).
  - apply rstrip_by_twice.
  - apply rstrip_by_head, lstrip_by_head.
Qed.

End StripTwice.

Lemma isspace_lower_char (c : ascii) : isspace (lower_char c) = isspace c.
Proof. each_char c; reflexivity. Qed.

Lemma lower_char_twice (c : ascii) : lower_char (lower_char c) = lower_char c.
Proof. each_char c; reflexivity. Qed.

Lemma lower_twice (s : string) : lower (lower s) = lower s.
Proof.
  induction s as [|c s IH]; [reflexivity|]. cbn.
  now rewrite lower_char_twice, IH.
Qed.

Lemma strip_lower (s : string) : strip (lower s) = lower (strip s).
Proof.
  unfold strip, strip_by.
  assert (Hl : forall s, lstrip_by isspace (lower s) = lower (lstrip_by isspace s)).
  { induction s0 as [|c s0 IH]; [reflexivity|]. cbn [lower lstrip_by].
    rewrite isspace_lower_char. destruct (isspace c); [exact IH|reflexivity]. }
  assert (Hr : forall s, rstrip_by isspace (lower s) = lower (rstrip_by isspace s)).
  { induction s0 as [|c s0 IH]; [reflexivity|]. cbn [lower rstrip_by].
    rewrite IH, isspace_lower_char.
    destruct (rstrip_by isspace s0); cbn [lower]; [|reflexivity].
    destruct (isspace c); reflexivity. }
  now rewrite Hl, Hr.
Qed.

(** X5.  The keys of the tables are in normal form: a key of an ABS or
    of an SJR table is left as it is by trimming and by lowercasing; a
    key of a CORE table is left as it is by trimming, and is not empty. *)
Theorem keys_in_normal_form :
  (forall header rows d k,
      Abs.extract_abs_rankings (Some (header :: rows)) = Ok d ->
      In k (keys d) -> strip k = k /\ lower k = k)
  /\ (forall rows st k,
         Sjr.extract_sjr_rankings (Some rows) = Ok st ->
         In k (keys (fst st)) -> strip k = k /\ lower k = k)
  /\ (forall rows st k,
         Core.extract_full_core_rankings (Some rows) = Ok st ->
         In k (keys (fst st)) -> strip k = k /\ k <> "").
Proof.
  destruct table_keys_of_titles as [Habs [Hsjr Hcore]].
  assert (Hn : forall t, strip (lower (strip t)) = lower (strip t)
                         /\ lower (lower (strip t)) = lower (strip t)).
  { intros t. split; [|apply lower_twice].
    rewrite strip_lower. f_equal. apply strip_by_twice. }
  split; [|split].
  - intros header rows d k H Hk.
    destruct (Habs header rows d k H Hk) as [row [t [_ [_ ->]]]]. apply Hn.
  - intros rows st k H Hk.
    destruct (Hsjr rows st k H Hk) as [rec [t [_ [_ ->]]]]. apply Hn.
  - intros rows st k H Hk. split.
    + destruct (Hcore rows st k H Hk) as [row [t [_ [_ ->]]]].
      apply strip_by_twice.
    + destruct (core_extract_returns rows) as [st' [H' Hne]].
      rewrite H in H'. injection H' as <-. now apply Hne.
Qed.

(** An ABS file with a padded, capitalized title. *)
Lemma keys_in_normal_form_witness :
  Abs.extract_abs_rankings
    (Some [["id"; "Title"; "Rank"]; ["1"; " Journal A "; "4*"]])
  = Ok [("journal a", {| Abs.abs := "4*" |})]
  /\ strip "journal a" = "journal a" /\ lower "journal a" = "journal a".
Proof.
  split; [reflexivity|].
  apply (proj1 keys_in_normal_form ["id"; "Title"; "Rank"]
           [["1"; " Journal A "; "4*"]] _ "journal a" eq_refl).
  now left.
Defined.

(** ** ABS: when the extraction returns, and what it returns *)

Lemma abs_row_by_length (row : list string) :
  (3 <= List.length row ->
   forall d, Abs.row_body row d
             = Ok (dict_set (lower (strip (nth 1 row "")))
                     {| Abs.abs := strip (nth 2 row "") |} d))
  /\ (List.length row < 3 -> forall d, Abs.row_body row d = Raise IndexError).
Proof.
  unfold Abs.row_body, index, bind. split; intros Hlen d.
  - destruct (nth_error row 1) as [t|] eqn:E1;
      [|apply nth_error_None in E1; lia].
    destruct (nth_error row 2) as [r|] eqn:E2;
      [|apply nth_error_None in E2; lia].
    now rewrite (nth_error_nth _ _ "" E1), (nth_error_nth _ _ "" E2).
  - destruct (nth_error row 2) as [r|] eqn:E2.
    + assert (2 < List.length row) by (apply nth_error_Some; congruence). lia.
    + now destruct (nth_error row 1).
Qed.

Lemma abs_loop_returns (rows : list (list string)) :
  forall d,
    (Forall (fun r => 3 <= List.length r) rows ->
     exists d', for_each Abs.row_body rows d = Ok d')
    /\ (Exists (fun r => List.length r < 3) rows ->
        for_each Abs.row_body rows d = Raise IndexError).
Proof.
  induction rows as [|row rows IH]; intros d; split; cbn [for_each].
  - intros _. now exists d.
  - intros H. inversion H.
  - intros H. inversion_clear H as [|? ? Hr Hrows].
    rewrite (proj1 (abs_row_by_length row) Hr). now apply IH.
  - intros H. destruct (Nat.lt_ge_cases (List.length row) 3) as [Hlt|Hge].
    + now rewrite (proj2 (abs_row_by_length row) Hlt).
    + rewrite (proj1 (abs_row_by_length row) Hge). apply IH.
      inversion_clear H as [? ? Hr|? ? Hrows]; [lia|exact Hrows].
Qed.

(** X6.  The ABS extractor returns a table exactly when the file has a
    first row and every row behind it has three fields or more; with a
    shorter row it raises [IndexError], on a file without rows
    [StopIteration]. *)
Theorem abs_returns_iff :
  Abs.extract_abs_rankings (Some []) = Raise StopIteration
  /\ forall header rows,
      ((exists d, Abs.extract_abs_rankings (Some (header :: rows)) = Ok d)
       <-> Forall (fun r => 3 <= List.length r) rows)
      /\ (Exists (fun r => List.length r < 3) rows ->
          Abs.extract_abs_rankings (Some (header :: rows)) = Raise IndexError).
Proof.
  split; [reflexivity|]. intros header rows. cbn [Abs.extract_abs_rankings].
  destruct (abs_loop_returns rows []) as [Hok Hbad].
  split; [split; [|exact Hok]|exact Hbad].
  intros [d Hd]. apply Forall_forall. intros r Hr.
  destruct (Nat.lt_ge_cases (List.length r) 3) as [Hlt|Hge]; [|exact Hge].
  rewrite Hbad in Hd; [discriminate|].
  apply Exists_exists. now exists r.
Qed.

(** A file whose last row has two fields. *)
Lemma abs_returns_iff_witness :
  Exists (fun r => List.length r < 3) [["1"; "Journal A"; "4*"]; ["2"; "B"]]
  /\ Abs.extract_abs_rankings
       (Some [["id"; "Title"; "Rank"]; ["1"; "Journal A"; "4*"]; ["2"; "B"]])
     = Raise IndexError.
Proof.
  assert (H : Exists (fun r => List.length r < 3)
                [["1"; "Journal A"; "4*"]; ["2"; "B"]])
    by (right; left; simpl; lia).
  split; [exact H|].
  apply (proj2 (proj2 abs_returns_iff ["id"; "Title"; "Rank"] _) H).
Defined.

Lemma abs_loop_snoc (rows : list (list string)) (row : list string)
      (d : dict Abs.entry) :
  for_each Abs.row_body (rows ++ [row]) [] = Ok d ->
  exists d0,
    for_each Abs.row_body rows [] = Ok d0
    /\ d = dict_set (lower (strip (nth 1 row "")))
             {| Abs.abs := strip (nth 2 row "") |} d0.
Proof.
  intros H. apply for_each_app in H. destruct H as [d0 [H0 H]].
  exists d0. split; [exact H0|]. cbn [for_each] in H.
  destruct (Nat.lt_ge_cases (List.length row) 3) as [Hlt|Hge].
  - rewrite (proj2 (abs_row_by_length row) Hlt) in H. discriminate.
  - rewrite (proj1 (abs_row_by_length row) Hge) in H. now injection H as <-.
Qed.

(** X7.  In the table that the ABS extractor returns, a key is mapped to
    the trimmed rank of the last row whose trimmed, lowercased title is
    that key, and a key that is the title of no row is absent. *)
Theorem abs_lookup_last_row :
  forall header rows d k,
    Abs.extract_abs_rankings (Some (header :: rows)) = Ok d ->
    dict_get k d
    = option_map (fun r => {| Abs.abs := strip (nth 2 r "") |})
        (find (fun r => lower (strip (nth 1 r "")) =? k) (rev rows)).
Proof.
  intros header rows d k H. cbn [Abs.extract_abs_rankings] in H.
  revert d H. induction rows as [|row rows IH] using rev_ind; intros d H.
  - cbn in H. now injection H as <-.
  - apply abs_loop_snoc in H. destruct H as [d0 [H0 ->]].
    rewrite rev_app_distr. cbn [rev app find].
    destruct (String.eqb_spec (lower (strip (nth 1 row ""))) k) as [->|Hne].
    + apply dict_get_set_same.
    + rewrite dict_get_set_other by congruence. now apply IH.
Qed.

(** A file with the title [Alpha] in two rows. *)
Lemma abs_lookup_last_row_witness :
  dict_get "alpha"
    [("alpha", {| Abs.abs := "4*" |}); ("beta", {| Abs.abs := "2" |})]
  = Some {| Abs.abs := "4*" |}.
Proof.
  apply (abs_lookup_last_row ["id"; "Title"; "Rank"]
           [["1"; "Alpha"; "3"]; ["2"; "Beta"; "2"]; ["3"; " ALPHA "; "4*"]]
           _ "alpha" eq_refl).
Defined.

Lemma keys_dict_set_order {V} (k : string) (v : V) (d : dict V) :
  keys (dict_set k v d)
  = if in_dec string_dec k (keys d) then keys d else (keys d ++ [k])%list.
Proof.
  unfold keys. induction d as [|[k0 v0] d IH]; [reflexivity|].
  cbn [dict_set map fst]. destruct (String.eqb_spec k0 k) as [->|Hne].
  - cbn [map fst]. destruct (in_dec string_dec k (k :: map fst d)) as [_|Hn];
      [reflexivity|]. exfalso. apply Hn. now left.
  - cbn [map fst]. rewrite IH.
    destruct (in_dec string_dec k (map fst d)) as [Hin|Hn];
      destruct (in_dec string_dec k (k0 :: map fst d)) as [Hin'|Hn'];
      try reflexivity.
    + exfalso. apply Hn'. now right.
    + exfalso. destruct Hin' as [E|Hin']; [congruence|contradiction].
Qed.

(** X8.  The keys of the table that the ABS extractor returns are the
    trimmed, lowercased titles of the rows, each once, in the order in
    which they first occur in the file. *)
Theorem abs_keys_first_occurrence :
  forall header rows d,
    Abs.extract_abs_rankings (Some (header :: rows)) = Ok d ->
    keys d
    = rev (nodup string_dec
             (rev (map (fun r => lower (strip (nth 1 r ""))) rows))).
Proof.
  intros header rows d H. cbn [Abs.extract_abs_rankings] in H.
  revert d H. induction rows as [|row rows IH] using rev_ind; intros d H.
  - cbn in H. now injection H as <-.
  - apply abs_loop_snoc in H. destruct H as [d0 [H0 ->]].
    rewrite keys_dict_set_order, (IH d0 H0).
    rewrite map_app, rev_app_distr. cbn [map rev app nodup].
    set (k := lower (strip (nth 1 row ""))).
    set (ks := rev (map (fun r => lower (strip (nth 1 r ""))) rows)).
    destruct (in_dec string_dec k (rev (nodup string_dec ks))) as [Hin|Hn];
      destruct (in_dec string_dec k ks) as [Hin'|Hn']; try reflexivity.
    + exfalso. apply Hn'. apply in_rev in Hin. now apply nodup_In in Hin.
    + exfalso. apply Hn. apply -> in_rev. now apply nodup_In.
Qed.

(** A file with the titles [Beta], [Alpha], [Beta]. *)
Lemma abs_keys_first_occurrence_witness :
  keys [("beta", {| Abs.abs := "1" |}); ("alpha", {| Abs.abs := "3" |})]
  = ["beta"; "alpha"].
Proof.
  apply (abs_keys_first_occurrence ["id"; "Title"; "Rank"]
           [["1"; "Beta"; "2"]; ["2"; "Alpha"; "3"]; ["3"; "beta"; "1"]]
           _ eq_refl).
Defined.

(** ** SJR: the columns of the file *)

Lemma dict_get_none {V} (k : string) (d : dict V) :
  dict_get k d = None <-> ~ In k (keys d).
Proof.
  unfold keys. induction d as [|[k0 v0] d IH]; cbn [dict_get map fst In].
  - intuition.
  - destruct (String.eqb_spec k0 k) as [->|Hne].
    + split; [discriminate|]. intros H. exfalso. apply H. now left.
    + rewrite IH. intuition.
Qed.

Lemma keys_zip_fields (fieldnames : list string) :
  forall (row : list string) (d : record) k,
    In k (keys (zip_fields fieldnames row d))
    <-> In k (keys d) \/ In k (firstn (List.length row) fieldnames).
Proof.
  induction fieldnames as [|f fs IH]; intros row d k.
  - cbn [zip_fields]. rewrite firstn_nil. cbn [In]. intuition.
  - destruct row as [|v row]; cbn [zip_fields List.length firstn In].
    + intuition.
    + rewrite IH, keys_dict_set. intuition.
Qed.

Lemma keys_fill_restval (fieldnames : list string) :
  forall (d : record) k,
    In k (keys (fill_restval fieldnames d)) <-> In k (keys d) \/ In k fieldnames.
Proof.
  unfold fill_restval.
  induction fieldnames as [|f fs IH]; intros d k; cbn [fold_left In].
  - intuition.
  - rewrite IH, keys_dict_set. intuition.
Qed.

(** A record holds exactly the field names as its keys. *)
Lemma keys_dict_row (fieldnames row : list string) (k : string) :
  In k (keys (dict_row fieldnames row)) <-> In k fieldnames.
Proof.
  unfold dict_row. rewrite keys_fill_restval, keys_zip_fields.
  rewrite <- (firstn_skipn (List.length row) fieldnames) at 3.
  rewrite in_app_iff. cbn [keys map In]. intuition.
Qed.

Lemma sjr_row_missing (rec : record) :
  dict_get "Title" rec = None \/ dict_get "SJR" rec = None
  \/ dict_get "SJR Best Quartile" rec = None ->
  exists e, (e = KeyError \/ e = AttributeError)
            /\ (dict_get "Title" rec = None -> e = KeyError)
            /\ forall st, Sjr.row_body rec st = Raise e.
Proof.
  intros H. unfold Sjr.row_body, getitem, as_str.
  destruct (dict_get "Title" rec) as [[t|]|];
    [|exists AttributeError|exists KeyError].
  2,3: split; [auto|split; [intros ?; first [reflexivity|discriminate]
                           |intros [d out]; reflexivity]].
  destruct (dict_get "SJR" rec) as [[s|]|];
    [|exists AttributeError|exists KeyError].
  2,3: split; [auto|split; [intros ?; first [reflexivity|discriminate]
                           |intros [d out]; reflexivity]].
  destruct (dict_get "SJR Best Quartile" rec) as [[q|]|];
    [|exists AttributeError|exists KeyError].
  2,3: split; [auto|split; [intros ?; first [reflexivity|discriminate]
                           |intros [d out]; reflexivity]].
  destruct H as [H|[H|H]]; discriminate.
Qed.

(** X9.  When the first row of an SJR file lacks one of the three column
    names, the extractor returns the empty table if every row behind it
    is empty, and otherwise raises at the first row that is not:
    [KeyError] when the name [Title] is the one that lacks, [KeyError]
    or [AttributeError] in general. *)
Theorem sjr_missing_column :
  forall header rows,
    ~ In "Title" header \/ ~ In "SJR" header
    \/ ~ In "SJR Best Quartile" header ->
    (Forall (fun r => r = []) rows ->
     Sjr.extract_sjr_rankings (Some (header :: rows)) = Ok ([], []))
    /\ (Exists (fun r => r <> []) rows ->
        exists e,
          Sjr.extract_sjr_rankings (Some (header :: rows)) = Raise e
          /\ (e = KeyError \/ e = AttributeError)
          /\ (~ In "Title" header -> e = KeyError)).
Proof.
  intros header rows Hmiss.
  cbn [Sjr.extract_sjr_rankings DictReader]. split.
  - intros Hall.
    replace (filter (fun r => negb (is_blank r)) rows) with (@nil (list string));
      [reflexivity|].
    induction Hall as [|r rows -> _ IH]; [reflexivity|exact IH].
  - intros Hex.
    assert (Hf : exists r rest,
               filter (fun r => negb (is_blank r)) rows = r :: rest).
    { induction Hex as [r rows Hr|r rows _ IH]; cbn [filter].
      - destruct r; [congruence|]. cbn. eauto.
      - destruct (negb (is_blank r)); [eauto|exact IH]. }
    destruct Hf as [r [rest ->]]. cbn [map for_each].
    destruct (sjr_row_missing (dict_row header r)) as [e [He [Ht Hr]]].
    { rewrite !dict_get_none, !keys_dict_row. exact Hmiss. }
    exists e. rewrite Hr. split; [reflexivity|]. split; [exact He|].
    intros Hn. apply Ht. now rewrite dict_get_none, keys_dict_row.
Qed.

(** A file whose first row names the title column [Journal]. *)
Lemma sjr_missing_column_witness :
  ~ In "Title" ["Journal"; "SJR"; "SJR Best Quartile"]
  /\ exists e,
      Sjr.extract_sjr_rankings
        (Some [["Journal"; "SJR"; "SJR Best Quartile"]; []; ["Nature"; "1,5"; "Q1"]])
      = Raise e
      /\ (e = KeyError \/ e = AttributeError)
      /\ (~ In "Title" ["Journal"; "SJR"; "SJR Best Quartile"] -> e = KeyError).
Proof.
  assert (H : ~ In "Title" ["Journal"; "SJR"; "SJR Best Quartile"])
    by (simpl; intuition discriminate).
  split; [exact H|].
  apply (proj2 (sjr_missing_column ["Journal"; "SJR"; "SJR Best Quartile"]
                  [[]; ["Nature"; "1,5"; "Q1"]] (or_introl H))).
  right. left. discriminate.
Defined.

Lemma dict_get_some_in {V} (k : string) (d : dict V) :
  In k (keys d) -> exists v, dict_get k d = Some v.
Proof.
  intros H. destruct (dict_get k d) as [v|] eqn:E; [now exists v|].
  now apply dict_get_none in E.
Qed.

Lemma zip_fields_full (fieldnames : list string) :
  forall (row : list string) (d : record) k,
    List.length fieldnames <= List.length row ->
    (forall k v, dict_get k d = Some v -> exists s, v = Some s) ->
    In k fieldnames \/ In k (keys d) ->
    exists s, dict_get k (zip_fields fieldnames row d) = Some (Some s).
Proof.
  induction fieldnames as [|f fs IH]; intros row d k Hlen Hd Hk.
  - cbn [zip_fields]. destruct Hk as [[]|Hk].
    destruct (dict_get_some_in k d Hk) as [v E].
    destruct (Hd k v E) as [s ->]. now exists s.
  - destruct row as [|v row]; [cbn in Hlen; lia|]. cbn [zip_fields].
    apply IH.
    + cbn in Hlen. lia.
    + intros k' v' E. destruct (String.eqb_spec k' f) as [->|Hne].
      * rewrite dict_get_set_same in E. injection E as <-. now exists v.
      * rewrite dict_get_set_other in E by exact Hne. eapply Hd; eauto.
    + rewrite keys_dict_set. destruct Hk as [[<-|Hk]|Hk]; auto.
Qed.

Lemma dict_row_full (fieldnames row : list string) (k : string) :
  List.length fieldnames <= List.length row ->
  In k fieldnames ->
  exists s, dict_get k (dict_row fieldnames row) = Some (Some s).
Proof.
  intros Hlen Hk. unfold dict_row.
  rewrite skipn_all2 by exact Hlen. cbn [fill_restval fold_left].
  apply zip_fields_full; auto. intros k' v' E. discriminate.
Qed.

(** X10.  When the first row of an SJR file holds the three column names
    and every row behind it is empty or has at least as many fields as
    the first, the extractor returns: no such row raises. *)
Theorem sjr_full_rows_return :
  forall header rows,
    In "Title" header -> In "SJR" header -> In "SJR Best Quartile" header ->
    Forall (fun r => r = [] \/ List.length header <= List.length r) rows ->
    exists st, Sjr.extract_sjr_rankings (Some (header :: rows)) = Ok st.
Proof.
  intros header rows Ht Hs Hq Hrows.
  cbn [Sjr.extract_sjr_rankings DictReader].
  destruct (for_each_total Sjr.row_body (fun _ => True)
              (map (dict_row header)
                 (filter (fun r => negb (is_blank r)) rows)))
    with (s := (@nil (string * Sjr.entry), @nil diag)) as [st [H _]];
    [|exact I|now exists st].
  intros rec [d out] Hin _. apply in_map_iff in Hin.
  destruct Hin as [r [<- Hr]]. apply filter_In in Hr. destruct Hr as [Hr Hnb].
  rewrite Forall_forall in Hrows.
  destruct (Hrows r Hr) as [->|Hlen]; [discriminate|].
  destruct (dict_row_full header r "Title" Hlen Ht) as [t Et].
  destruct (dict_row_full header r "SJR" Hlen Hs) as [s Es].
  destruct (dict_row_full header r "SJR Best Quartile" Hlen Hq) as [q Eq].
  rewrite (sjr_row_resolved _ t s q d out Et Es Eq).
  destruct (float _); eexists; now split.
Qed.

(** A file with an empty row and a row of an unparsable value. *)
Lemma sjr_full_rows_return_witness :
  exists st,
    Sjr.extract_sjr_rankings
      (Some [["Rank"; "Title"; "SJR"; "SJR Best Quartile"]; [];
             ["1"; "Nature"; "n/a"; "Q1"; "extra"]])
    = Ok st.
Proof.
  apply (sjr_full_rows_return ["Rank"; "Title"; "SJR"; "SJR Best Quartile"]
           [[]; ["1"; "Nature"; "n/a"; "Q1"; "extra"]]);
    [simpl; auto .. |].
  apply Forall_cons; [now left|].
  apply Forall_cons; [right; simpl; lia|apply Forall_nil].
Defined.

(** ** SJR: the stored entries *)

Lemma sjr_row_entry (rec : record) :
  (exists e, forall st, Sjr.row_body rec st = Raise e)
  \/ (exists w, forall d out,
         Sjr.row_body rec (d, out) = Ok (d, (out ++ [w])%list))
  \/ (exists k s q f,
         float (replace "," "." (strip s)) = Ok f
         /\ forall d out,
             Sjr.row_body rec (d, out)
             = Ok (dict_set k
                     {| Sjr.sjr := f;
                        Sjr.quartile := if truthy (strip q) then strip q
                                        else "-" |} d, out)).
Proof.
  destruct (dict_get "Title" rec) as [[t|]|] eqn:H1.
  2,3: left; eexists; intros [d out];
       unfold Sjr.row_body, getitem, as_str, bind; rewrite H1; reflexivity.
  destruct (dict_get "SJR" rec) as [[s|]|] eqn:H2.
  2,3: left; eexists; intros [d out];
       unfold Sjr.row_body, getitem, as_str, bind; rewrite H1, H2; reflexivity.
  destruct (dict_get "SJR Best Quartile" rec) as [[q|]|] eqn:H3.
  2,3: left; eexists; intros [d out];
       unfold Sjr.row_body, getitem, as_str, bind; rewrite H1, H2, H3;
       reflexivity.
  right.
  pose proof (fun d out => sjr_row_resolved rec t s q d out H1 H2 H3) as Heq.
  destruct (float (replace "," "." (strip s))) as [f|e] eqn:E.
  - right. exists (lower (strip (strip_chars dq t))), s, q, f.
    split; [exact E|exact Heq].
  - left. eexists. exact Heq.
Qed.

(** X11.  In a table that the SJR extractor returns, the quartile of
    every entry is trimmed and not empty, and the SJR value of every
    entry is what [float] returns on a text without comma. *)
Theorem sjr_entries_well_formed :
  forall rows st k e,
    Sjr.extract_sjr_rankings (Some rows) = Ok st ->
    In (k, e) (fst st) ->
    Sjr.quartile e <> "" /\ strip (Sjr.quartile e) = Sjr.quartile e
    /\ exists text, count_char "," text = 0 /\ float text = Ok (Sjr.sjr e).
Proof.
  intros rows st k e H. cbn [Sjr.extract_sjr_rankings] in H. revert k e.
  apply (for_each_invariant Sjr.row_body
           (fun st => forall k e, In (k, e) (fst st) ->
               Sjr.quartile e <> "" /\ strip (Sjr.quartile e) = Sjr.quartile e
               /\ exists text, count_char "," text = 0
                               /\ float text = Ok (Sjr.sjr e))
           (DictReader rows)) with (s := ([], [])); [|intros k e []|exact H].
  intros rec [d out] st' _ IH Hb k e Hin. cbn [fst] in IH.
  destruct (sjr_row_entry rec) as [[x Hr]|[[w Hw]|[k0 [s [q [f [Hf Hs]]]]]]].
  - rewrite Hr in Hb. discriminate.
  - rewrite Hw in Hb. injection Hb as <-. now apply (IH k e).
  - rewrite Hs in Hb. injection Hb as <-. cbn [fst] in Hin.
    apply in_dict_set in Hin. destruct Hin as [E|Hin]; [|now apply (IH k e)].
    injection E as _ ->. cbn [Sjr.quartile Sjr.sjr]. split; [|split].
    + destruct (truthy (strip q)) eqn:Eq; [now apply truthy_true|discriminate].
    + destruct (truthy (strip q)); [apply strip_by_twice|reflexivity].
    + exists (replace "," "." (strip s)). split; [|exact Hf].
      apply replace_comma_counts.
Qed.

(** A file with a blank quartile. *)
Lemma sjr_entries_well_formed_witness :
  let e := {| Sjr.sjr := FDec false 15 (-1); Sjr.quartile := "-" |} in
  Sjr.extract_sjr_rankings
    (Some [["Title"; "SJR"; "SJR Best Quartile"]; ["Nature"; "1,5"; " "]])
  = Ok ([("nature", e)], [])
  /\ Sjr.quartile e <> "".
Proof.
  intros e. split; [reflexivity|].
  refine (proj1 (sjr_entries_well_formed
                   [["Title"; "SJR"; "SJR Best Quartile"]; ["Nature"; "1,5"; " "]]
                   _ "nature" e eq_refl _)).
  now left.
Defined.

(** ** What the output files keep of the table *)

(** Reading up to the first quote character. *)
Lemma split_at_quote (t1 : string) :
  forall t2 x y,
    count_char "034" t1 = 0 -> count_char "034" t2 = 0 ->
    t1 ++ String "034" x = t2 ++ String "034" y ->
    t1 = t2 /\ x = y.
Proof.
  induction t1 as [|c t1 IH]; intros [|c2 t2] x y H1 H2 E; cbn [append] in E.
  - injection E as ->. now split.
  - injection E as <- _. cbn in H2. discriminate.
  - injection E as -> _. cbn in H1. discriminate.
  - injection E as <- E. cbn [count_char] in H1, H2.
    destruct (c =? "034")%char; [discriminate|].
    destruct (IH t2 x y H1 H2 E) as [-> ->]. now split.
Qed.

Lemma abs_js_line_app (t : string) (e : Abs.entry) (c rest : string) :
  Abs.js_line t e c ++ rest
  = "    " ++ String "034"
      (t ++ String "034"
         (": {abs: " ++ String "034"
            (Abs.abs e ++ String "034" (String "}" (c ++ String "010" rest))))).
Proof.
  unfold Abs.js_line, dq, nl. now rewrite !append_assoc.
Qed.

Lemma abs_lines_determine (es1 : list (string * Abs.entry)) :
  forall es2 i1 i2 n1 n2,
    n1 = i1 + List.length es1 -> n2 = i2 + List.length es2 ->
    (forall k e, In (k, e) es1 \/ In (k, e) es2 ->
                 count_char "034" k = 0 /\ count_char "034" (Abs.abs e) = 0) ->
    concat ""
      (map (fun ix => Abs.js_line (fst (snd ix)) (snd (snd ix))
                        (Abs.comma_at (fst ix) n1))
         (enumerate_from i1 es1)) ++ "};" ++ nl
    = concat ""
        (map (fun ix => Abs.js_line (fst (snd ix)) (snd (snd ix))
                          (Abs.comma_at (fst ix) n2))
           (enumerate_from i2 es2)) ++ "};" ++ nl ->
    es1 = es2.
Proof.
  induction es1 as [|[t1 e1] es1 IH]; intros [|[t2 e2] es2] i1 i2 n1 n2
    Hn1 Hn2 Hq E; cbn [enumerate_from map fst snd] in E.
  - reflexivity.
  - rewrite concat_cons, append_assoc, abs_js_line_app in E. discriminate.
  - rewrite concat_cons, append_assoc, abs_js_line_app in E. discriminate.
  - rewrite !concat_cons, !append_assoc, !abs_js_line_app in E.
    destruct (Hq t1 e1) as [Ht1 Hr1]; [left; now left|].
    destruct (Hq t2 e2) as [Ht2 Hr2]; [right; now left|].
    cbn [append] in E. injection E as E.
    apply split_at_quote in E; [|assumption..]. destruct E as [<- E].
    injection E as E.
    apply split_at_quote in E; [|assumption..]. destruct E as [Hr E].
    injection E as E.
    assert (He : e1 = e2) by (destruct e1, e2; cbn in Hr; now subst).
    subst e2. f_equal.
    cbn [List.length] in Hn1, Hn2.
    assert (Hq' : forall k e, In (k, e) es1 \/ In (k, e) es2 ->
                              count_char "034" k = 0
                              /\ count_char "034" (Abs.abs e) = 0).
    { intros k e [H|H]; apply (Hq k e); [left|right]; now right. }
    unfold Abs.comma_at in E at 1 3.
    destruct (Z.ltb_spec (Z.of_nat i1) (Z.of_nat n1 - 1)) as [L1|L1];
      destruct (Z.ltb_spec (Z.of_nat i2) (Z.of_nat n2 - 1)) as [L2|L2];
      cbn [append] in E.
    + injection E as E.
      apply (IH es2 (S i1) (S i2) n1 n2); [lia|lia|exact Hq'|exact E].
    + discriminate.
    + discriminate.
    + injection E as E.
      apply (IH es2 (S i1) (S i2) n1 n2); [lia|lia|exact Hq'|exact E].
Qed.

(** X12.  Two ABS tables none of whose titles and ranks holds a double
    quote, and for which [generate_javascript_dict] writes the same
    script file, have the same entries. *)
Theorem abs_script_determines_entries :
  forall d1 d2 : dict Abs.entry,
    (forall k e, In (k, e) d1 \/ In (k, e) d2 ->
                 count_char "034" k = 0 /\ count_char "034" (Abs.abs e) = 0) ->
    Abs.generate_javascript_dict d1 = Abs.generate_javascript_dict d2 ->
    sorted d1 = sorted d2 /\ Permutation d1 d2.
Proof.
  intros d1 d2 Hq E.
  assert (Hs : sorted d1 = sorted d2).
  { unfold Abs.generate_javascript_dict, enumerate in E.
    cbn [append] in E.
    repeat (injection E as E).
    apply (abs_lines_determine _ _ 0 0 (List.length d1) (List.length d2)).
    - now rewrite sorted_length.
    - now rewrite sorted_length.
    - intros k e [H|H]; apply (Hq k e); [left|right];
        eapply Permutation_in; try exact H; symmetry; apply sorted_perm.
    - exact E. }
  split; [exact Hs|].
  rewrite (sorted_perm d1), Hs. symmetry. apply sorted_perm.
Qed.

(** Two tables with the same entries in a different order. *)
Lemma abs_script_determines_entries_witness :
  let d1 := [("zeta", {| Abs.abs := "3" |}); ("alpha", {| Abs.abs := "4*" |})] in
  let d2 := [("alpha", {| Abs.abs := "4*" |}); ("zeta", {| Abs.abs := "3" |})] in
  Abs.generate_javascript_dict d1 = Abs.generate_javascript_dict d2
  /\ sorted d1 = sorted d2 /\ Permutation d1 d2.
Proof.
  intros d1 d2. split; [reflexivity|].
  apply (abs_script_determines_entries d1 d2); [|reflexivity].
  intros k e [H|H]; cbn in H;
    repeat (destruct H as [H|H]; [injection H as <- <-; now split|]);
    destruct H.
Defined.

(** An escaped character can be read back from the front of a text, and
    a quote is not the front of an escaped character. *)
Lemma json_escape_char_readable :
  exists read : string -> option (ascii * string),
    (forall c rest, read (json_escape_char c ++ rest) = Some (c, rest))
    /\ (forall rest, read (String "034" rest) = None).
Proof.
  pose (hex := fun h : ascii =>
                 (if ord h <? 58 then ord h - 48 else ord h - 87)%N).
  exists (fun s =>
            match s with
            | EmptyString => None
            | String c r =>
                if (ord c =? 34)%N then None
                else if (ord c =? 92)%N then
                  match r with
                  | EmptyString => None
                  | String x r1 =>
                      if (ord x =? 117)%N then
                        match r1 with
                        | String _ (String _ (String h1 (String h2 r2))) =>
                            Some (chr (16 * hex h1 + hex h2), r2)
                        | _ => None
                        end
                      else if (ord x =? 98)%N then Some (chr 8, r1)
                      else if (ord x =? 102)%N then Some (chr 12, r1)
                      else if (ord x =? 110)%N then Some (chr 10, r1)
                      else if (ord x =? 114)%N then Some (chr 13, r1)
                      else if (ord x =? 116)%N then Some (chr 9, r1)
                      else Some (x, r1)
                  end
                else Some (c, r)
            end).
  split; [|reflexivity].
  intros c rest. each_char c; reflexivity.
Qed.

Lemma json_escape_determines (s1 : string) :
  forall s2 x y,
    json_escape s1 ++ String "034" x = json_escape s2 ++ String "034" y ->
    s1 = s2 /\ x = y.
Proof.
  destruct json_escape_char_readable as [read [Hc Hq]].
  induction s1 as [|c1 s1 IH]; intros [|c2 s2] x y E;
    cbn [json_escape] in E; rewrite ?append_assoc in E.
  - cbn in E. injection E as ->. now split.
  - apply (f_equal read) in E. cbn [append] in E.
    rewrite Hq, Hc in E. discriminate.
  - apply (f_equal read) in E. cbn [append] in E.
    rewrite Hq, Hc in E. discriminate.
  - apply (f_equal read) in E. rewrite !Hc in E. injection E as <- E.
    destruct (IH s2 x y E) as [-> ->]. now split.
Qed.

Lemma json_string_determines (s1 s2 x y : string) :
  json_string s1 ++ x = json_string s2 ++ y -> s1 = s2 /\ x = y.
Proof.
  unfold json_string, dq. rewrite !append_assoc. cbn [append].
  intros E. injection E as E. now apply json_escape_determines in E.
Qed.

Lemma core_members_determine (d1 : dict string) :
  forall d2 x y,
    (forall c r, x = String c r -> c <> ","%char) ->
    (forall c r, y = String c r -> c <> ","%char) ->
    x <> "" -> y <> "" ->
    concat ("," ++ nl)
      (map (fun kv => spaces 2 ++ json_string (fst kv) ++ ": " ++ snd kv)
         (map (fun kv => (fst kv, json_string (snd kv))) (d1)))
    ++ x
    = concat ("," ++ nl)
        (map (fun kv => spaces 2 ++ json_string (fst kv) ++ ": " ++ snd kv)
           (map (fun kv => (fst kv, json_string (snd kv))) d2))
      ++ y ->
    d1 <> [] -> d2 <> [] -> d1 = d2 /\ x = y.
Proof.
  assert (Hmem : forall (k v : string) t k' v' t',
             (spaces 2 ++ json_string k ++ ": " ++ json_string v) ++ t
             = (spaces 2 ++ json_string k' ++ ": " ++ json_string v') ++ t' ->
             k = k' /\ v = v' /\ t = t').
  { intros k v t k' v' t' E. unfold json_string, dq in E.
    rewrite !append_assoc in E. cbn [spaces append] in E.
    repeat (injection E as E).
    apply json_escape_determines in E. destruct E as [-> E].
    repeat (injection E as E).
    apply json_escape_determines in E. destruct E as [-> ->]. auto. }
  induction d1 as [|[k1 v1] d1 IH]; intros [|[k2 v2] d2] x y Hx Hy Hxe Hye E
    Hn1 Hn2; try congruence.
  cbn [map fst snd] in E.
  destruct d1 as [|e1 d1], d2 as [|e2 d2].
  - cbn [map concat] in E. apply Hmem in E. destruct E as [-> [-> ->]].
    now split.
  - exfalso. cbn [map] in E.
    change (concat ("," ++ nl) (?a :: ?b :: ?l))
      with (a ++ ("," ++ nl) ++ concat ("," ++ nl) (b :: l)) in E.
    change (concat ("," ++ nl) [?a]) with a in E.
    rewrite (append_assoc _ _ y) in E.
    apply Hmem in E. destruct E as [_ [_ E]].
    destruct x as [|c r]; [congruence|]. rewrite append_assoc in E.
    cbn [append] in E. injection E as E _. now apply (Hx c r).
  - exfalso. cbn [map] in E.
    change (concat ("," ++ nl) (?a :: ?b :: ?l))
      with (a ++ ("," ++ nl) ++ concat ("," ++ nl) (b :: l)) in E.
    change (concat ("," ++ nl) [?a]) with a in E.
    rewrite (append_assoc _ _ x) in E.
    apply Hmem in E. destruct E as [_ [_ E]].
    destruct y as [|c r]; [congruence|]. rewrite append_assoc in E.
    cbn [append] in E. injection E as E _. symmetry in E. now apply (Hy c r).
  - cbn [map] in E.
    change (concat ("," ++ nl) (?a :: ?b :: ?l))
      with (a ++ ("," ++ nl) ++ concat ("," ++ nl) (b :: l)) in E.
    rewrite !(append_assoc _ _ x), !(append_assoc _ _ y) in E.
    apply Hmem in E. destruct E as [-> [-> E]].
    rewrite !append_assoc in E. cbn [append nl] in E. repeat (injection E as E).
    destruct (IH (e2 :: d2) x y Hx Hy Hxe Hye) as [-> ->];
      [exact E|discriminate|discriminate|].
    now split.
Qed.

Lemma append_cancel_r (a : string) :
  forall b c, a ++ c = b ++ c -> a = b.
Proof.
  assert (Hlen : forall a b, length (a ++ b) = length a + length b).
  { induction a0 as [|x a0 IH]; intros b; cbn; [reflexivity|now rewrite IH]. }
  induction a as [|x a IH]; intros [|y b] c E; cbn [append] in E.
  - reflexivity.
  - apply (f_equal length) in E. cbn [length] in E. rewrite Hlen in E. lia.
  - apply (f_equal length) in E. cbn [length] in E. rewrite Hlen in E. lia.
  - injection E as <- E. f_equal. now apply (IH b c).
Qed.

(** X13.  The two files of the CORE extractor keep the whole table:
    tables with the same JSON file, or with the same script file, are
    the same table, entry for entry and in the same order. *)
Theorem core_files_determine_table :
  forall d1 d2 : dict string,
    (Core.json_dump d1 = Core.json_dump d2 -> d1 = d2)
    /\ (Core.javascript d1 = Core.javascript d2 -> d1 = d2).
Proof.
  intros d1 d2.
  assert (Hj : Core.json_dump d1 = Core.json_dump d2 -> d1 = d2).
  { unfold Core.json_dump, json_object.
    destruct d1 as [|e1 d1], d2 as [|e2 d2]; cbn [map].
    - reflexivity.
    - intros E. cbn in E. discriminate.
    - intros E. cbn in E. discriminate.
    - intros E. cbn [append nl] in E. repeat (injection E as E).
      change (?f e1 :: map ?f d1) with (map f (e1 :: d1)) in E.
      change (?f e2 :: map ?f d2) with (map f (e2 :: d2)) in E.
      cbn [Nat.mul Nat.add] in E.
      apply (core_members_determine (e1 :: d1) (e2 :: d2)) in E;
        try discriminate; [now destruct E| |];
        intros c r H; injection H as <- _; discriminate. }
  split; [exact Hj|].
  unfold Core.javascript. intros E. cbn [append] in E.
  repeat (injection E as E). apply append_cancel_r in E. now apply Hj.
Qed.

(** A table against itself. *)
Lemma core_files_determine_table_witness :
  [("ICSE", "A* [2023]"); ("ACSW", "Au B")]
  = [("ICSE", "A* [2023]"); ("ACSW", "Au B")] :> dict string.
Proof.
  apply (proj1 (core_files_determine_table
                  [("ICSE", "A* [2023]"); ("ACSW", "Au B")]
                  [("ICSE", "A* [2023]"); ("ACSW", "Au B")]) eq_refl).
Defined.

Section Members.

Context {V : Type}.
Variable enc : V -> string.
Hypothesis enc_determines :
  forall v v' t t', enc v ++ t = enc v' ++ t' -> v = v' /\ t = t'.

(** The members of a top-level object, read back one by one. *)
Lemma json_members_determine (d1 : dict V) :
  forall d2 x y,
    (forall c r, x = String c r -> c <> ","%char) ->
    (forall c r, y = String c r -> c <> ","%char) ->
    x <> "" -> y <> "" ->
    concat ("," ++ nl)
      (map (fun kv => spaces 2 ++ json_string (fst kv) ++ ": " ++ snd kv)
         (map (fun kv => (fst kv, enc (snd kv))) d1))
    ++ x
    = concat ("," ++ nl)
        (map (fun kv => spaces 2 ++ json_string (fst kv) ++ ": " ++ snd kv)
           (map (fun kv => (fst kv, enc (snd kv))) d2))
      ++ y ->
    d1 <> [] -> d2 <> [] -> d1 = d2 /\ x = y.
Proof.
  assert (Hmem : forall (k : string) v t k' v' t',
             (spaces 2 ++ json_string k ++ ": " ++ enc v) ++ t
             = (spaces 2 ++ json_string k' ++ ": " ++ enc v') ++ t' ->
             k = k' /\ v = v' /\ t = t').
  { intros k v t k' v' t' E. unfold json_string, dq in E.
    rewrite !append_assoc in E. cbn [spaces append] in E.
    repeat (injection E as E).
    apply json_escape_determines in E. destruct E as [-> E].
    repeat (injection E as E).
    apply enc_determines in E. destruct E as [-> ->]. auto. }
  induction d1 as [|[k1 v1] d1 IH]; intros [|[k2 v2] d2] x y Hx Hy Hxe Hye E
    Hn1 Hn2; try congruence.
  cbn [map fst snd] in E.
  destruct d1 as [|e1 d1], d2 as [|e2 d2].
  - cbn [map concat] in E. apply Hmem in E. destruct E as [-> [-> ->]].
    now split.
  - exfalso. cbn [map] in E.
    change (concat ("," ++ nl) (?a :: ?b :: ?l))
      with (a ++ ("," ++ nl) ++ concat ("," ++ nl) (b :: l)) in E.
    change (concat ("," ++ nl) [?a]) with a in E.
    rewrite (append_assoc _ _ y) in E.
    apply Hmem in E. destruct E as [_ [_ E]].
    destruct x as [|c r]; [congruence|]. rewrite append_assoc in E.
    cbn [append] in E. injection E as E _. now apply (Hx c r).
  - exfalso. cbn [map] in E.
    change (concat ("," ++ nl) (?a :: ?b :: ?l))
      with (a ++ ("," ++ nl) ++ concat ("," ++ nl) (b :: l)) in E.
    change (concat ("," ++ nl) [?a]) with a in E.
    rewrite (append_assoc _ _ x) in E.
    apply Hmem in E. destruct E as [_ [_ E]].
    destruct y as [|c r]; [congruence|]. rewrite append_assoc in E.
    cbn [append] in E. injection E as E _. symmetry in E. now apply (Hy c r).
  - cbn [map] in E.
    change (concat ("," ++ nl) (?a :: ?b :: ?l))
      with (a ++ ("," ++ nl) ++ concat ("," ++ nl) (b :: l)) in E.
    rewrite !(append_assoc _ _ x), !(append_assoc _ _ y) in E.
    apply Hmem in E. destruct E as [-> [-> E]].
    rewrite !append_assoc in E. cbn [append nl] in E.
    repeat (injection E as E).
    destruct (IH (e2 :: d2) x y Hx Hy Hxe Hye) as [-> ->];
      [exact E|discriminate|discriminate|].
    now split.
Qed.

End Members.

Lemma abs_entry_determines (e e' : Abs.entry) (t t' : string) :
  json_object 1 [("abs", json_string (Abs.abs e))] ++ t
  = json_object 1 [("abs", json_string (Abs.abs e'))] ++ t' ->
  e = e' /\ t = t'.
Proof.
  unfold json_object. cbn [map concat fst snd Nat.mul Nat.add spaces].
  unfold json_string at 1 3. unfold dq, nl. cbn [json_escape json_escape_char].
  rewrite !append_assoc. cbn. intros E. repeat (injection E as E).
  unfold dq in E. rewrite !append_assoc in E. cbn [append] in E.
  apply json_escape_determines in E. destruct E as [Hr E].
  repeat (injection E as E).
  split; [destruct e, e'; cbn in Hr; now subst|exact E].
Qed.

(** X14.  The JSON file of the ABS extractor keeps the whole table:
    tables with the same [abs_rankings.json] text are the same table,
    entry for entry and in the same order, whatever characters the
    titles and ranks hold. *)
Theorem abs_json_determines_table :
  forall d1 d2 : dict Abs.entry,
    Abs.json_dump d1 = Abs.json_dump d2 -> d1 = d2.
Proof.
  intros d1 d2. unfold Abs.json_dump.
  unfold json_object at 1 3.
  destruct d1 as [|e1 d1], d2 as [|e2 d2]; cbn [map].
  - reflexivity.
  - intros E. cbn in E. discriminate.
  - intros E. cbn in E. discriminate.
  - intros E. cbn [append nl] in E. repeat (injection E as E).
    change ((fst e1, ?f (snd e1)) :: map ?g d1) with (map g (e1 :: d1)) in E.
    change ((fst e2, ?f (snd e2)) :: map ?g d2) with (map g (e2 :: d2)) in E.
    cbn [Nat.mul Nat.add] in E.
    apply (json_members_determine
             (fun e => json_object 1 [("abs", json_string (Abs.abs e))])
             abs_entry_determines (e1 :: d1) (e2 :: d2)) in E;
      try discriminate; [now destruct E| |];
      intros c r H; injection H as <- _; discriminate.
Qed.

(** A title with a quote and a backslash. *)
Lemma abs_json_determines_table_witness :
  let d := [("a" ++ dq ++ "b\", {| Abs.abs := "4*" |})] in
  d = d.
Proof.
  intros d. apply (abs_json_determines_table d d eq_refl).
Defined.

(** ** Nothing is removed from a table *)

Lemma key_kept_by_loop {R S V : Type} (body : R -> S -> result S)
      (tbl : S -> dict V) (k : string) (r : R) (pre post : list R) :
  (forall s s', body r s = Ok s' -> In k (keys (tbl s'))) ->
  (forall x s s', body x s = Ok s' ->
                  In k (keys (tbl s)) -> In k (keys (tbl s'))) ->
  forall s s',
    for_each body (pre ++ r :: post) s = Ok s' -> In k (keys (tbl s')).
Proof.
  intros Hr Hkeep s s' H. apply for_each_app in H.
  destruct H as [s1 [_ H]]. cbn [for_each] in H.
  destruct (body r s1) as [s2|] eqn:E; [|discriminate].
  apply (for_each_invariant body (fun t => In k (keys (tbl t))) post)
    with (s := s2); [|now apply (Hr s1)|exact H].
  intros x t t' _ Ht Hb. now apply (Hkeep x t t').
Qed.

(** X15.  A row that is stored stays: when a row, processed on its own
    from the empty table, stores an entry under a key, the table that
    the run returns holds that key, whatever the rows before and behind
    it.  No row removes a key. *)
Theorem stored_keys_persist :
  (forall header pre r post k v d,
      Abs.row_body r [] = Ok [(k, v)] ->
      Abs.extract_abs_rankings (Some (header :: pre ++ r :: post)%list) = Ok d ->
      In k (keys d))
  /\ (forall pre r post k v st,
         Core.row_body r ([], []) = Ok ([(k, v)], []) ->
         Core.extract_full_core_rankings (Some (pre ++ r :: post)%list) = Ok st ->
         In k (keys (fst st)))
  /\ (forall rows pre r post k v st,
         DictReader rows = (pre ++ r :: post)%list ->
         Sjr.row_body r ([], []) = Ok ([(k, v)], []) ->
         Sjr.extract_sjr_rankings (Some rows) = Ok st ->
         In k (keys (fst st))).
Proof.
  split; [|split].
  - intros header pre r post k v d Hr H. cbn [Abs.extract_abs_rankings] in H.
    apply (key_kept_by_loop Abs.row_body (fun d => d) k r pre post)
      with (s := []); [| |exact H].
    + intros s s' Hb.
      rewrite (proj1 (abs_row_frame r k) v Hr s) in Hb. injection Hb as <-.
      apply keys_dict_set. now left.
    + intros x s s' Hb Hin.
      destruct (abs_row_cases x) as [Hx|[t [rk [_ [_ Hx]]]]];
        rewrite Hx in Hb; [discriminate|]. injection Hb as <-.
      apply keys_dict_set. now right.
  - intros pre r post k v st Hr H.
    unfold Core.extract_full_core_rankings in H.
    destruct (for_each Core.row_body _ ([], [])) as [st1|] eqn:E;
      [|discriminate].
    cbn [bind] in H.
    destruct (for_each Core.count_body (map snd (fst st1)) []);
      [|discriminate].
    cbn [bind] in H. injection H as <-.
    apply (key_kept_by_loop Core.row_body fst k r pre post)
      with (s := ([], [])); [| |exact E].
    + intros [d out] s' Hb.
      rewrite (proj1 (core_row_frame r k) v Hr d out) in Hb.
      injection Hb as <-. apply keys_dict_set. now left.
    + intros x [d out] s' Hb Hin. cbn [fst] in Hin.
      destruct (core_row_cases x) as [[_ Hx]|[Hx|Hx]].
      * rewrite Hx in Hb. now injection Hb as <-.
      * rewrite Hx in Hb. now injection Hb as <-.
      * destruct Hx as [t [y [c [rr [_ [_ [_ [_ Hx]]]]]]]].
        rewrite Hx in Hb. injection Hb as <-. apply keys_dict_set. now right.
  - intros rows pre r post k v st Hrows Hr H.
    cbn [Sjr.extract_sjr_rankings] in H. rewrite Hrows in H.
    apply (key_kept_by_loop Sjr.row_body fst k r pre post)
      with (s := ([], [])); [| |exact H].
    + intros [d out] s' Hb.
      rewrite (proj1 (sjr_row_frame r k) v Hr d out) in Hb.
      injection Hb as <-. apply keys_dict_set. now left.
    + intros x [d out] s' Hb Hin. cbn [fst] in Hin.
      destruct (sjr_row_cases x) as [[e Hx]|[[w Hx]|[t [y [_ Hx]]]]].
      * rewrite Hx in Hb. discriminate.
      * rewrite Hx in Hb. now injection Hb as <-.
      * rewrite Hx in Hb. injection Hb as <-. apply keys_dict_set. now right.
Qed.

(** A CORE file whose second row is stored and whose third is dropped. *)
Lemma stored_keys_persist_witness :
  let r := ["2"; "ICSE"; "x"; "s"; "A*"; ""; "x"; "y"; "z"] in
  let rows := [["short"]; r; ["3"; "XYZ"; "x"; "s"; "Unranked"; ""; "x"; "y"; "z"]] in
  Core.extract_full_core_rankings (Some rows)
  = Ok ([("ICSE", "A* [2023]")], [IgnoredRow ["short"]])
  /\ In "ICSE" (keys [("ICSE", "A* [2023]")]).
Proof.
  intros r rows. split; [reflexivity|].
  apply (proj1 (proj2 stored_keys_persist) [["short"]] r
           [["3"; "XYZ"; "x"; "s"; "Unranked"; ""; "x"; "y"; "z"]]
           "ICSE" "A* [2023]" ([("ICSE", "A* [2023]")], [IgnoredRow ["short"]])
           eq_refl eq_refl).
Defined.
